(** * EV3 tacho motor driver: a shallow embedding of ev3_tacho_motor.c

    The driver is a Linux kernel module for the 32-bit ARM LEGO EV3 brick.
    On that target [int] and [long] are 32-bit two's complement integers,
    [unsigned] and [unsigned long] are 32-bit naturals, and the kernel is
    built so that signed arithmetic wraps around.  Integers are modelled
    as [Z] with the wrap-around written out at every operation. *)

From Stdlib Require Import ZArith Bool Lia List.
From stdpp Require Import base numbers list.
Import ListNotations.

Local Open Scope Z_scope.

(** ** Machine integers *)

Module C.

Definition min_int : Z := - 2 ^ 31.
Definition max_int : Z := 2 ^ 31 - 1.

(** Conversion of a mathematical value to [int] / [long]. *)
Definition sint (z : Z) : Z := (z + 2 ^ 31) mod 2 ^ 32 - 2 ^ 31.

(** Conversion of a mathematical value to [unsigned] / [unsigned long]. *)
Definition uint (z : Z) : Z := z mod 2 ^ 32.

Definition is_int (z : Z) : Prop := min_int <= z <= max_int.
Definition is_uint (z : Z) : Prop := 0 <= z < 2 ^ 32.

(** Signed operators. *)
Definition add (a b : Z) : Z := sint (a + b).
Definition sub (a b : Z) : Z := sint (a - b).
Definition mul (a b : Z) : Z := sint (a * b).
Definition neg (a : Z) : Z := sint (- a).

(** [/] on signed operands truncates towards zero.  A zero divisor makes
    the ARM kernel's division helper log the fault and hand back 0, which
    is also what [Z.quot] gives. *)
Definition div (a b : Z) : Z := sint (Z.quot a b).

(** The kernel's [abs()] is [x < 0 ? -x : x]. *)
Definition abs (a : Z) : Z := if a <? 0 then neg a else a.

(** Unsigned operators. *)
Definition usub (a b : Z) : Z := uint (a - b).
Definition udiv (a b : Z) : Z := Z.quot a b.

End C.

Arguments C.sint : simpl never.
Arguments C.uint : simpl never.
Arguments C.add : simpl never.
Arguments C.sub : simpl never.
Arguments C.mul : simpl never.
Arguments C.neg : simpl never.
Arguments C.div : simpl never.
Arguments C.abs : simpl never.
Arguments C.usub : simpl never.
Arguments C.udiv : simpl never.

Declare Scope c_scope.
Delimit Scope c_scope with c.
Arguments C.add (a b)%_c_scope.
Arguments C.sub (a b)%_c_scope.
Arguments C.mul (a b)%_c_scope.
Arguments C.neg a%_c_scope.
Arguments C.div (a b)%_c_scope.
Arguments C.abs a%_c_scope.
Infix "+" := C.add : c_scope.
Infix "-" := C.sub : c_scope.
Infix "*" := C.mul : c_scope.
Infix "/" := C.div : c_scope.
Notation "- x" := (C.neg x) : c_scope.

(** ** Constants and enumerations of the source file *)

Definition TACHO_SAMPLES : Z := 128.
Definition MAX_POWER : Z := 100.

Inductive ev3_tacho_motor_type : Set :=
| MOTOR_TYPE_0 | MOTOR_TYPE_1 | MOTOR_TYPE_2 | MOTOR_TYPE_3
| MOTOR_TYPE_4 | MOTOR_TYPE_5 | MOTOR_TYPE_6
| MOTOR_TYPE_TACHO | MOTOR_TYPE_MINITACHO | MOTOR_TYPE_NEWTACHO
| MOTOR_TYPE_10 | MOTOR_TYPE_11 | MOTOR_TYPE_12 | MOTOR_TYPE_13
| MOTOR_TYPE_14 | MOTOR_TYPE_15.

Inductive ev3_tacho_motor_samples : Set :=
| SAMPLES_PER_SPEED_BELOW_40
| SAMPLES_PER_SPEED_ABOVE_40
| SAMPLES_PER_SPEED_ABOVE_60
| SAMPLES_PER_SPEED_ABOVE_80.

Inductive ev3_tacho_motor_command : Set :=
| UNKNOWN | FORWARD | REVERSE | BRAKE | COAST.

Definition SamplesPerSpeed (t : ev3_tacho_motor_type)
    (s : ev3_tacho_motor_samples) : Z :=
  match t, s with
  | MOTOR_TYPE_TACHO, SAMPLES_PER_SPEED_BELOW_40 => 4
  | MOTOR_TYPE_TACHO, SAMPLES_PER_SPEED_ABOVE_40 => 16
  | MOTOR_TYPE_TACHO, SAMPLES_PER_SPEED_ABOVE_60 => 32
  | MOTOR_TYPE_TACHO, SAMPLES_PER_SPEED_ABOVE_80 => 64
  | MOTOR_TYPE_MINITACHO, SAMPLES_PER_SPEED_BELOW_40 => 2
  | MOTOR_TYPE_MINITACHO, SAMPLES_PER_SPEED_ABOVE_40 => 4
  | MOTOR_TYPE_MINITACHO, SAMPLES_PER_SPEED_ABOVE_60 => 8
  | MOTOR_TYPE_MINITACHO, SAMPLES_PER_SPEED_ABOVE_80 => 16
  | _, _ => 2
  end.

Definition CountsPerPulse (t : ev3_tacho_motor_type) : Z :=
  match t with
  | MOTOR_TYPE_TACHO => 3300000
  | MOTOR_TYPE_MINITACHO => 2062500
  | _ => 1
  end.

Definition MaxPulsesPerSec (t : ev3_tacho_motor_type) : Z :=
  match t with
  | MOTOR_TYPE_TACHO => 900
  | MOTOR_TYPE_MINITACHO => 1200
  | _ => 1
  end.

(** ** Enumerations declared in the class headers

    The headers [tacho_motor_class.h], [dc_motor_class.h] and the platform
    data header are not part of the sources at hand; the driver only names
    their enumerators. *)

(** Modelled from the spec: the ten states of the ramp state machine
    ([TM_STATE_*] of tacho_motor_class.h), as section 4.3 lists them. *)
Inductive tm_state : Set :=
| TM_STATE_RUN_FOREVER
| TM_STATE_SETUP_RAMP_TIME
| TM_STATE_SETUP_RAMP_POSITION
| TM_STATE_SETUP_RAMP_REGULATION
| TM_STATE_RAMP_UP
| TM_STATE_RAMP_CONST
| TM_STATE_POSITION_RAMP_DOWN
| TM_STATE_RAMP_DOWN
| TM_STATE_STOP
| TM_STATE_IDLE.

(** Modelled from the spec: the run mode selector ([TM_RUN_*] of
    tacho_motor_class.h): forever, timed, or to a position. *)
Inductive tm_run_mode : Set := TM_RUN_FOREVER | TM_RUN_TIME | TM_RUN_POSITION.

(** Modelled from the spec: the regulation mode selector
    ([TM_REGULATION_*] of tacho_motor_class.h): open loop or closed loop. *)
Inductive tm_regulation_mode : Set := TM_REGULATION_OFF | TM_REGULATION_ON.

(** Modelled from the spec: the stop mode selector ([TM_STOP_*] of
    tacho_motor_class.h): coast, brake, or hold position. *)
Inductive tm_stop_mode : Set := TM_STOP_COAST | TM_STOP_BRAKE | TM_STOP_HOLD.

(** Modelled from the spec: the position mode selector ([TM_POSITION_*] of
    tacho_motor_class.h): absolute or relative targets. *)
Inductive tm_position_mode : Set := TM_POSITION_ABSOLUTE | TM_POSITION_RELATIVE.

(** Modelled from the spec: the motor kinds the class layer knows
    ([TM_TYPE_*] of tacho_motor_class.h). *)
Inductive tm_type : Set := TM_TYPE_TACHO | TM_TYPE_MINITACHO.

(** Modelled from the spec: the polarity flag ([enum dc_motor_polarity] of
    dc_motor_class.h): normal or inverted. *)
Inductive dc_motor_polarity : Set :=
| DC_MOTOR_POLARITY_NORMAL | DC_MOTOR_POLARITY_INVERTED.

(** Modelled from the spec: the three commands of the physical motor
    interface ([DC_MOTOR_COMMAND_*] of dc_motor_class.h). *)
Inductive dc_motor_command : Set :=
| DC_MOTOR_COMMAND_RUN | DC_MOTOR_COMMAND_COAST | DC_MOTOR_COMMAND_BRAKE.

(** Modelled from the spec: the motor identifier found in the platform
    data ([TACHO_MOTOR_EV3_*] of the legoev3 platform header); any other
    identifier is treated like the large motor by the reset code. *)
Inductive motor_type_id : Set :=
| TACHO_MOTOR_EV3_LARGE | TACHO_MOTOR_EV3_MEDIUM | TACHO_MOTOR_OTHER.

(** [!polarity] in C: the enumerators are 0 and 1. *)
Definition polarity_not (p : dc_motor_polarity) : dc_motor_polarity :=
  match p with
  | DC_MOTOR_POLARITY_NORMAL => DC_MOTOR_POLARITY_INVERTED
  | DC_MOTOR_POLARITY_INVERTED => DC_MOTOR_POLARITY_NORMAL
  end.

#[global] Instance tm_state_eq_dec : EqDecision tm_state.
Proof. solve_decision. Defined.
#[global] Instance tm_run_mode_eq_dec : EqDecision tm_run_mode.
Proof. solve_decision. Defined.
#[global] Instance tm_regulation_mode_eq_dec : EqDecision tm_regulation_mode.
Proof. solve_decision. Defined.
#[global] Instance tm_stop_mode_eq_dec : EqDecision tm_stop_mode.
Proof. solve_decision. Defined.
#[global] Instance command_eq_dec : EqDecision ev3_tacho_motor_command.
Proof. solve_decision. Defined.
#[global] Instance motor_type_eq_dec : EqDecision ev3_tacho_motor_type.
Proof. solve_decision. Defined.
#[global] Instance polarity_eq_dec : EqDecision dc_motor_polarity.
Proof. solve_decision. Defined.

(** ** What the driver does to the outside world

    The three operations of the physical motor interface and the deferred
    state-change notification, recorded in call order. *)
Inductive effect : Set :=
| set_direction (p : dc_motor_polarity)
| set_command (c : dc_motor_command)
| set_duty_cycle (duty : Z)
| schedule_work_notify_state_change.

(** ** struct ev3_tacho_motor_data *)

Record ramp_window : Set := mk_ramp_window {
  start : Z;
  end_ : Z;
  full : Z
}.

Record ramp_data : Set := mk_ramp_data {
  up : ramp_window;
  down : ramp_window;
  percent : Z;
  direction : Z;
  ramp_position_sp : Z;
  count : Z
}.

Record pid_data : Set := mk_pid_data {
  pid_P : Z;
  pid_I : Z;
  pid_D : Z;
  speed_regulation_P : Z;
  speed_regulation_I : Z;
  speed_regulation_D : Z;
  speed_regulation_K : Z;
  prev_pulses_per_second : Z;
  prev_position_error : Z
}.

Record ev3_tacho_motor_data : Set := mk_ev3_tacho_motor_data {
  tacho_samples : list Z;
  tacho_samples_head : Z;
  got_new_sample : bool;
  samples_per_speed : Z;
  dir_chg_samples : Z;
  counts_per_pulse : Z;
  pulses_per_second : Z;
  class_mutex : bool;
  irq_mutex : bool;
  ramp : ramp_data;
  pid : pid_data;
  speed_reg_sp : Z;
  run_direction : ev3_tacho_motor_command;
  run : Z;
  estop : Z;
  motor_type : ev3_tacho_motor_type;
  tacho : Z;
  irq_tacho : Z;
  speed : Z;
  power : Z;
  state : tm_state;
  duty_cycle_sp : Z;
  pulses_per_second_sp : Z;
  time_sp : Z;
  position_sp : Z;
  ramp_up_sp : Z;
  ramp_down_sp : Z;
  run_mode : tm_run_mode;
  regulation_mode : tm_regulation_mode;
  stop_mode : tm_stop_mode;
  position_mode : tm_position_mode;
  polarity_mode : dc_motor_polarity;
  encoder_mode : dc_motor_polarity
}.

(** *** Field assignment

    [tm.field = v] becomes [with_field v tm].  Each setter is the record
    rebuilt from its own projections with one of them replaced. *)

Definition window_fields (w : ramp_window) : ramp_window :=
  mk_ramp_window (start w) (end_ w) (full w).

Definition ramp_fields (r : ramp_data) : ramp_data :=
  mk_ramp_data (up r) (down r) (percent r) (direction r)
    (ramp_position_sp r) (count r).

Definition pid_fields (p : pid_data) : pid_data :=
  mk_pid_data (pid_P p) (pid_I p) (pid_D p)
    (speed_regulation_P p) (speed_regulation_I p) (speed_regulation_D p)
    (speed_regulation_K p) (prev_pulses_per_second p) (prev_position_error p).

Definition tm_fields (tm : ev3_tacho_motor_data) : ev3_tacho_motor_data :=
  mk_ev3_tacho_motor_data
    (tacho_samples tm) (tacho_samples_head tm) (got_new_sample tm)
    (samples_per_speed tm) (dir_chg_samples tm) (counts_per_pulse tm)
    (pulses_per_second tm) (class_mutex tm) (irq_mutex tm) (ramp tm) (pid tm)
    (speed_reg_sp tm) (run_direction tm) (run tm) (estop tm) (motor_type tm)
    (tacho tm) (irq_tacho tm) (speed tm) (power tm) (state tm)
    (duty_cycle_sp tm) (pulses_per_second_sp tm) (time_sp tm) (position_sp tm)
    (ramp_up_sp tm) (ramp_down_sp tm) (run_mode tm) (regulation_mode tm)
    (stop_mode tm) (position_mode tm) (polarity_mode tm) (encoder_mode tm).

Ltac assign_field rebuild proj :=
  let v := fresh "v" in
  let r := fresh "r" in
  intros v r;
  let body := eval cbv beta delta [rebuild] in (rebuild r) in
  match eval pattern (proj r) in body with
  | ?F _ => let t := eval cbv beta in (F v) in exact t
  end.

Definition with_start : Z -> ramp_window -> ramp_window :=
  ltac:(assign_field window_fields start).
Definition with_end : Z -> ramp_window -> ramp_window :=
  ltac:(assign_field window_fields end_).
Definition with_full : Z -> ramp_window -> ramp_window :=
  ltac:(assign_field window_fields full).

Definition with_up : ramp_window -> ramp_data -> ramp_data :=
  ltac:(assign_field ramp_fields up).
Definition with_down : ramp_window -> ramp_data -> ramp_data :=
  ltac:(assign_field ramp_fields down).
Definition with_percent : Z -> ramp_data -> ramp_data :=
  ltac:(assign_field ramp_fields percent).
Definition with_direction : Z -> ramp_data -> ramp_data :=
  ltac:(assign_field ramp_fields direction).
Definition with_ramp_position_sp : Z -> ramp_data -> ramp_data :=
  ltac:(assign_field ramp_fields ramp_position_sp).
Definition with_count : Z -> ramp_data -> ramp_data :=
  ltac:(assign_field ramp_fields count).

Definition with_pid_P : Z -> pid_data -> pid_data :=
  ltac:(assign_field pid_fields pid_P).
Definition with_pid_I : Z -> pid_data -> pid_data :=
  ltac:(assign_field pid_fields pid_I).
Definition with_pid_D : Z -> pid_data -> pid_data :=
  ltac:(assign_field pid_fields pid_D).
Definition with_speed_regulation_P : Z -> pid_data -> pid_data :=
  ltac:(assign_field pid_fields speed_regulation_P).
Definition with_speed_regulation_I : Z -> pid_data -> pid_data :=
  ltac:(assign_field pid_fields speed_regulation_I).
Definition with_speed_regulation_D : Z -> pid_data -> pid_data :=
  ltac:(assign_field pid_fields speed_regulation_D).
Definition with_speed_regulation_K : Z -> pid_data -> pid_data :=
  ltac:(assign_field pid_fields speed_regulation_K).
Definition with_prev_pulses_per_second : Z -> pid_data -> pid_data :=
  ltac:(assign_field pid_fields prev_pulses_per_second).
Definition with_prev_position_error : Z -> pid_data -> pid_data :=
  ltac:(assign_field pid_fields prev_position_error).

Definition with_tacho_samples : list Z -> ev3_tacho_motor_data -> ev3_tacho_motor_data :=
  ltac:(assign_field tm_fields tacho_samples).
Definition with_tacho_samples_head : Z -> ev3_tacho_motor_data -> ev3_tacho_motor_data :=
  ltac:(assign_field tm_fields tacho_samples_head).
Definition with_got_new_sample : bool -> ev3_tacho_motor_data -> ev3_tacho_motor_data :=
  ltac:(assign_field tm_fields got_new_sample).
Definition with_samples_per_speed : Z -> ev3_tacho_motor_data -> ev3_tacho_motor_data :=
  ltac:(assign_field tm_fields samples_per_speed).
Definition with_dir_chg_samples : Z -> ev3_tacho_motor_data -> ev3_tacho_motor_data :=
  ltac:(assign_field tm_fields dir_chg_samples).
Definition with_pulses_per_second : Z -> ev3_tacho_motor_data -> ev3_tacho_motor_data :=
  ltac:(assign_field tm_fields pulses_per_second).
Definition with_irq_mutex : bool -> ev3_tacho_motor_data -> ev3_tacho_motor_data :=
  ltac:(assign_field tm_fields irq_mutex).
Definition with_ramp : ramp_data -> ev3_tacho_motor_data -> ev3_tacho_motor_data :=
  ltac:(assign_field tm_fields ramp).
Definition with_pid : pid_data -> ev3_tacho_motor_data -> ev3_tacho_motor_data :=
  ltac:(assign_field tm_fields pid).
Definition with_speed_reg_sp : Z -> ev3_tacho_motor_data -> ev3_tacho_motor_data :=
  ltac:(assign_field tm_fields speed_reg_sp).
Definition with_run_direction :
    ev3_tacho_motor_command -> ev3_tacho_motor_data -> ev3_tacho_motor_data :=
  ltac:(assign_field tm_fields run_direction).
Definition with_run : Z -> ev3_tacho_motor_data -> ev3_tacho_motor_data :=
  ltac:(assign_field tm_fields run).
Definition with_estop : Z -> ev3_tacho_motor_data -> ev3_tacho_motor_data :=
  ltac:(assign_field tm_fields estop).
Definition with_motor_type :
    ev3_tacho_motor_type -> ev3_tacho_motor_data -> ev3_tacho_motor_data :=
  ltac:(assign_field tm_fields motor_type).
Definition with_tacho : Z -> ev3_tacho_motor_data -> ev3_tacho_motor_data :=
  ltac:(assign_field tm_fields tacho).
Definition with_irq_tacho : Z -> ev3_tacho_motor_data -> ev3_tacho_motor_data :=
  ltac:(assign_field tm_fields irq_tacho).
Definition with_power : Z -> ev3_tacho_motor_data -> ev3_tacho_motor_data :=
  ltac:(assign_field tm_fields power).
Definition with_state : tm_state -> ev3_tacho_motor_data -> ev3_tacho_motor_data :=
  ltac:(assign_field tm_fields state).
Definition with_duty_cycle_sp : Z -> ev3_tacho_motor_data -> ev3_tacho_motor_data :=
  ltac:(assign_field tm_fields duty_cycle_sp).
Definition with_pulses_per_second_sp : Z -> ev3_tacho_motor_data -> ev3_tacho_motor_data :=
  ltac:(assign_field tm_fields pulses_per_second_sp).
Definition with_time_sp : Z -> ev3_tacho_motor_data -> ev3_tacho_motor_data :=
  ltac:(assign_field tm_fields time_sp).
Definition with_position_sp : Z -> ev3_tacho_motor_data -> ev3_tacho_motor_data :=
  ltac:(assign_field tm_fields position_sp).
Definition with_ramp_up_sp : Z -> ev3_tacho_motor_data -> ev3_tacho_motor_data :=
  ltac:(assign_field tm_fields ramp_up_sp).
Definition with_ramp_down_sp : Z -> ev3_tacho_motor_data -> ev3_tacho_motor_data :=
  ltac:(assign_field tm_fields ramp_down_sp).
Definition with_run_mode : tm_run_mode -> ev3_tacho_motor_data -> ev3_tacho_motor_data :=
  ltac:(assign_field tm_fields run_mode).
Definition with_regulation_mode :
    tm_regulation_mode -> ev3_tacho_motor_data -> ev3_tacho_motor_data :=
  ltac:(assign_field tm_fields regulation_mode).
Definition with_stop_mode : tm_stop_mode -> ev3_tacho_motor_data -> ev3_tacho_motor_data :=
  ltac:(assign_field tm_fields stop_mode).
Definition with_position_mode :
    tm_position_mode -> ev3_tacho_motor_data -> ev3_tacho_motor_data :=
  ltac:(assign_field tm_fields position_mode).
Definition with_polarity_mode :
    dc_motor_polarity -> ev3_tacho_motor_data -> ev3_tacho_motor_data :=
  ltac:(assign_field tm_fields polarity_mode).
Definition with_encoder_mode :
    dc_motor_polarity -> ev3_tacho_motor_data -> ev3_tacho_motor_data :=
  ltac:(assign_field tm_fields encoder_mode).

Definition with_counts_per_pulse : Z -> ev3_tacho_motor_data -> ev3_tacho_motor_data :=
  ltac:(assign_field tm_fields counts_per_pulse).
Definition with_class_mutex : bool -> ev3_tacho_motor_data -> ev3_tacho_motor_data :=
  ltac:(assign_field tm_fields class_mutex).
Definition with_speed : Z -> ev3_tacho_motor_data -> ev3_tacho_motor_data :=
  ltac:(assign_field tm_fields speed).

(** Assignment to the nested members [ramp.x], [ramp.up.x], [ramp.down.x]
    and [pid.x]. *)
Definition on_ramp (f : ramp_data -> ramp_data) (tm : ev3_tacho_motor_data) :=
  with_ramp (f (ramp tm)) tm.
Definition on_up (f : ramp_window -> ramp_window) (tm : ev3_tacho_motor_data) :=
  on_ramp (fun r => with_up (f (up r)) r) tm.
Definition on_down (f : ramp_window -> ramp_window) (tm : ev3_tacho_motor_data) :=
  on_ramp (fun r => with_down (f (down r)) r) tm.
Definition on_pid (f : pid_data -> pid_data) (tm : ev3_tacho_motor_data) :=
  with_pid (f (pid tm)) tm.

(** Reading and writing [ramp.x], [ramp.up.x], [ramp.down.x], [pid.x]. *)
Abbreviation ramp_up_start tm := (start (up (ramp tm))).
Abbreviation ramp_up_end tm := (end_ (up (ramp tm))).
Abbreviation ramp_up_full tm := (full (up (ramp tm))).
Abbreviation ramp_down_start tm := (start (down (ramp tm))).
Abbreviation ramp_down_end tm := (end_ (down (ramp tm))).
Abbreviation ramp_down_full tm := (full (down (ramp tm))).
Abbreviation ramp_percent tm := (percent (ramp tm)).
Abbreviation ramp_direction tm := (direction (ramp tm)).
Abbreviation ramp_count tm := (count (ramp tm)).

Definition set_ramp_up_start (v : Z) := on_up (with_start v).
Definition set_ramp_up_end (v : Z) := on_up (with_end v).
Definition set_ramp_up_full (v : Z) := on_up (with_full v).
Definition set_ramp_down_start (v : Z) := on_down (with_start v).
Definition set_ramp_down_end (v : Z) := on_down (with_end v).
Definition set_ramp_down_full (v : Z) := on_down (with_full v).
Definition set_ramp_percent (v : Z) := on_ramp (with_percent v).
Definition set_ramp_direction (v : Z) := on_ramp (with_direction v).
Definition set_ramp_position_sp (v : Z) := on_ramp (with_ramp_position_sp v).
Definition set_ramp_count (v : Z) := on_ramp (with_count v).
Definition set_pid_P (v : Z) := on_pid (with_pid_P v).
Definition set_pid_I (v : Z) := on_pid (with_pid_I v).
Definition set_pid_D (v : Z) := on_pid (with_pid_D v).

(** ** The sample ring

    [tacho_samples[i]] for an [unsigned] index.  The driver keeps every
    index below [TACHO_SAMPLES]; outside the array the list operations
    read 0 and write nothing. *)
Definition sample_at (tm : ev3_tacho_motor_data) (i : Z) : Z :=
  tacho_samples tm !!! Z.to_nat i.

Definition store_sample (i v : Z) (tm : ev3_tacho_motor_data) :
    ev3_tacho_motor_data :=
  with_tacho_samples (<[Z.to_nat i := v]> (tacho_samples tm)) tm.

Definition command_eqb (a b : ev3_tacho_motor_command) : bool :=
  bool_decide (a = b).

(** ** tacho_motor_isr

    The inputs are what the handler reads from the hardware: the level of
    the interrupt line, the level of the direction line, and the free
    running timer. *)

(** [irq_tacho++] when the direction is FORWARD, [irq_tacho--] otherwise. *)
Definition count_edge (tm : ev3_tacho_motor_data) : ev3_tacho_motor_data :=
  if command_eqb FORWARD (run_direction tm)
  then with_irq_tacho (irq_tacho tm + 1)%c tm
  else with_irq_tacho (irq_tacho tm - 1)%c tm.

(** The reverse assignment, used to undo the previous edge. *)
Definition uncount_edge (tm : ev3_tacho_motor_data) : ev3_tacho_motor_data :=
  if command_eqb FORWARD (run_direction tm)
  then with_irq_tacho (irq_tacho tm - 1)%c tm
  else with_irq_tacho (irq_tacho tm + 1)%c tm.

(** [if (dir_chg_samples < TACHO_SAMPLES-1) dir_chg_samples++]. *)
Definition bump_dir_chg_samples (tm : ev3_tacho_motor_data) :
    ev3_tacho_motor_data :=
  if dir_chg_samples tm <? TACHO_SAMPLES - 1
  then with_dir_chg_samples (dir_chg_samples tm + 1)%c tm
  else tm.

(** The nested conditionals on [polarity_mode] and [encoder_mode]. *)
Definition resolve_direction (int_state dir_state : bool)
    (tm : ev3_tacho_motor_data) : ev3_tacho_motor_command :=
  match polarity_mode tm with
  | DC_MOTOR_POLARITY_NORMAL =>
      match encoder_mode tm with
      | DC_MOTOR_POLARITY_NORMAL =>
          if Bool.eqb int_state dir_state then FORWARD else REVERSE
      | _ => if Bool.eqb int_state dir_state then REVERSE else FORWARD
      end
  | _ =>
      match encoder_mode tm with
      | DC_MOTOR_POLARITY_NORMAL =>
          if Bool.eqb int_state dir_state then REVERSE else FORWARD
      | _ => if Bool.eqb int_state dir_state then FORWARD else REVERSE
      end
  end.

(** The body of the handler up to [run_direction = next_direction]: it
    yields the updated data, [next_direction] and [next_sample]. *)
Definition isr_classify (int_state dir_state : bool) (timer : Z)
    (tm : ev3_tacho_motor_data) :
    ev3_tacho_motor_data * ev3_tacho_motor_command * Z :=
  let prev_timer := sample_at tm (tacho_samples_head tm) in
  let next_sample := C.uint (tacho_samples_head tm + 1) mod TACHO_SAMPLES in
  if (35 <? speed tm) || (-35 >? speed tm) then
    (bump_dir_chg_samples tm, run_direction tm, next_sample)
  else
    let next_direction := resolve_direction int_state dir_state tm in
    if 400 * 33 >? C.usub timer prev_timer then
      let tm := store_sample (tacho_samples_head tm) timer tm in
      let tm := uncount_edge tm in
      (tm, next_direction, tacho_samples_head tm)
    else
      let tm :=
        if command_eqb (run_direction tm) next_direction
        then bump_dir_chg_samples tm
        else with_dir_chg_samples 0 tm in
      (tm, next_direction, next_sample).

(** The rest of the handler, from [run_direction = next_direction] on. *)
Definition isr_commit (next_direction : ev3_tacho_motor_command)
    (next_sample timer : Z) (tm : ev3_tacho_motor_data) :
    ev3_tacho_motor_data :=
  let tm := with_run_direction next_direction tm in
  let tm := store_sample next_sample timer tm in
  let tm := with_tacho_samples_head next_sample tm in
  let tm := with_irq_mutex true tm in
  let tm := count_edge tm in
  let tm := with_got_new_sample true tm in
  with_irq_mutex false tm.

Definition tacho_motor_isr (tacho_int_gpio tacho_dir_gpio : bool)
    (hires_timer : Z) (tm : ev3_tacho_motor_data) : ev3_tacho_motor_data :=
  let int_state := tacho_int_gpio in
  let dir_state := negb tacho_dir_gpio in
  let timer := C.uint hires_timer in
  let '(tm, next_direction, next_sample) :=
    isr_classify int_state dir_state timer tm in
  isr_commit next_direction next_sample timer tm.

(** ** Output mapping *)

(** A driver routine: new data and the calls it made, in order. *)
Definition cmd : Type :=
  ev3_tacho_motor_data -> ev3_tacho_motor_data * list effect.

Definition ev3_tacho_motor_update_output : cmd := fun tm =>
  let '(tm, calls) :=
    if power tm >? 0 then
      (match regulation_mode tm with
       | TM_REGULATION_OFF => if power tm <? 10 then with_power 10 tm else tm
       | _ => tm
       end,
       [set_direction (polarity_mode tm);
        set_command DC_MOTOR_COMMAND_RUN])
    else if power tm <? 0 then
      (match regulation_mode tm with
       | TM_REGULATION_OFF => if power tm >? -10 then with_power (-10) tm else tm
       | _ => tm
       end,
       [set_direction (polarity_not (polarity_mode tm));
        set_command DC_MOTOR_COMMAND_RUN])
    else
      (tm,
       match stop_mode tm with
       | TM_STOP_COAST => [set_command DC_MOTOR_COMMAND_COAST]
       | TM_STOP_BRAKE => [set_command DC_MOTOR_COMMAND_BRAKE]
       | TM_STOP_HOLD => [set_command DC_MOTOR_COMMAND_BRAKE]
       end) in
  (tm, calls ++ [set_duty_cycle (C.abs (power tm))]).

(** The range limiting of [ev3_tacho_motor_set_power]. *)
Definition limit_power (power : Z) : Z :=
  if power >? MAX_POWER then MAX_POWER
  else if power <? - MAX_POWER then - MAX_POWER
  else power.

Definition ev3_tacho_motor_set_power (power_arg : Z) : cmd := fun tm =>
  if power tm =? power_arg then (tm, [])
  else ev3_tacho_motor_update_output (with_power (limit_power power_arg) tm).

(** ** Speed estimation *)

Definition set_samples_per_speed (speed_arg : Z) (tm : ev3_tacho_motor_data) :
    ev3_tacho_motor_data :=
  if speed_arg >? 80 then
    with_samples_per_speed
      (SamplesPerSpeed (motor_type tm) SAMPLES_PER_SPEED_ABOVE_80) tm
  else if speed_arg >? 60 then
    with_samples_per_speed
      (SamplesPerSpeed (motor_type tm) SAMPLES_PER_SPEED_ABOVE_60) tm
  else if speed_arg >? 40 then
    with_samples_per_speed
      (SamplesPerSpeed (motor_type tm) SAMPLES_PER_SPEED_ABOVE_40) tm
  else
    with_samples_per_speed
      (SamplesPerSpeed (motor_type tm) SAMPLES_PER_SPEED_BELOW_40) tm.

(** [hires_timer] is what [legoev3_hires_timer_read()] returns if the
    stall test gets to read it.  Mixed [int]/[unsigned] expressions are
    evaluated as unsigned, as C converts them. *)
Definition calculate_speed (hires_timer : Z) (tm : ev3_tacho_motor_data) :
    bool * ev3_tacho_motor_data :=
  let DiffIdx := tacho_samples_head tm in
  let tm :=
    if dir_chg_samples tm >=? 1 then
      let Diff :=
        C.usub (sample_at tm DiffIdx)
          (sample_at tm (C.uint (DiffIdx + TACHO_SAMPLES - 1) mod TACHO_SAMPLES)) in
      let Diff := Z.lor Diff 1 in
      set_samples_per_speed
        (C.sint (C.udiv (C.uint (counts_per_pulse tm)) Diff)) tm
    else tm in
  if got_new_sample tm && (dir_chg_samples tm >=? samples_per_speed tm) then
    let Diff :=
      C.usub (sample_at tm DiffIdx)
        (sample_at tm
           (C.uint (DiffIdx + TACHO_SAMPLES - samples_per_speed tm)
              mod TACHO_SAMPLES)) in
    let Diff := Z.lor Diff 1 in
    let tm :=
      with_pulses_per_second
        (C.sint (C.udiv (C.uint (33000000 * samples_per_speed tm)%c) Diff)) tm in
    let tm :=
      if command_eqb (run_direction tm) REVERSE
      then with_pulses_per_second (- pulses_per_second tm)%c tm
      else tm in
    (true, with_got_new_sample false tm)
  else if C.uint (counts_per_pulse tm)
          <? C.usub (C.uint hires_timer) (sample_at tm DiffIdx) then
    let tm := with_dir_chg_samples 0 tm in
    (true, with_pulses_per_second 0 tm)
  else (false, tm).

(** ** The speed regulator *)

(** The clamp of [speed_reg_sp] to the motor model's maximum rate. *)
Definition limit_speed_reg_sp (tm : ev3_tacho_motor_data) :
    ev3_tacho_motor_data :=
  if speed_reg_sp tm >? MaxPulsesPerSec (motor_type tm) then
    with_speed_reg_sp (MaxPulsesPerSec (motor_type tm)) tm
  else if speed_reg_sp tm <? (- MaxPulsesPerSec (motor_type tm))%c then
    with_speed_reg_sp (- MaxPulsesPerSec (motor_type tm))%c tm
  else tm.

(** The value of the local [power]: (P*Kp + I*Ki + D*Kd) / K over the
    PID terms as they stand. *)
Definition pid_power (p : pid_data) : Z :=
  ((pid_P p * speed_regulation_P p
    + pid_I p * speed_regulation_I p
    + pid_D p * speed_regulation_D p) / speed_regulation_K p)%c.

(** [regulate_speed] up to the computation of [power]: the data with the
    setpoint clamped and the PID terms updated, the local [speed_error]
    and the local [power]. *)
Definition regulate_speed_terms (tm : ev3_tacho_motor_data) :
    ev3_tacho_motor_data * Z * Z :=
  let tm := limit_speed_reg_sp tm in
  let speed_error := (speed_reg_sp tm - pulses_per_second tm)%c in
  let tm := set_pid_P speed_error tm in
  let tm := set_pid_I (pid_I (pid tm) + speed_error)%c tm in
  let tm :=
    set_pid_D
      (pulses_per_second tm - prev_pulses_per_second (pid tm))%c tm in
  let tm := on_pid (with_prev_pulses_per_second (pulses_per_second tm)) tm in
  (tm, speed_error, pid_power (pid tm)).

Definition regulate_speed : cmd := fun tm =>
  let '(tm, speed_error, power_local) := regulate_speed_terms tm in
  let tm :=
    if 100 <? C.abs power_local
    then set_pid_I (pid_I (pid tm) - speed_error)%c tm
    else tm in
  if 0 =? speed_reg_sp tm
  then ev3_tacho_motor_set_power 0 tm
  else ev3_tacho_motor_set_power power_local tm.

Definition update_motor_speed_or_power (percent_arg : Z) : cmd := fun tm =>
  match regulation_mode tm with
  | TM_REGULATION_OFF =>
      match run_mode tm with
      | TM_RUN_POSITION =>
          ev3_tacho_motor_set_power
            (ramp_direction tm * C.abs ((duty_cycle_sp tm * percent_arg) / 100))%c
            tm
      | _ =>
          ev3_tacho_motor_set_power ((duty_cycle_sp tm * percent_arg) / 100)%c tm
      end
  | TM_REGULATION_ON =>
      match run_mode tm with
      | TM_RUN_POSITION =>
          (with_speed_reg_sp
             (ramp_direction tm
              * C.abs ((pulses_per_second_sp tm * percent_arg) / 100))%c tm,
           [])
      | _ =>
          (with_speed_reg_sp
             ((pulses_per_second_sp tm * percent_arg) / 100)%c tm,
           [])
      end
  end.

(** ** The position-hold regulator *)

Definition regulate_position : cmd := fun tm =>
  let position_error := (0 - irq_tacho tm)%c in
  let pid_terms (tm : ev3_tacho_motor_data) :=
    let tm := set_pid_P (position_error * 400)%c tm in
    let tm :=
      set_pid_I ((pid_I (pid tm) * 99) / 100 + position_error / 1)%c tm in
    set_pid_D
      ((((position_error - prev_position_error (pid tm)) * 4) / 2) * 2)%c tm in
  let tm :=
    match motor_type tm with
    | MOTOR_TYPE_MINITACHO => pid_terms tm
    | MOTOR_TYPE_TACHO => pid_terms tm
    | _ => tm
    end in
  let tm := on_pid (with_prev_position_error position_error) tm in
  let power_local := ((pid_P (pid tm) + pid_I (pid tm) + pid_D (pid tm)) / 100)%c in
  ev3_tacho_motor_set_power power_local tm.

(** ** Ramp profile *)

Definition adjust_ramp_for_position (tm : ev3_tacho_motor_data) :
    ev3_tacho_motor_data :=
  let ramp_down_time :=
    match regulation_mode tm with
    | TM_REGULATION_OFF => C.abs ((ramp_down_sp tm * power tm) / 100)%c
    | TM_REGULATION_ON =>
        C.abs ((ramp_down_sp tm * pulses_per_second tm)
               / MaxPulsesPerSec (motor_type tm))%c
    end in
  let ramp_down_distance :=
    C.abs ((pulses_per_second tm * ramp_down_time * 7) / (2000 * 10))%c in
  let freeze (tm : ev3_tacho_motor_data) :=
    let tm := set_ramp_up_end (ramp_count tm) tm in
    let tm := set_ramp_down_end (ramp_count tm + ramp_down_time)%c tm in
    set_ramp_down_start (ramp_down_end tm - ramp_down_sp tm)%c tm in
  if ramp_direction tm >? 0 then
    if (ramp_position_sp (ramp tm) - ramp_down_distance)%c
       <=? (tacho tm + irq_tacho tm)%c
    then freeze tm else tm
  else
    if (ramp_position_sp (ramp tm) + ramp_down_distance)%c
       >=? (tacho tm + irq_tacho tm)%c
    then freeze tm else tm.

Definition calculate_ramp_progress (numerator denominator : Z) : Z :=
  if denominator <=? (numerator + 2)%c then 100
  else if 0 =? denominator then 100
  else ((numerator * 100) / denominator)%c.

(** ** The timer callback

    Each case of the [switch] inside the reprocessing loop is a function
    from the data to the new data, the calls made, and the [reprocess]
    flag it leaves. *)
Definition step_result : Type := ev3_tacho_motor_data * list effect * bool.

(** [case TM_STATE_RUN_FOREVER:] falls through to
    [case TM_STATE_SETUP_RAMP_TIME:]. *)
Definition state_setup_ramp_time (tm : ev3_tacho_motor_data) : step_result :=
  let tm := set_ramp_up_start 0 tm in
  let tm := set_ramp_down_end (time_sp tm) tm in
  let tm :=
    match run_mode tm with
    | TM_RUN_FOREVER => set_ramp_down_end (60 * 60 * 1000)%c tm
    | _ => tm
    end in
  let tm :=
    match regulation_mode tm with
    | TM_REGULATION_OFF =>
        let tm :=
          set_ramp_up_full
            ((C.abs (duty_cycle_sp tm) * ramp_up_sp tm) / 100)%c tm in
        let tm :=
          set_ramp_down_full
            ((C.abs (duty_cycle_sp tm) * ramp_down_sp tm) / 100)%c tm in
        set_ramp_direction (if duty_cycle_sp tm >=? 0 then 1 else -1) tm
    | TM_REGULATION_ON =>
        let tm :=
          set_ramp_up_full
            ((C.abs (pulses_per_second_sp tm) * ramp_up_sp tm)
             / MaxPulsesPerSec (motor_type tm))%c tm in
        let tm :=
          set_ramp_down_full
            ((C.abs (pulses_per_second_sp tm) * ramp_down_sp tm)
             / MaxPulsesPerSec (motor_type tm))%c tm in
        set_ramp_direction (if pulses_per_second_sp tm >=? 0 then 1 else -1) tm
    end in
  let tm := set_ramp_up_end (ramp_up_start tm + ramp_up_full tm)%c tm in
  let tm := set_ramp_down_start (ramp_down_end tm - ramp_down_full tm)%c tm in
  let tm :=
    if ramp_up_end tm >? ramp_down_start tm then
      let tm :=
        set_ramp_up_end
          ((time_sp tm * ramp_up_sp tm) / (ramp_up_sp tm + ramp_down_sp tm))%c
          tm in
      set_ramp_down_start (ramp_up_end tm) tm
    else tm in
  (with_state TM_STATE_SETUP_RAMP_REGULATION tm, [], true).

Definition state_setup_ramp_position (tm : ev3_tacho_motor_data) :
    step_result :=
  let tm :=
    match position_mode tm with
    | TM_POSITION_ABSOLUTE => set_ramp_position_sp (position_sp tm) tm
    | _ =>
        set_ramp_position_sp
          (ramp_position_sp (ramp tm) + position_sp tm)%c tm
    end in
  let tm :=
    set_ramp_direction
      (if ramp_position_sp (ramp tm) >=? (tacho tm + irq_tacho tm)%c
       then 1 else -1) tm in
  let tm := set_ramp_up_start 0 tm in
  let tm :=
    match regulation_mode tm with
    | TM_REGULATION_OFF =>
        let tm :=
          set_ramp_up_full
            ((C.abs (duty_cycle_sp tm) * ramp_up_sp tm) / 100)%c tm in
        set_ramp_down_full
          ((C.abs (duty_cycle_sp tm) * ramp_down_sp tm) / 100)%c tm
    | TM_REGULATION_ON =>
        let tm :=
          set_ramp_up_full
            ((C.abs (pulses_per_second_sp tm) * ramp_up_sp tm)
             / MaxPulsesPerSec (motor_type tm))%c tm in
        set_ramp_down_full
          ((C.abs (pulses_per_second_sp tm) * ramp_down_sp tm)
           / MaxPulsesPerSec (motor_type tm))%c tm
    end in
  let tm := set_ramp_up_end (ramp_up_start tm + ramp_up_full tm)%c tm in
  let tm := set_ramp_down_end (60 * 60 * 1000)%c tm in
  let tm := set_ramp_down_start (60 * 60 * 1000)%c tm in
  (with_state TM_STATE_SETUP_RAMP_REGULATION tm, [], true).

Definition state_setup_ramp_regulation (tm : ev3_tacho_motor_data) :
    step_result :=
  let tm := set_ramp_count 0 tm in
  (with_state TM_STATE_RAMP_UP tm, [], true).

Definition state_ramp_up (tm : ev3_tacho_motor_data) : step_result :=
  let tm :=
    match run_mode tm with
    | TM_RUN_POSITION => adjust_ramp_for_position tm
    | _ => tm
    end in
  let '(tm, reprocess) :=
    if ramp_count tm >=? ramp_up_end tm
    then (with_state TM_STATE_RAMP_CONST tm, true)
    else (tm, false) in
  let tm :=
    set_ramp_percent
      (calculate_ramp_progress (ramp_count tm) (ramp_up_full tm)) tm in
  let '(tm, calls) := update_motor_speed_or_power (ramp_percent tm) tm in
  (tm, calls, reprocess).

Definition state_ramp_const (tm : ev3_tacho_motor_data) : step_result :=
  let '(tm, reprocess) :=
    match run_mode tm with
    | TM_RUN_FOREVER =>
        let tm := set_ramp_down_start (ramp_count tm) tm in
        let tm :=
          set_ramp_down_end
            (ramp_count tm
             + (C.abs (duty_cycle_sp tm) * ramp_down_sp tm) / 100)%c tm in
        (tm, false)
    | TM_RUN_TIME =>
        if ramp_count tm >=? ramp_down_start tm
        then (with_state TM_STATE_RAMP_DOWN tm, true)
        else (tm, false)
    | TM_RUN_POSITION =>
        let tm := adjust_ramp_for_position tm in
        if ramp_count tm >=? ramp_down_start tm
        then (with_state TM_STATE_POSITION_RAMP_DOWN tm, true)
        else (tm, false)
    end in
  let '(tm, calls) := update_motor_speed_or_power (ramp_percent tm) tm in
  (tm, calls, reprocess).

Definition state_ramp_down (tm : ev3_tacho_motor_data) : step_result :=
  let '(tm, reprocess) :=
    if ramp_count tm >=? ramp_down_end tm
    then (with_state TM_STATE_STOP tm, true)
    else (tm, false) in
  let tm :=
    set_ramp_percent
      (calculate_ramp_progress
         (ramp_down_end tm - ramp_count tm)%c (ramp_down_full tm)) tm in
  let '(tm, calls) := update_motor_speed_or_power (ramp_percent tm) tm in
  (tm, calls, reprocess).

(** [case TM_STATE_POSITION_RAMP_DOWN:] adjusts the down window and falls
    through to [case TM_STATE_RAMP_DOWN:]. *)
Definition state_position_ramp_down (tm : ev3_tacho_motor_data) :
    step_result :=
  let tm :=
    if ramp_direction tm >? 0 then
      if ramp_position_sp (ramp tm) <=? (tacho tm + irq_tacho tm)%c then
        set_ramp_down_end (ramp_count tm) tm
      else if ramp_down_end tm <=? ramp_count tm then
        set_ramp_down_end (ramp_count tm + 100)%c tm
      else tm
    else
      if ramp_position_sp (ramp tm) >=? (tacho tm + irq_tacho tm)%c then
        set_ramp_down_end (ramp_count tm) tm
      else if ramp_down_end tm <=? ramp_count tm then
        set_ramp_down_end (ramp_count tm + 100)%c tm
      else tm in
  let tm := set_ramp_down_start (ramp_down_end tm - ramp_down_sp tm)%c tm in
  state_ramp_down tm.

Definition state_stop (tm : ev3_tacho_motor_data) : step_result :=
  let tm :=
    match run_mode tm with
    | TM_RUN_POSITION =>
        let tm :=
          with_irq_tacho
            ((tacho tm + irq_tacho tm) - ramp_position_sp (ramp tm))%c tm in
        with_tacho (ramp_position_sp (ramp tm)) tm
    | _ =>
        let tm := with_tacho (tacho tm + irq_tacho tm)%c tm in
        with_irq_tacho 0 tm
    end in
  let tm := with_speed_reg_sp 0 tm in
  let '(tm, calls) := ev3_tacho_motor_set_power 0 tm in
  let tm := set_pid_P 0 tm in
  let tm := set_pid_I 0 tm in
  let tm := set_pid_D 0 tm in
  (with_state TM_STATE_IDLE tm, calls, true).

Definition state_idle (tm : ev3_tacho_motor_data) : step_result :=
  (with_run 0 tm, [schedule_work_notify_state_change], false).

(** One pass through the [switch]. *)
Definition process_state (tm : ev3_tacho_motor_data) : step_result :=
  match state tm with
  | TM_STATE_RUN_FOREVER => state_setup_ramp_time tm
  | TM_STATE_SETUP_RAMP_TIME => state_setup_ramp_time tm
  | TM_STATE_SETUP_RAMP_POSITION => state_setup_ramp_position tm
  | TM_STATE_SETUP_RAMP_REGULATION => state_setup_ramp_regulation tm
  | TM_STATE_RAMP_UP => state_ramp_up tm
  | TM_STATE_RAMP_CONST => state_ramp_const tm
  | TM_STATE_POSITION_RAMP_DOWN => state_position_ramp_down tm
  | TM_STATE_RAMP_DOWN => state_ramp_down tm
  | TM_STATE_STOP => state_stop tm
  | TM_STATE_IDLE => state_idle tm
  end.

(** [while (reprocess) { reprocess = 0; switch ... }].  [None] means the
    loop was still asking for another pass when [fuel] passes were done. *)
Fixpoint reprocess_loop (fuel : nat) (tm : ev3_tacho_motor_data) :
    option (ev3_tacho_motor_data * list effect) :=
  match fuel with
  | O => None
  | S fuel =>
      let '(tm, calls, reprocess) := process_state tm in
      if reprocess then
        match reprocess_loop fuel tm with
        | Some (tm', calls') => Some (tm', calls ++ calls')
        | None => None
        end
      else Some (tm, calls)
  end.

(** The longest chain of immediate transitions has seven passes. *)
Definition reprocess_fuel : nat := 8.

(** Is [s] one of the four states in which the ramp counter runs? *)
Definition ramping (s : tm_state) : bool :=
  match s with
  | TM_STATE_RAMP_UP | TM_STATE_RAMP_CONST
  | TM_STATE_POSITION_RAMP_DOWN | TM_STATE_RAMP_DOWN => true
  | _ => false
  end.

(** The [switch] ahead of the loop: [ramp.count = ramp.count + 2]. *)
Definition advance_ramp_count (tm : ev3_tacho_motor_data) :
    ev3_tacho_motor_data :=
  if ramping (state tm) then set_ramp_count (ramp_count tm + 2)%c tm else tm.

(** The code after the [no_run:] label. *)
Definition no_run : cmd := fun tm =>
  if run tm =? 0 then
    match stop_mode tm with
    | TM_STOP_COAST => (tm, [set_command DC_MOTOR_COMMAND_COAST])
    | TM_STOP_BRAKE => (tm, [set_command DC_MOTOR_COMMAND_BRAKE])
    | TM_STOP_HOLD => regulate_position tm
    end
  else (tm, []).

Definition ev3_tacho_motor_timer_callback (hires_timer : Z)
    (tm : ev3_tacho_motor_data) :
    option (ev3_tacho_motor_data * list effect) :=
  let '(_, tm) := calculate_speed hires_timer tm in
  if 0 =? run tm then Some (no_run tm)
  else
    let tm := advance_ramp_count tm in
    match reprocess_loop reprocess_fuel tm with
    | None => None
    | Some (tm, calls) =>
        let '(tm, calls_reg) :=
          if negb (run tm =? 0) then
            match regulation_mode tm with
            | TM_REGULATION_ON => regulate_speed tm
            | _ => (tm, [])
            end
          else (tm, []) in
        let '(tm, calls_idle) := no_run tm in
        Some (tm, calls ++ calls_reg ++ calls_idle)
    end.

(** ** Reset and attach *)

(** [ev3_tacho_motor_reset]: every member is assigned except
    [ramp.up.full] and [ramp.down.full], which keep their values. *)
Definition ev3_tacho_motor_reset (id : motor_type_id)
    (tm : ev3_tacho_motor_data) : ev3_tacho_motor_data :=
  {| tacho_samples := replicate (Z.to_nat TACHO_SAMPLES) 0;
     tacho_samples_head := 0;
     got_new_sample := false;
     samples_per_speed :=
       SamplesPerSpeed MOTOR_TYPE_TACHO SAMPLES_PER_SPEED_BELOW_40;
     dir_chg_samples := 0;
     counts_per_pulse := CountsPerPulse MOTOR_TYPE_TACHO;
     pulses_per_second := 0;
     class_mutex := false;
     irq_mutex := false;
     ramp :=
       {| up := {| start := 0; end_ := 0; full := ramp_up_full tm |};
          down := {| start := 0; end_ := 0; full := ramp_down_full tm |};
          percent := 0;
          direction := 0;
          ramp_position_sp := 0;
          count := 0 |};
     pid :=
       {| pid_P := 0;
          pid_I := 0;
          pid_D := 0;
          speed_regulation_P := 1000;
          speed_regulation_I := 60;
          speed_regulation_D := 0;
          speed_regulation_K := 9000;
          prev_pulses_per_second := 0;
          prev_position_error := 0 |};
     speed_reg_sp := 0;
     run_direction := UNKNOWN;
     run := 0;
     estop := 0;
     motor_type :=
       match id with
       | TACHO_MOTOR_EV3_MEDIUM => MOTOR_TYPE_MINITACHO
       | TACHO_MOTOR_EV3_LARGE => MOTOR_TYPE_TACHO
       | _ => MOTOR_TYPE_TACHO
       end;
     tacho := 0;
     irq_tacho := 0;
     speed := 0;
     power := 0;
     state := TM_STATE_IDLE;
     duty_cycle_sp := 0;
     pulses_per_second_sp := 0;
     time_sp := 0;
     position_sp := 0;
     ramp_up_sp := 0;
     ramp_down_sp := 0;
     run_mode := TM_RUN_FOREVER;
     regulation_mode := TM_REGULATION_OFF;
     stop_mode := TM_STOP_COAST;
     position_mode := TM_POSITION_ABSOLUTE;
     polarity_mode := DC_MOTOR_POLARITY_NORMAL;
     encoder_mode := DC_MOTOR_POLARITY_NORMAL |}.

(** The block [kzalloc] hands to the probe routine: all bytes zero.  Only
    the two [full] members survive the reset that follows. *)
Definition kzalloc_data : ev3_tacho_motor_data :=
  {| tacho_samples := replicate (Z.to_nat TACHO_SAMPLES) 0;
     tacho_samples_head := 0; got_new_sample := false;
     samples_per_speed := 0; dir_chg_samples := 0; counts_per_pulse := 0;
     pulses_per_second := 0; class_mutex := false; irq_mutex := false;
     ramp :=
       {| up := {| start := 0; end_ := 0; full := 0 |};
          down := {| start := 0; end_ := 0; full := 0 |};
          percent := 0; direction := 0; ramp_position_sp := 0; count := 0 |};
     pid :=
       {| pid_P := 0; pid_I := 0; pid_D := 0;
          speed_regulation_P := 0; speed_regulation_I := 0;
          speed_regulation_D := 0; speed_regulation_K := 0;
          prev_pulses_per_second := 0; prev_position_error := 0 |};
     speed_reg_sp := 0; run_direction := UNKNOWN; run := 0; estop := 0;
     motor_type := MOTOR_TYPE_0; tacho := 0; irq_tacho := 0; speed := 0;
     power := 0; state := TM_STATE_RUN_FOREVER;
     duty_cycle_sp := 0; pulses_per_second_sp := 0; time_sp := 0;
     position_sp := 0; ramp_up_sp := 0; ramp_down_sp := 0;
     run_mode := TM_RUN_FOREVER; regulation_mode := TM_REGULATION_OFF;
     stop_mode := TM_STOP_COAST; position_mode := TM_POSITION_ABSOLUTE;
     polarity_mode := DC_MOTOR_POLARITY_NORMAL;
     encoder_mode := DC_MOTOR_POLARITY_NORMAL |}.

(** The motor data as [ev3_tacho_motor_probe] leaves it. *)
Definition ev3_tacho_motor_probe (id : motor_type_id) : ev3_tacho_motor_data :=
  ev3_tacho_motor_reset id kzalloc_data.

(** ** The accessor table *)

Definition ev3_tacho_motor_get_type (tm : ev3_tacho_motor_data) : tm_type :=
  match motor_type tm with
  | MOTOR_TYPE_MINITACHO => TM_TYPE_MINITACHO
  | MOTOR_TYPE_TACHO => TM_TYPE_TACHO
  | _ => TM_TYPE_TACHO
  end.

Definition ev3_tacho_motor_set_type (type : tm_type)
    (tm : ev3_tacho_motor_data) : ev3_tacho_motor_data :=
  match type with
  | TM_TYPE_MINITACHO => with_motor_type MOTOR_TYPE_MINITACHO tm
  | TM_TYPE_TACHO => with_motor_type MOTOR_TYPE_TACHO tm
  end.

Definition ev3_tacho_motor_get_position (tm : ev3_tacho_motor_data) : Z :=
  (tacho tm + irq_tacho tm)%c.

Definition ev3_tacho_motor_set_position (position : Z)
    (tm : ev3_tacho_motor_data) : ev3_tacho_motor_data :=
  let tm := with_irq_tacho 0 tm in
  let tm := with_tacho position tm in
  set_ramp_position_sp position tm.

Definition ev3_tacho_motor_get_duty_cycle (tm : ev3_tacho_motor_data) : Z :=
  power tm.
Definition ev3_tacho_motor_get_state (tm : ev3_tacho_motor_data) : tm_state :=
  state tm.
Definition ev3_tacho_motor_get_pulses_per_second
    (tm : ev3_tacho_motor_data) : Z := pulses_per_second tm.

Definition ev3_tacho_motor_set_duty_cycle_sp := with_duty_cycle_sp.
Definition ev3_tacho_motor_set_pulses_per_second_sp := with_pulses_per_second_sp.
Definition ev3_tacho_motor_set_time_sp := with_time_sp.
Definition ev3_tacho_motor_set_position_sp := with_position_sp.
Definition ev3_tacho_motor_set_regulation_mode := with_regulation_mode.
Definition ev3_tacho_motor_set_position_mode := with_position_mode.
Definition ev3_tacho_motor_set_stop_mode := with_stop_mode.
Definition ev3_tacho_motor_set_encoder_mode := with_encoder_mode.
Definition ev3_tacho_motor_set_ramp_up_sp := with_ramp_up_sp.
Definition ev3_tacho_motor_set_ramp_down_sp := with_ramp_down_sp.
Definition ev3_tacho_motor_set_run_mode := with_run_mode.

Definition ev3_tacho_motor_set_polarity_mode (polarity : dc_motor_polarity) :
    cmd := fun tm =>
  ev3_tacho_motor_update_output (with_polarity_mode polarity tm).

Definition ev3_tacho_motor_set_speed_regulation_P (v : Z) :=
  on_pid (with_speed_regulation_P v).
Definition ev3_tacho_motor_set_speed_regulation_I (v : Z) :=
  on_pid (with_speed_regulation_I v).
Definition ev3_tacho_motor_set_speed_regulation_D (v : Z) :=
  on_pid (with_speed_regulation_D v).
Definition ev3_tacho_motor_set_speed_regulation_K (v : Z) :=
  on_pid (with_speed_regulation_K v).

Definition ev3_tacho_motor_get_run (tm : ev3_tacho_motor_data) : Z := run tm.

Definition is_idle (s : tm_state) : bool :=
  match s with TM_STATE_IDLE => true | _ => false end.

Definition ev3_tacho_motor_set_run (run_arg : Z)
    (tm : ev3_tacho_motor_data) : ev3_tacho_motor_data :=
  let tm :=
    if negb (0 =? estop tm) then with_state TM_STATE_STOP tm
    else if (0 =? run_arg) && negb (is_idle (state tm)) then
      let tm := set_ramp_down_start (ramp_count tm) tm in
      let tm := set_ramp_down_end (ramp_down_sp tm) tm in
      match run_mode tm with
      | TM_RUN_FOREVER => with_state TM_STATE_RAMP_DOWN tm
      | TM_RUN_TIME => with_state TM_STATE_RAMP_DOWN tm
      | TM_RUN_POSITION => with_state TM_STATE_STOP tm
      end
    else if negb (0 =? run_arg) && is_idle (state tm) then
      match run_mode tm with
      | TM_RUN_FOREVER => with_state TM_STATE_RUN_FOREVER tm
      | TM_RUN_TIME => with_state TM_STATE_SETUP_RAMP_TIME tm
      | TM_RUN_POSITION => with_state TM_STATE_SETUP_RAMP_POSITION tm
      end
    else if 0 =? run_arg then with_state TM_STATE_STOP tm
    else tm in
  with_run 1 tm.

Definition ev3_tacho_motor_get_estop (tm : ev3_tacho_motor_data) : Z := estop tm.

(** [while (0 == estop) get_random_bytes(&estop, sizeof(estop))].
    [random_words] are the words the generator hands out, in order; the
    result is [None] when all of them were used and the key is still 0. *)
Fixpoint draw_estop_key (random_words : list Z) (key : Z) {struct random_words} :
    option Z :=
  if 0 =? key then
    match random_words with
    | [] => None
    | w :: random_words => draw_estop_key random_words (C.sint w)
    end
  else Some key.

Definition ev3_tacho_motor_set_estop (random_words : list Z) (estop_arg : Z)
    (tm : ev3_tacho_motor_data) : option ev3_tacho_motor_data :=
  if 0 =? estop tm then
    let tm := with_stop_mode TM_STOP_COAST tm in
    let tm := with_state TM_STATE_STOP tm in
    match draw_estop_key random_words (estop tm) with
    | Some key => Some (with_estop key tm)
    | None => None
    end
  else if estop_arg =? estop tm then Some (with_estop 0 tm)
  else Some tm.

Definition ev3_tacho_motor_set_reset (id : motor_type_id) (reset_arg : Z)
    (tm : ev3_tacho_motor_data) : ev3_tacho_motor_data :=
  ev3_tacho_motor_reset id tm.

(** ** What the specification says, in its own words *)

(** The progress function of section 8 over the integers:
    window <= elapsed+2 gives 100; window = 0 gives 100; otherwise
    elapsed*100/window, the quotient truncated like C's. *)
Definition ramp_progress_spec (elapsed window : Z) : Z :=
  if window <=? elapsed + 2 then 100
  else if window =? 0 then 100
  else Z.quot (elapsed * 100) window.

(** The 2x2 truth table of section 4.1 on the two polarity flags. *)
Definition polarity_table (output encoder : dc_motor_polarity) :
    dc_motor_polarity :=
  match output, encoder with
  | DC_MOTOR_POLARITY_NORMAL, DC_MOTOR_POLARITY_NORMAL => DC_MOTOR_POLARITY_NORMAL
  | DC_MOTOR_POLARITY_NORMAL, DC_MOTOR_POLARITY_INVERTED => DC_MOTOR_POLARITY_INVERTED
  | DC_MOTOR_POLARITY_INVERTED, DC_MOTOR_POLARITY_NORMAL => DC_MOTOR_POLARITY_INVERTED
  | DC_MOTOR_POLARITY_INVERTED, DC_MOTOR_POLARITY_INVERTED => DC_MOTOR_POLARITY_NORMAL
  end.

(** A direction seen through a polarity: kept when normal, swapped when
    inverted. *)
Definition through_polarity (p : dc_motor_polarity)
    (d : ev3_tacho_motor_command) : ev3_tacho_motor_command :=
  match p, d with
  | DC_MOTOR_POLARITY_INVERTED, FORWARD => REVERSE
  | DC_MOTOR_POLARITY_INVERTED, REVERSE => FORWARD
  | _, _ => d
  end.

(** The comparison of the two lines as the handler samples them: the
    direction line is read inverted, and equal samples mean forward. *)
Definition compare_lines (tacho_int_gpio tacho_dir_gpio : bool) :
    ev3_tacho_motor_command :=
  if Bool.eqb tacho_int_gpio (negb tacho_dir_gpio) then FORWARD else REVERSE.

(** The clamp of section 4.5. *)
Definition clamp_power (request : Z) : Z := Z.max (-100) (Z.min 100 request).

(** The position change one counted edge makes for a direction. *)
Definition edge_increment (d : ev3_tacho_motor_command) : Z :=
  match d with FORWARD => 1 | _ => -1 end.

(** The ring is well formed: 128 slots and a head inside them. *)
Definition ring_ok (tm : ev3_tacho_motor_data) : Prop :=
  length (tacho_samples tm) = Z.to_nat TACHO_SAMPLES
  /\ 0 <= tacho_samples_head tm < TACHO_SAMPLES.

(** The measured speed is at or below the high-speed threshold. *)
Definition low_speed (tm : ev3_tacho_motor_data) : Prop :=
  -35 <= speed tm <= 35.

(** ** Everything that can write the motor data

    The setters of the accessor table, the edge handler and the timer
    callback, each with what it reads from outside. *)
Inductive operation : Type :=
| op_set_type (type : tm_type)
| op_set_position (position : Z)
| op_set_duty_cycle_sp (v : Z)
| op_set_pulses_per_second_sp (v : Z)
| op_set_time_sp (v : Z)
| op_set_position_sp (v : Z)
| op_set_run_mode (m : tm_run_mode)
| op_set_regulation_mode (m : tm_regulation_mode)
| op_set_stop_mode (m : tm_stop_mode)
| op_set_position_mode (m : tm_position_mode)
| op_set_polarity_mode (p : dc_motor_polarity)
| op_set_encoder_mode (p : dc_motor_polarity)
| op_set_ramp_up_sp (v : Z)
| op_set_ramp_down_sp (v : Z)
| op_set_speed_regulation_P (v : Z)
| op_set_speed_regulation_I (v : Z)
| op_set_speed_regulation_D (v : Z)
| op_set_speed_regulation_K (v : Z)
| op_set_run (run_arg : Z)
| op_set_estop (random_words : list Z) (estop_arg : Z)
| op_set_reset (id : motor_type_id) (reset_arg : Z)
| op_edge (tacho_int_gpio tacho_dir_gpio : bool) (hires_timer : Z)
| op_tick (hires_timer : Z).

(** The data after an operation; [None] when the operation does not
    return ([set_estop] starved of non-zero random words). *)
Definition apply_operation (op : operation) (tm : ev3_tacho_motor_data) :
    option ev3_tacho_motor_data :=
  match op with
  | op_set_type t => Some (ev3_tacho_motor_set_type t tm)
  | op_set_position p => Some (ev3_tacho_motor_set_position p tm)
  | op_set_duty_cycle_sp v => Some (ev3_tacho_motor_set_duty_cycle_sp v tm)
  | op_set_pulses_per_second_sp v =>
      Some (ev3_tacho_motor_set_pulses_per_second_sp v tm)
  | op_set_time_sp v => Some (ev3_tacho_motor_set_time_sp v tm)
  | op_set_position_sp v => Some (ev3_tacho_motor_set_position_sp v tm)
  | op_set_run_mode m => Some (ev3_tacho_motor_set_run_mode m tm)
  | op_set_regulation_mode m => Some (ev3_tacho_motor_set_regulation_mode m tm)
  | op_set_stop_mode m => Some (ev3_tacho_motor_set_stop_mode m tm)
  | op_set_position_mode m => Some (ev3_tacho_motor_set_position_mode m tm)
  | op_set_polarity_mode p => Some (fst (ev3_tacho_motor_set_polarity_mode p tm))
  | op_set_encoder_mode p => Some (ev3_tacho_motor_set_encoder_mode p tm)
  | op_set_ramp_up_sp v => Some (ev3_tacho_motor_set_ramp_up_sp v tm)
  | op_set_ramp_down_sp v => Some (ev3_tacho_motor_set_ramp_down_sp v tm)
  | op_set_speed_regulation_P v =>
      Some (ev3_tacho_motor_set_speed_regulation_P v tm)
  | op_set_speed_regulation_I v =>
      Some (ev3_tacho_motor_set_speed_regulation_I v tm)
  | op_set_speed_regulation_D v =>
      Some (ev3_tacho_motor_set_speed_regulation_D v tm)
  | op_set_speed_regulation_K v =>
      Some (ev3_tacho_motor_set_speed_regulation_K v tm)
  | op_set_run r => Some (ev3_tacho_motor_set_run r tm)
  | op_set_estop words v => ev3_tacho_motor_set_estop words v tm
  | op_set_reset id v => Some (ev3_tacho_motor_set_reset id v tm)
  | op_edge i d t => Some (tacho_motor_isr i d t tm)
  | op_tick t =>
      match ev3_tacho_motor_timer_callback t tm with
      | Some (tm', _) => Some tm'
      | None => None
      end
  end.

Fixpoint run_operations (tm : ev3_tacho_motor_data) (ops : list operation) :
    option ev3_tacho_motor_data :=
  match ops with
  | [] => Some tm
  | op :: ops =>
      match apply_operation op tm with
      | Some tm' => run_operations tm' ops
      | None => None
      end
  end.

(** The motor data that can arise after attach. *)
Definition reachable (tm : ev3_tacho_motor_data) : Prop :=
  exists id ops, run_operations (ev3_tacho_motor_probe id) ops = Some tm.

(** A motor whose run flag is clear is idle or stopping. *)
Definition run_consistent (tm : ev3_tacho_motor_data) : Prop :=
  run tm = 0 -> state tm = TM_STATE_IDLE \/ state tm = TM_STATE_STOP.

Definition is_tick (op : operation) : bool :=
  match op with op_tick _ => true | _ => false end.
Definition is_reset (op : operation) : bool :=
  match op with op_set_reset _ _ => true | _ => false end.
Definition is_edge (op : operation) : bool :=
  match op with op_edge _ _ _ => true | _ => false end.

(** ** Concrete motor data used as examples *)

(** A large motor just attached. *)
Definition fresh_motor : ev3_tacho_motor_data :=
  ev3_tacho_motor_probe TACHO_MOTOR_EV3_LARGE.

(** A first edge far from the zeroed ring, then two edges 100 timer counts
    apart; the third reads the lines the other way round. *)
Definition edge_a : ev3_tacho_motor_data :=
  tacho_motor_isr true false 1000000 fresh_motor.
Definition edge_b : ev3_tacho_motor_data :=
  tacho_motor_isr true false 1000100 edge_a.
Definition edge_c : ev3_tacho_motor_data :=
  tacho_motor_isr true true 1000200 edge_b.

(** ** Driving the speed regulator

    Each tick the ramp engine stores the requested setpoint in
    [speed_reg_sp] and the estimator stores the measured speed in
    [pulses_per_second]; then [regulate_speed] runs. *)
Definition regulator_input (sp measured : Z) (tm : ev3_tacho_motor_data) :
    ev3_tacho_motor_data :=
  with_speed_reg_sp sp (with_pulses_per_second measured tm).

(** The local [speed_error] and the local [power] of a call. *)
Definition speed_error_of (tm : ev3_tacho_motor_data) : Z :=
  snd (fst (regulate_speed_terms tm)).
Definition computed_power_of (tm : ev3_tacho_motor_data) : Z :=
  snd (regulate_speed_terms tm).

Definition regulator_tick (sp measured : Z) (tm : ev3_tacho_motor_data) :
    ev3_tacho_motor_data :=
  fst (regulate_speed (regulator_input sp measured tm)).

Fixpoint drive_speed_regulator (sp : Z) (tm : ev3_tacho_motor_data)
    (speeds : list Z) : ev3_tacho_motor_data :=
  match speeds with
  | [] => tm
  | v :: speeds =>
      drive_speed_regulator sp (regulator_tick sp v tm) speeds
  end.

(** The computed power of every tick of such a drive, in order. *)
Fixpoint computed_powers (sp : Z) (tm : ev3_tacho_motor_data)
    (speeds : list Z) : list Z :=
  match speeds with
  | [] => []
  | v :: speeds =>
      computed_power_of (regulator_input sp v tm)
      :: computed_powers sp (regulator_tick sp v tm) speeds
  end.

(** Is the computed power beyond +-100 on every tick of the drive? *)
Fixpoint saturated_throughout (sp : Z) (tm : ev3_tacho_motor_data)
    (speeds : list Z) : bool :=
  match speeds with
  | [] => true
  | v :: speeds =>
      (100 <? C.abs (computed_power_of (regulator_input sp v tm)))
      && saturated_throughout sp (regulator_tick sp v tm) speeds
  end.

(** A large motor under closed-loop speed control. *)
Definition regulated_motor : ev3_tacho_motor_data :=
  with_run 1 (ev3_tacho_motor_set_regulation_mode TM_REGULATION_ON fresh_motor).

(** The motor runs just below its maximum rate for 10000 ticks and is then
    held still by its load for 100 ticks. *)
Definition loaded_run : list Z :=
  replicate (Z.to_nat 10000) 899 ++ replicate (Z.to_nat 100) 0.

(** ** The order of the state machine

    Every immediate transition goes to a state of lower rank. *)
Definition rank (s : tm_state) : nat :=
  match s with
  | TM_STATE_IDLE => 0
  | TM_STATE_STOP => 1
  | TM_STATE_RAMP_DOWN => 2
  | TM_STATE_POSITION_RAMP_DOWN => 2
  | TM_STATE_RAMP_CONST => 3
  | TM_STATE_RAMP_UP => 4
  | TM_STATE_SETUP_RAMP_REGULATION => 5
  | TM_STATE_SETUP_RAMP_TIME => 6
  | TM_STATE_SETUP_RAMP_POSITION => 6
  | TM_STATE_RUN_FOREVER => 6
  end%nat.

(** The states that set a ramp up: RunForever and the three Setup states. *)
Definition setting_up (s : tm_state) : bool :=
  match s with
  | TM_STATE_RUN_FOREVER | TM_STATE_SETUP_RAMP_TIME
  | TM_STATE_SETUP_RAMP_POSITION | TM_STATE_SETUP_RAMP_REGULATION => true
  | _ => false
  end.

(** What one pass through the [switch] does to the state, the ramp
    counter and the run flag. *)
Definition step_shape (tm : ev3_tacho_motor_data) (r : step_result) : Prop :=
  (snd r = true -> (rank (state (fst (fst r))) < rank (state tm))%nat)
  /\ (snd r = false -> state (fst (fst r)) = state tm)
  /\ ramp_count (fst (fst r))
     = match state tm with
       | TM_STATE_SETUP_RAMP_REGULATION => 0
       | _ => ramp_count tm
       end
  /\ run (fst (fst r)) = (if is_idle (state tm) then 0 else run tm)
  /\ (setting_up (state tm) = true ->
      snd r = true
      /\ (state tm <> TM_STATE_SETUP_RAMP_REGULATION ->
          state (fst (fst r)) = TM_STATE_SETUP_RAMP_REGULATION)).

(** [tm'] has the state, the run flag and the ramp counter of [tm]. *)
Definition keeps (tm tm' : ev3_tacho_motor_data) : Prop :=
  state tm' = state tm /\ run tm' = run tm /\ ramp_count tm' = ramp_count tm.

(** A motor in the middle of a ramp-up, 100 ms in. *)
Definition ramping_motor : ev3_tacho_motor_data :=
  set_ramp_count 100
    (with_state TM_STATE_RAMP_UP
       (ev3_tacho_motor_set_run 1
          (ev3_tacho_motor_set_ramp_up_sp 500
             (ev3_tacho_motor_set_duty_cycle_sp 50 fresh_motor)))).

(** A motor told to run, before its first tick. *)
Definition started_motor : ev3_tacho_motor_data :=
  ev3_tacho_motor_set_run 1 fresh_motor.

(** ** The run-forever scenario

    Regulation off, duty-cycle setpoint 50, ramp-up setpoint 500 ms, run
    mode RunForever (the default), then a run request. *)
Definition scenario_start : ev3_tacho_motor_data :=
  ev3_tacho_motor_set_run 1
    (ev3_tacho_motor_set_ramp_up_sp 500
       (ev3_tacho_motor_set_duty_cycle_sp 50 fresh_motor)).

(** What may happen while the motor runs untouched by the user: encoder
    edges and timer ticks, with any line levels and timer readings. *)
Definition sensing (op : operation) : bool := is_tick op || is_edge op.

Fixpoint count_ticks (ops : list operation) : nat :=
  match ops with
  | [] => 0
  | op :: ops => (if is_tick op then 1 else 0) + count_ticks ops
  end%nat.

(** [n] timer ticks and nothing else. *)
Definition ticks_only (n : nat) : list operation := replicate n (op_tick 0).

(** The members the open-loop ramp depends on. *)
Definition same_drive (tm tm' : ev3_tacho_motor_data) : Prop :=
  state tm' = state tm /\ run tm' = run tm
  /\ run_mode tm' = run_mode tm
  /\ regulation_mode tm' = regulation_mode tm
  /\ duty_cycle_sp tm' = duty_cycle_sp tm
  /\ ramp_up_sp tm' = ramp_up_sp tm
  /\ ramp_down_sp tm' = ramp_down_sp tm
  /\ ramp tm' = ramp tm
  /\ power tm' = power tm.

(** The settings of the scenario. *)
Definition scenario_setup (tm : ev3_tacho_motor_data) : Prop :=
  run tm = 1
  /\ run_mode tm = TM_RUN_FOREVER
  /\ regulation_mode tm = TM_REGULATION_OFF
  /\ duty_cycle_sp tm = 50
  /\ ramp_up_sp tm = 500
  /\ ramp_down_sp tm = 0.

(** The motor data after [n] ticks of the scenario: before the first tick
    the machine waits in RunForever; after ticks 1 to 125 it is in RampUp
    with 2(n-1) ms on the counter; from tick 126 on it is in RampConst. *)
Definition scenario_after (n : nat) (tm : ev3_tacho_motor_data) : Prop :=
  scenario_setup tm
  /\ match n with
     | O => state tm = TM_STATE_RUN_FOREVER
     | S m =>
         if (n <=? 125)%nat then
           state tm = TM_STATE_RAMP_UP
           /\ ramp_up_full tm = 250
           /\ ramp_up_end tm = 250
           /\ ramp_count tm = 2 * Z.of_nat m
           /\ ramp_percent tm = calculate_ramp_progress (2 * Z.of_nat m) 250
           /\ (ramp_percent tm = 100 -> power tm = 50)
         else
           state tm = TM_STATE_RAMP_CONST
           /\ ramp_percent tm = 100
           /\ power tm = 50
     end.

(** The counter, the up-window length, the progress percentage and the
    commanded power, for display. *)
Definition ramp_view (tm : ev3_tacho_motor_data) : Z * Z * Z * Z :=
  (ramp_count tm, ramp_up_full tm, ramp_percent tm, power tm).

(** ** What a timer tick leaves alone

    The members the timer callback only reads (the ring and its head, the
    measured speed, the emergency-stop key, the motor model, the user's
    setpoints and modes, the regulator constants) and the position
    reading. *)
Definition held_through_tick (tm : ev3_tacho_motor_data) :=
  (tacho_samples tm, tacho_samples_head tm, counts_per_pulse tm,
   run_direction tm, estop tm, motor_type tm, speed tm,
   (duty_cycle_sp tm, pulses_per_second_sp tm, time_sp tm, position_sp tm,
    ramp_up_sp tm, ramp_down_sp tm),
   (run_mode tm, regulation_mode tm, stop_mode tm, position_mode tm,
    polarity_mode tm, encoder_mode tm),
   (speed_regulation_P (pid tm), speed_regulation_I (pid tm),
    speed_regulation_D (pid tm), speed_regulation_K (pid tm)),
   ev3_tacho_motor_get_position tm).

(** What the state machine and the regulators leave alone: all of the
    above and what the speed estimator writes. *)
Definition held_by_machine (tm : ev3_tacho_motor_data) :=
  (held_through_tick tm,
   (dir_chg_samples tm, samples_per_speed tm, pulses_per_second tm,
    got_new_sample tm)).

(** What the edge handler leaves alone: everything but the ring, its
    head, the direction, the live position delta, the direction-change
    counter, the new-sample flag and its own lock. *)
Definition held_through_edge (tm : ev3_tacho_motor_data) :=
  (samples_per_speed tm, counts_per_pulse tm, pulses_per_second tm,
   class_mutex tm, ramp tm, pid tm, speed_reg_sp tm, run tm,
   estop tm, motor_type tm, tacho tm, speed tm, power tm, state tm,
   (duty_cycle_sp tm, pulses_per_second_sp tm, time_sp tm, position_sp tm,
    ramp_up_sp tm, ramp_down_sp tm),
   (run_mode tm, regulation_mode tm, stop_mode tm, position_mode tm,
    polarity_mode tm, encoder_mode tm)).

(** The commanded power is a percentage. *)
Definition power_in_range (tm : ev3_tacho_motor_data) : Prop :=
  -100 <= power tm <= 100.

(** [t] has what [tm] holds through a tick, and a commanded power in
    range if [tm] has one. *)
Definition tick_frame (tm t : ev3_tacho_motor_data) : Prop :=
  held_through_tick t = held_through_tick tm
  /\ (power_in_range tm -> power_in_range t).

(** The same for one stage of the tick after the speed estimate. *)
Definition machine_frame (tm t : ev3_tacho_motor_data) : Prop :=
  held_by_machine t = held_by_machine tm
  /\ (power_in_range tm -> power_in_range t).

(** A call the port driver can take: a duty cycle is a percentage. *)
Definition duty_cycle_ok (e : effect) : Prop :=
  match e with
  | set_duty_cycle duty => 0 <= duty <= 100
  | _ => True
  end.

(** The data invariant of the driver. *)
Definition sound (tm : ev3_tacho_motor_data) : Prop :=
  ring_ok tm
  /\ speed tm = 0
  /\ power_in_range tm
  /\ 0 <= dir_chg_samples tm < TACHO_SAMPLES
  /\ 2 <= samples_per_speed tm <= 64
  /\ (run tm = 0 \/ run tm = 1)
  /\ (estop tm <> 0 -> state tm = TM_STATE_STOP \/ state tm = TM_STATE_IDLE)
  /\ (state tm = TM_STATE_IDLE -> run tm = 0).

(** A motor told to run, then stopped by the emergency stop (the random
    source hands out 0 and then 5), then told to run again. *)
Definition arming_operations : list operation :=
  [op_set_duty_cycle_sp 50; op_set_run 1; op_tick 0;
   op_set_estop [0; 5] 7; op_set_run 1].

Definition armed_motor : ev3_tacho_motor_data :=
  match run_operations fresh_motor arming_operations with
  | Some tm => tm
  | None => fresh_motor
  end.



(** Six encoder edges 100 000 timer counts apart, all read as forward,
    on a large motor just attached. *)
Definition spinning_operations : list operation :=
  [op_edge true false 1000000; op_edge true false 1100000;
   op_edge true false 1200000; op_edge true false 1300000;
   op_edge true false 1400000; op_edge true false 1500000].

Definition spinning_motor : ev3_tacho_motor_data :=
  match run_operations fresh_motor spinning_operations with
  | Some tm => tm
  | None => fresh_motor
  end.

(** A motor held in place: attached, stop mode Hold, then pushed three
    encoder steps forward by hand. *)
Definition held_operations : list operation :=
  [op_set_stop_mode TM_STOP_HOLD; op_edge true false 1000000;
   op_edge true false 1100000; op_edge true false 1200000].

Definition held_motor : ev3_tacho_motor_data :=
  match run_operations fresh_motor held_operations with
  | Some tm => tm
  | None => fresh_motor
  end.

(** ** The EV3 touch sensor (ev3_analog_sensor_defs.c)

    The callback sees the raw data of the current mode as bytes.  The
    structures around it are declared in headers that are not part of
    the sources at hand; of them the callback uses the byte buffer and
    the test whether the port belongs to the sensor multiplexer. *)

(** The buffer read through a pointer to [s32]: the first four bytes,
    least significant first, as the little-endian EV3 reads them. *)
Definition read_s32 (raw_data : list Z) : Z :=
  C.sint (raw_data !!! 0%nat + 2 ^ 8 * raw_data !!! 1%nat
          + 2 ^ 16 * raw_data !!! 2%nat + 2 ^ 24 * raw_data !!! 3%nat).

Definition lego_ev3_touch_sensor_cb (port_is_smux : bool)
    (raw_data : list Z) : list Z :=
  let raw_value := read_s32 raw_data in
  if port_is_smux then raw_data
  else <[0%nat := if raw_value >? 250 then 1 else 0]> raw_data.

(** A buffer of bytes that holds at least one 32-bit value. *)
Definition raw_bytes (raw_data : list Z) : Prop :=
  (4 <= length raw_data)%nat /\ Forall (fun b => 0 <= b < 256) raw_data.

(** ** A run to a position *)

(** The test of the PositionRampDown pass: has the position reading got
    to the target, seen in the direction of the ramp? *)
Definition target_reached (tm : ev3_tacho_motor_data) : bool :=
  if ramp_direction tm >? 0
  then ramp_position_sp (ramp tm) <=? ev3_tacho_motor_get_position tm
  else ramp_position_sp (ramp tm) >=? ev3_tacho_motor_get_position tm.

(** A large motor braking on its way forward to position 5, three steps
    from attach, 40 ms into the run. *)
Definition braking_motor : ev3_tacho_motor_data :=
  set_ramp_count 40
    (set_ramp_direction 1
       (set_ramp_position_sp 5
          (with_state TM_STATE_POSITION_RAMP_DOWN
             (with_run 1
                (with_irq_tacho 3
                   (ev3_tacho_motor_set_run_mode TM_RUN_POSITION
                      (ev3_tacho_motor_set_duty_cycle_sp 50 fresh_motor))))))).

(** ** A timed run without ramps

    Open loop, run mode RunTime, duty-cycle setpoint [d], run time [T]
    ms, both ramp setpoints 0, stop mode Coast or Brake, emergency stop
    disarmed. *)
Definition timed_run_setup (d T : Z) (tm : ev3_tacho_motor_data) : Prop :=
  estop tm = 0
  /\ run_mode tm = TM_RUN_TIME
  /\ regulation_mode tm = TM_REGULATION_OFF
  /\ stop_mode tm <> TM_STOP_HOLD
  /\ duty_cycle_sp tm = d
  /\ time_sp tm = T
  /\ ramp_up_sp tm = 0
  /\ ramp_down_sp tm = 0.

(** The motor data [n] ticks after the run request: before the first
    tick the machine waits in SetupRampTime; after tick n >= 1 it is in
    RampConst at power [d] with 2(n-1) ms on the counter as long as that
    is less than [T], and idle with power 0 from then on. *)
Definition timed_run_after (d T : Z) (n : nat) (tm : ev3_tacho_motor_data) :
    Prop :=
  timed_run_setup d T tm
  /\ match n with
     | O => state tm = TM_STATE_SETUP_RAMP_TIME /\ run tm = 1
     | S m =>
         if 2 * Z.of_nat m <? T then
           state tm = TM_STATE_RAMP_CONST /\ run tm = 1 /\ power tm = d
           /\ ramp_count tm = 2 * Z.of_nat m
           /\ ramp_down_start tm = T /\ ramp_down_end tm = T
           /\ ramp_percent tm = 100
         else state tm = TM_STATE_IDLE /\ run tm = 0 /\ power tm = 0
     end.

(** A large motor set up for a run of 100 ms at duty cycle 50. *)
Definition timed_motor : ev3_tacho_motor_data :=
  ev3_tacho_motor_set_time_sp 100
    (ev3_tacho_motor_set_run_mode TM_RUN_TIME
       (ev3_tacho_motor_set_duty_cycle_sp 50 fresh_motor)).

(** ** A run without end *)

(** The two states in which a run in mode RunForever drives the motor. *)
Definition driving (s : tm_state) : bool :=
  match s with
  | TM_STATE_RAMP_UP | TM_STATE_RAMP_CONST => true
  | _ => false
  end.

(** The run in mode RunForever [n] ticks after the run request. *)
Definition forever_after (n : nat) (tm : ev3_tacho_motor_data) : Prop :=
  run_mode tm = TM_RUN_FOREVER /\ run tm = 1
  /\ match n with
     | O => state tm = TM_STATE_RUN_FOREVER
     | S _ => driving (state tm) = true
     end.

(** ** Braking distance

    The locals of [adjust_ramp_for_position]: the time a ramp down from
    the present speed would take, the distance the motor would cover in
    it, and the test whether the target is within that distance. *)
Definition ramp_down_time (tm : ev3_tacho_motor_data) : Z :=
  match regulation_mode tm with
  | TM_REGULATION_OFF => C.abs ((ramp_down_sp tm * power tm) / 100)%c
  | TM_REGULATION_ON =>
      C.abs ((ramp_down_sp tm * pulses_per_second tm)
             / MaxPulsesPerSec (motor_type tm))%c
  end.

Definition ramp_down_distance (tm : ev3_tacho_motor_data) : Z :=
  C.abs ((pulses_per_second tm * ramp_down_time tm * 7) / (2000 * 10))%c.

Definition braking_due (tm : ev3_tacho_motor_data) : bool :=
  if ramp_direction tm >? 0 then
    (ramp_position_sp (ramp tm) - ramp_down_distance tm)%c
    <=? (tacho tm + irq_tacho tm)%c
  else
    (ramp_position_sp (ramp tm) + ramp_down_distance tm)%c
    >=? (tacho tm + irq_tacho tm)%c.

(** A large motor on its way forward to position 5 at power 50 with a
    ramp-down setpoint of 100 ms, two steps short of the target and
    turning at 900 pulses per second. *)
Definition approaching_motor : ev3_tacho_motor_data :=
  set_ramp_count 40
    (set_ramp_direction 1
       (set_ramp_position_sp 5
          (with_state TM_STATE_RAMP_CONST
             (with_run 1
                (with_irq_tacho 3
                   (with_pulses_per_second 900
                      (with_power 50
                         (ev3_tacho_motor_set_ramp_down_sp 100
                            (ev3_tacho_motor_set_run_mode TM_RUN_POSITION
                               (ev3_tacho_motor_set_duty_cycle_sp 50
                                  fresh_motor)))))))))).

(** ** Proof automation *)

Ltac unwrap :=
  unfold C.add, C.sub, C.mul, C.neg, C.div, C.usub, C.udiv, C.sint, C.uint,
    C.is_int, C.is_uint, C.min_int, C.max_int in *;
  change (2 ^ 32) with 4294967296 in *;
  change (2 ^ 31) with 2147483648 in *.

Ltac wrap_lia := unwrap; Z.div_mod_to_equations; lia.

Arguments calculate_ramp_progress : simpl never.
Arguments ev3_tacho_motor_set_power : simpl never.
Arguments ev3_tacho_motor_update_output : simpl never.
Arguments update_motor_speed_or_power : simpl never.
Arguments adjust_ramp_for_position : simpl never.
Arguments regulate_speed : simpl never.
Arguments regulate_position : simpl never.
Arguments calculate_speed : simpl never.
Arguments tacho_motor_isr : simpl never.

(** Case analysis on the first integer comparison of the goal. *)
Ltac case_cmp :=
  match goal with
  | |- context [?a <? ?b] => destruct (Z.ltb_spec a b)
  | |- context [?a <=? ?b] => destruct (Z.leb_spec a b)
  | |- context [?a >? ?b] => destruct (Z.gtb_spec a b)
  | |- context [?a >=? ?b] => destruct (Z.geb_spec a b)
  | |- context [?a =? ?b] => destruct (Z.eqb_spec a b)
  end.

(** * Properties *)

(** ** Machine arithmetic *)

Lemma sint_id (z : Z) : C.is_int z -> C.sint z = z.
Proof. intros H. wrap_lia. Qed.

Lemma sint_is_int (z : Z) : C.is_int (C.sint z).
Proof. wrap_lia. Qed.

Lemma uint_id (z : Z) : C.is_uint z -> C.uint z = z.
Proof. intros H. wrap_lia. Qed.

Lemma uint_is_uint (z : Z) : C.is_uint (C.uint z).
Proof. wrap_lia. Qed.

Lemma uint_uint (z : Z) : C.uint (C.uint z) = C.uint z.
Proof. apply uint_id, uint_is_uint. Qed.

Lemma add_sub_cancel (a e : Z) : C.is_int a -> C.sub (C.add a e) e = a.
Proof. intros H. wrap_lia. Qed.

Lemma sub_add_add (x a b : Z) :
  C.add (C.sub (C.add x a) a) b = C.sint (x + b).
Proof. wrap_lia. Qed.

Lemma add_sub_add (x a b : Z) :
  C.add (C.add (C.sub x a) a) b = C.sint (x + b).
Proof. wrap_lia. Qed.

Lemma quot_is_int (a b : Z) :
  C.is_int a -> a <> C.min_int -> C.is_int (Z.quot a b).
Proof.
  intros Ha Hmin.
  destruct (Z.eq_dec b 0) as [-> | Hb].
  - rewrite Z.quot_0_r_ext by reflexivity. unwrap. lia.
  - pose proof (Z.quot_abs a b Hb) as Hq.
    assert (Z.abs (Z.quot a b) <= Z.abs a).
    { rewrite <- Hq.
      transitivity (Z.quot (Z.abs a) 1).
      - apply (Z.quot_le_compat_l (Z.abs a) 1 (Z.abs b)); lia.
      - rewrite Z.quot_1_r. lia. }
    unwrap. lia.
Qed.

Lemma abs_magnitude (p : Z) : C.is_int p -> p <> C.min_int -> C.abs p = Z.abs p.
Proof.
  intros Hp Hmin. unfold C.abs.
  destruct (Z.ltb_spec p 0); [| lia].
  unfold C.neg. rewrite sint_id; [lia |]. unwrap. lia.
Qed.

(** ** The ramp progress function *)

(** C1, counterexample: with elapsed = 30 000 000 and window = 40 000 000,
    both of them [int] values with window > elapsed+2 and window <> 0, the
    specification's formula gives 75, but the product elapsed*100 does not
    fit an [int], wraps around, and the function returns -32. *)
Lemma ramp_progress_wraps :
  calculate_ramp_progress 30000000 40000000 = -32
  /\ ramp_progress_spec 30000000 40000000 = 75
  /\ calculate_ramp_progress 30000000 40000000
     <> ramp_progress_spec 30000000 40000000.
Proof. vm_compute. repeat split; congruence. Qed.

(** C1, amended: for every elapsed value and window length such that
    elapsed*100 is representable as an [int], the ramp progress function
    agrees with the specification's formula: it returns 100 when
    window <= elapsed+2, returns 100 when window = 0, and otherwise returns
    elapsed*100/window truncated towards zero; at window = elapsed+2 it
    returns 100 and at window = elapsed+3 (when that is not 0) the
    quotient. *)
Theorem ramp_progress_in_range (elapsed window : Z) :
  C.is_int window -> C.is_int (elapsed * 100) ->
  calculate_ramp_progress elapsed window = ramp_progress_spec elapsed window
  /\ (window <= elapsed + 2 -> calculate_ramp_progress elapsed window = 100)
  /\ (window = 0 -> calculate_ramp_progress elapsed window = 100)
  /\ (elapsed + 2 < window -> window <> 0 ->
      calculate_ramp_progress elapsed window = Z.quot (elapsed * 100) window)
  /\ calculate_ramp_progress elapsed (elapsed + 2) = 100
  /\ (elapsed + 3 <> 0 ->
      calculate_ramp_progress elapsed (elapsed + 3)
      = Z.quot (elapsed * 100) (elapsed + 3)).
Proof.
  intros Hw He.
  assert (Hadd : C.add elapsed 2 = elapsed + 2) by (apply sint_id; unwrap; lia).
  assert (Hmul : C.mul elapsed 100 = elapsed * 100) by (apply sint_id; exact He).
  assert (Hquot : forall d, C.div (C.mul elapsed 100) d = Z.quot (elapsed * 100) d).
  { intros d. unfold C.div. rewrite Hmul. apply sint_id, quot_is_int; [exact He |].
    unwrap. lia. }
  assert (Hspec : forall d,
             calculate_ramp_progress elapsed d = ramp_progress_spec elapsed d).
  { intros d. unfold calculate_ramp_progress, ramp_progress_spec.
    rewrite Hadd, Hquot, (Z.eqb_sym 0 d). reflexivity. }
  split; [apply Hspec |].
  rewrite !Hspec. unfold ramp_progress_spec.
  repeat split.
  - intros H. destruct (Z.leb_spec window (elapsed + 2)); [reflexivity | lia].
  - intros ->. destruct (0 <=? elapsed + 2); reflexivity.
  - intros H1 H2. destruct (Z.leb_spec window (elapsed + 2)); [lia |].
    destruct (Z.eqb_spec window 0); [contradiction | reflexivity].
  - rewrite Z.leb_refl. reflexivity.
  - intros H. destruct (Z.leb_spec (elapsed + 3) (elapsed + 2)); [lia |].
    destruct (Z.eqb_spec (elapsed + 3) 0); [contradiction | reflexivity].
Qed.

Lemma ramp_progress_in_range_witness :
  C.is_int 250 /\ C.is_int (247 * 100)
  /\ calculate_ramp_progress 247 250 = ramp_progress_spec 247 250.
Proof.
  assert (H1 : C.is_int 250) by (unwrap; lia).
  assert (H2 : C.is_int (247 * 100)) by (unwrap; lia).
  split; [exact H1 |]. split; [exact H2 |].
  exact (proj1 (ramp_progress_in_range 247 250 H1 H2)).
Defined.

(** ** The output mapper *)

Lemma limit_power_clamp (request : Z) : limit_power request = clamp_power request.
Proof.
  unfold limit_power, clamp_power, MAX_POWER.
  repeat case_cmp; lia.
Qed.

(** C8: for every requested power, set-power is a no-op when the request
    equals the power last applied (the motor data is returned as it was and
    no call goes to the physical driver); otherwise the request, clamped
    into [-100, 100], is stored and only then is the output updated. *)
Theorem set_power_noop_or_clamped (request : Z) (tm : ev3_tacho_motor_data) :
  (power tm = request -> ev3_tacho_motor_set_power request tm = (tm, []))
  /\ (power tm <> request ->
      ev3_tacho_motor_set_power request tm
      = ev3_tacho_motor_update_output (with_power (clamp_power request) tm)
      /\ power (with_power (clamp_power request) tm) = clamp_power request
      /\ -100 <= clamp_power request <= 100).
Proof.
  unfold ev3_tacho_motor_set_power. split.
  - intros <-. rewrite Z.eqb_refl. reflexivity.
  - intros Hne. destruct (Z.eqb_spec (power tm) request); [contradiction |].
    rewrite limit_power_clamp.
    split; [reflexivity |]. split; [reflexivity |].
    unfold clamp_power. lia.
Qed.

Lemma set_power_noop_or_clamped_witness :
  ev3_tacho_motor_set_power 0 fresh_motor
  = (ev3_tacho_motor_probe TACHO_MOTOR_EV3_LARGE, [])
  /\ ev3_tacho_motor_set_power 150 fresh_motor
     = ev3_tacho_motor_update_output
         (with_power (clamp_power 150) fresh_motor).
Proof.
  split.
  - apply (proj1 (set_power_noop_or_clamped 0
                    fresh_motor)).
    reflexivity.
  - apply (proj2 (set_power_noop_or_clamped 150
                    fresh_motor)).
    simpl. lia.
Defined.

(** ** Position accessors *)

(** C9: for every value p of the setter's argument type, setting the
    position to p and reading it back returns exactly p; the setter stores
    p in the resting accumulator [tacho] and zeroes the live delta
    [irq_tacho], and the getter returns the [int] sum of the two on any
    motor data. *)
Theorem position_set_then_get (p : Z) (tm : ev3_tacho_motor_data) :
  C.is_int p ->
  ev3_tacho_motor_get_position (ev3_tacho_motor_set_position p tm) = p
  /\ tacho (ev3_tacho_motor_set_position p tm) = p
  /\ irq_tacho (ev3_tacho_motor_set_position p tm) = 0
  /\ (forall tm' : ev3_tacho_motor_data,
        ev3_tacho_motor_get_position tm' = C.add (tacho tm') (irq_tacho tm'))
  /\ (forall tm' : ev3_tacho_motor_data,
        C.is_int (tacho tm' + irq_tacho tm') ->
        ev3_tacho_motor_get_position tm' = tacho tm' + irq_tacho tm').
Proof.
  intros Hp. unfold ev3_tacho_motor_get_position, ev3_tacho_motor_set_position.
  cbn. repeat split.
  - unfold C.add. rewrite Z.add_0_r. apply sint_id, Hp.
  - intros tm' H. apply sint_id, H.
Qed.

Lemma position_set_then_get_witness :
  C.is_int 1000
  /\ ev3_tacho_motor_get_position
       (ev3_tacho_motor_set_position 1000
          fresh_motor) = 1000.
Proof.
  assert (H : C.is_int 1000) by (unwrap; lia).
  split; [exact H |].
  exact (proj1 (position_set_then_get 1000
                  fresh_motor H)).
Defined.

(** ** The edge handler *)

Lemma count_edge_irq_tacho (tm : ev3_tacho_motor_data) :
  irq_tacho (count_edge tm)
  = C.add (irq_tacho tm) (edge_increment (run_direction tm)).
Proof. unfold count_edge. destruct (run_direction tm); reflexivity. Qed.

Lemma uncount_edge_irq_tacho (tm : ev3_tacho_motor_data) :
  irq_tacho (uncount_edge tm)
  = C.sub (irq_tacho tm) (edge_increment (run_direction tm)).
Proof.
  unfold uncount_edge. destruct (run_direction tm); cbn;
    unfold C.add, C.sub; f_equal; lia.
Qed.

Lemma isr_commit_run_direction d n t tm :
  run_direction (isr_commit d n t tm) = d.
Proof. unfold isr_commit, count_edge. cbn. destruct d; reflexivity. Qed.

Lemma isr_commit_head d n t tm :
  tacho_samples_head (isr_commit d n t tm) = n.
Proof. unfold isr_commit, count_edge. cbn. destruct d; reflexivity. Qed.

Lemma isr_commit_samples d n t tm :
  tacho_samples (isr_commit d n t tm) = <[Z.to_nat n := t]> (tacho_samples tm).
Proof. unfold isr_commit, count_edge. cbn. destruct d; reflexivity. Qed.

Lemma isr_commit_irq_tacho d n t tm :
  irq_tacho (isr_commit d n t tm) = C.add (irq_tacho tm) (edge_increment d).
Proof. unfold isr_commit, count_edge. cbn. destruct d; reflexivity. Qed.

Lemma isr_commit_speed d n t tm : speed (isr_commit d n t tm) = speed tm.
Proof. unfold isr_commit, count_edge. cbn. destruct d; reflexivity. Qed.

Lemma bump_dir_chg_samples_frame (tm : ev3_tacho_motor_data) :
  irq_tacho (bump_dir_chg_samples tm) = irq_tacho tm
  /\ tacho_samples (bump_dir_chg_samples tm) = tacho_samples tm
  /\ speed (bump_dir_chg_samples tm) = speed tm.
Proof. unfold bump_dir_chg_samples. case_cmp; repeat split. Qed.

Lemma low_speed_test (tm : ev3_tacho_motor_data) :
  low_speed tm -> (35 <? speed tm) || (-35 >? speed tm) = false.
Proof. unfold low_speed. intros H. repeat case_cmp; try reflexivity; lia. Qed.

(** At low speed the direction handed on is the one resolved from the
    lines, whichever way the interval test goes. *)
Lemma isr_classify_direction int_state dir_state t tm :
  low_speed tm ->
  snd (fst (isr_classify int_state dir_state t tm))
  = resolve_direction int_state dir_state tm.
Proof.
  intros H. unfold isr_classify. rewrite (low_speed_test tm H).
  case_cmp; reflexivity.
Qed.

Lemma resolve_direction_table int_state dir_state tm :
  resolve_direction int_state dir_state tm
  = through_polarity (polarity_table (polarity_mode tm) (encoder_mode tm))
      (if Bool.eqb int_state dir_state then FORWARD else REVERSE).
Proof.
  unfold resolve_direction.
  destruct (polarity_mode tm), (encoder_mode tm), (Bool.eqb int_state dir_state);
    reflexivity.
Qed.

Lemma isr_unfold i d t tm :
  tacho_motor_isr i d t tm
  = isr_commit (snd (fst (isr_classify i (negb d) (C.uint t) tm)))
      (snd (isr_classify i (negb d) (C.uint t) tm)) (C.uint t)
      (fst (fst (isr_classify i (negb d) (C.uint t) tm))).
Proof.
  unfold tacho_motor_isr.
  destruct (isr_classify i (negb d) (C.uint t) tm) as [[tm' nd] ns].
  reflexivity.
Qed.

(** C6: for all 16 combinations of interrupt-line level, direction-line
    level, output polarity and encoder polarity, when the measured speed is
    at or below the high-speed threshold the direction the handler decodes
    is the comparison of the two lines passed through the polarity given by
    the 2x2 truth table (normal/normal -> normal, normal/inverted ->
    inverted, inverted/normal -> inverted, inverted/inverted -> normal). *)
Theorem decoded_direction_truth_table
    (tacho_int_gpio tacho_dir_gpio : bool) (hires_timer : Z)
    (tm : ev3_tacho_motor_data) :
  low_speed tm ->
  run_direction (tacho_motor_isr tacho_int_gpio tacho_dir_gpio hires_timer tm)
  = through_polarity
      (polarity_table (polarity_mode tm) (encoder_mode tm))
      (compare_lines tacho_int_gpio tacho_dir_gpio).
Proof.
  intros H. rewrite isr_unfold, isr_commit_run_direction.
  rewrite (isr_classify_direction _ _ _ _ H).
  apply resolve_direction_table.
Qed.

Lemma decoded_direction_truth_table_witness :
  low_speed (with_encoder_mode DC_MOTOR_POLARITY_INVERTED
               fresh_motor)
  /\ run_direction
       (tacho_motor_isr true false 1000000
          (with_encoder_mode DC_MOTOR_POLARITY_INVERTED
             fresh_motor))
     = REVERSE.
Proof.
  assert (H : low_speed (with_encoder_mode DC_MOTOR_POLARITY_INVERTED
                           fresh_motor))
    by (unfold low_speed; simpl; lia).
  split; [exact H |].
  exact (decoded_direction_truth_table true false 1000000 _ H).
Defined.

(** An edge at low speed, at least the minimum interval after the newest
    ring slot: a new slot is appended and the position moves one step in
    the decoded direction. *)
Lemma isr_accepted_edge i d t tm :
  low_speed tm ->
  400 * 33 <= C.usub (C.uint t) (sample_at tm (tacho_samples_head tm)) ->
  let tm' := tacho_motor_isr i d t tm in
  tacho_samples_head tm' = C.uint (tacho_samples_head tm + 1) mod TACHO_SAMPLES
  /\ tacho_samples tm'
     = <[Z.to_nat (tacho_samples_head tm') := C.uint t]> (tacho_samples tm)
  /\ irq_tacho tm' = C.add (irq_tacho tm) (edge_increment (run_direction tm'))
  /\ speed tm' = speed tm.
Proof.
  intros Hlow Hgap tm'. subst tm'.
  rewrite isr_unfold, isr_commit_head, isr_commit_samples,
    isr_commit_irq_tacho, isr_commit_speed, isr_commit_run_direction.
  unfold isr_classify. rewrite (low_speed_test tm Hlow).
  case_cmp; [lia |]. cbn [fst snd].
  destruct (command_eqb (run_direction tm)
              (resolve_direction i (negb d) tm)).
  - destruct (bump_dir_chg_samples_frame tm) as (-> & -> & ->).
    repeat split.
  - repeat split.
Qed.

(** An edge at low speed, less than the minimum interval after the newest
    ring slot: that slot is overwritten, the head stays, and the step the
    previous edge made is taken back before the new one is made. *)
Lemma isr_bounce_edge i d t tm :
  low_speed tm ->
  C.usub (C.uint t) (sample_at tm (tacho_samples_head tm)) < 400 * 33 ->
  let tm' := tacho_motor_isr i d t tm in
  tacho_samples_head tm' = tacho_samples_head tm
  /\ tacho_samples tm'
     = <[Z.to_nat (tacho_samples_head tm) := C.uint t]> (tacho_samples tm)
  /\ irq_tacho tm'
     = C.add (C.sub (irq_tacho tm) (edge_increment (run_direction tm)))
         (edge_increment (run_direction tm'))
  /\ speed tm' = speed tm.
Proof.
  intros Hlow Hgap tm'. subst tm'.
  rewrite isr_unfold, isr_commit_head, isr_commit_samples,
    isr_commit_irq_tacho, isr_commit_speed, isr_commit_run_direction.
  unfold isr_classify. rewrite (low_speed_test tm Hlow).
  case_cmp; [| lia]. cbn [fst snd].
  rewrite uncount_edge_irq_tacho.
  unfold uncount_edge, store_sample. cbn.
  destruct (command_eqb FORWARD (run_direction tm)); cbn;
    rewrite list_insert_insert_eq; repeat split.
Qed.

Lemma next_sample_in_ring (head : Z) :
  0 <= C.uint (head + 1) mod TACHO_SAMPLES < TACHO_SAMPLES.
Proof. apply Z.mod_pos_bound. reflexivity. Qed.

(** C4, counterexample: three edges 100 timer counts apart at measured
    speed 0.  The first is far from the previous slot and counts +1.  The
    second and the third are both inside the minimum interval; together
    they move the position from 1 to -1, a net change of -2. *)
Lemma bounce_pair_nets_two :
  speed edge_a = 0
  /\ C.usub 1000200 1000100 = 100
  /\ irq_tacho edge_a = 1
  /\ irq_tacho edge_c = -1
  /\ tacho_samples_head edge_c = tacho_samples_head edge_b.
Proof. vm_compute. repeat split. Qed.

(** C4, amended: at measured speed at or below the high-speed threshold,
    for every pair of consecutive encoder edges of which the first was
    itself accepted (it came at least the minimum plausible interval after
    the edge before it) and the second follows it by less than that
    interval, the second edge overwrites the most recent ring slot instead
    of appending a new one and reverses the position increment the first
    edge applied, so the two handlers together change the live delta by
    exactly one step, +1 or -1, in the direction the second edge decodes. *)
Theorem bounce_pair_nets_one
    (int1 dir1 int2 dir2 : bool) (t1 t2 : Z) (tm : ev3_tacho_motor_data) :
  ring_ok tm ->
  low_speed tm ->
  400 * 33 <= C.usub (C.uint t1) (sample_at tm (tacho_samples_head tm)) ->
  C.usub (C.uint t2) (C.uint t1) < 400 * 33 ->
  let tm1 := tacho_motor_isr int1 dir1 t1 tm in
  let tm2 := tacho_motor_isr int2 dir2 t2 tm1 in
  tacho_samples_head tm2 = tacho_samples_head tm1
  /\ tacho_samples tm2
     = <[Z.to_nat (tacho_samples_head tm1) := C.uint t2]> (tacho_samples tm1)
  /\ length (tacho_samples tm2) = length (tacho_samples tm1)
  /\ irq_tacho tm2
     = C.add (C.sub (irq_tacho tm1) (edge_increment (run_direction tm1)))
         (edge_increment (run_direction tm2))
  /\ irq_tacho tm2 = C.sint (irq_tacho tm + edge_increment (run_direction tm2))
  /\ (edge_increment (run_direction tm2) = 1
      \/ edge_increment (run_direction tm2) = -1).
Proof.
  intros [Hlen Hhead] Hlow Hgap1 Hgap2 tm1 tm2.
  destruct (isr_accepted_edge int1 dir1 t1 tm Hlow Hgap1)
    as (Hh1 & Hs1 & Hi1 & Hv1).
  fold tm1 in Hh1, Hs1, Hi1, Hv1.
  assert (Hlow1 : low_speed tm1) by (unfold low_speed; rewrite Hv1; exact Hlow).
  assert (Hprev : sample_at tm1 (tacho_samples_head tm1) = C.uint t1).
  { unfold sample_at. rewrite Hs1. apply list_lookup_total_insert_eq.
    rewrite Hlen, Hh1. pose proof (next_sample_in_ring (tacho_samples_head tm)).
    lia. }
  assert (Hgap2' : C.usub (C.uint t2) (sample_at tm1 (tacho_samples_head tm1))
                   < 400 * 33) by (rewrite Hprev; exact Hgap2).
  destruct (isr_bounce_edge int2 dir2 t2 tm1 Hlow1 Hgap2')
    as (Hh2 & Hs2 & Hi2 & _).
  fold tm2 in Hh2, Hs2, Hi2.
  split; [exact Hh2 |]. split; [exact Hs2 |].
  split; [rewrite Hs2; apply length_insert |].
  split; [exact Hi2 |].
  split.
  - rewrite Hi2, Hi1. apply sub_add_add.
  - destruct (run_direction tm2); cbn; auto.
Qed.

Lemma bounce_pair_nets_one_witness :
  tacho_samples_head (tacho_motor_isr true true 1000100 edge_a)
  = tacho_samples_head edge_a
  /\ irq_tacho (tacho_motor_isr true true 1000100 edge_a)
     = C.sint (irq_tacho fresh_motor
               + edge_increment
                   (run_direction (tacho_motor_isr true true 1000100 edge_a))).
Proof.
  assert (Hring : ring_ok fresh_motor)
    by (split; [reflexivity | simpl; unfold TACHO_SAMPLES; lia]).
  assert (Hlow : low_speed fresh_motor) by (unfold low_speed; simpl; lia).
  assert (H1 : 400 * 33 <= C.usub (C.uint 1000000)
                              (sample_at fresh_motor
                                 (tacho_samples_head fresh_motor)))
    by (vm_compute; discriminate).
  assert (H2 : C.usub (C.uint 1000100) (C.uint 1000000) < 400 * 33)
    by (vm_compute; reflexivity).
  destruct (bounce_pair_nets_one true false true true 1000000 1000100
              fresh_motor Hring Hlow H1 H2) as (Ha & _ & _ & _ & Hb & _).
  split; [exact Ha | exact Hb].
Defined.

(** ** Emergency stop *)

Lemma draw_estop_key_eq (random_words : list Z) (key : Z) :
  draw_estop_key random_words key
  = if 0 =? key then
      match random_words with
      | [] => None
      | w :: rest => draw_estop_key rest (C.sint w)
      end
    else Some key.
Proof. destruct random_words; reflexivity. Qed.

Lemma draw_estop_key_armed (random_words : list Z) (key : Z) :
  key <> 0 -> draw_estop_key random_words key = Some key.
Proof.
  intros H. rewrite draw_estop_key_eq.
  destruct (Z.eqb_spec 0 key); [congruence | reflexivity].
Qed.

Lemma draw_estop_key_nonzero (random_words : list Z) :
  Exists (fun w => C.sint w <> 0) random_words ->
  exists key, draw_estop_key random_words 0 = Some key /\ key <> 0.
Proof.
  induction 1 as [w l Hw | w l _ IH];
    rewrite draw_estop_key_eq; cbn [Z.eqb].
  - exists (C.sint w). split; [apply draw_estop_key_armed, Hw | exact Hw].
  - destruct (Z.eq_dec (C.sint w) 0) as [-> | Hne].
    + exact IH.
    + exists (C.sint w). split; [apply draw_estop_key_armed, Hne | exact Hne].
Qed.

(** C3: the emergency-stop write is a two-phase commit.  For every write
    while the token is 0, provided the random generator hands out a
    non-zero word at some point, the write returns with a non-zero token
    and the state forced to Stop (and touches nothing but the token, the
    state and the stop mode); for every write of exactly the current token
    while armed the token becomes 0; and for every write of any other value
    while armed the whole motor data is left unchanged. *)
Theorem estop_two_phase_commit
    (random_words : list Z) (written : Z) (tm : ev3_tacho_motor_data) :
  (estop tm = 0 ->
   Exists (fun w => C.sint w <> 0) random_words ->
   exists key,
     key <> 0
     /\ ev3_tacho_motor_set_estop random_words written tm
        = Some (with_estop key
                  (with_state TM_STATE_STOP (with_stop_mode TM_STOP_COAST tm)))
     /\ forall tm', ev3_tacho_motor_set_estop random_words written tm = Some tm' ->
                    estop tm' <> 0 /\ state tm' = TM_STATE_STOP)
  /\ (estop tm <> 0 -> written = estop tm ->
      exists tm', ev3_tacho_motor_set_estop random_words written tm = Some tm'
                  /\ estop tm' = 0 /\ tm' = with_estop 0 tm)
  /\ (estop tm <> 0 -> written <> estop tm ->
      ev3_tacho_motor_set_estop random_words written tm = Some tm).
Proof.
  unfold ev3_tacho_motor_set_estop. repeat split.
  - intros H0 Hex. rewrite H0. cbn.
    destruct (draw_estop_key_nonzero random_words Hex) as (key & Hk & Hne).
    rewrite H0, Hk. exists key. split; [exact Hne |]. split; [reflexivity |].
    intros tm' [= <-]. cbn. split; [exact Hne | reflexivity].
  - intros Hne ->. destruct (Z.eqb_spec 0 (estop tm)); [congruence |].
    rewrite Z.eqb_refl. eexists. repeat split.
  - intros Hne Hw. destruct (Z.eqb_spec 0 (estop tm)); [congruence |].
    destruct (Z.eqb_spec written (estop tm)); [contradiction | reflexivity].
Qed.

Lemma estop_two_phase_commit_witness :
  (exists key, key <> 0
     /\ ev3_tacho_motor_set_estop [0; 77] 5 fresh_motor
        = Some (with_estop key
                  (with_state TM_STATE_STOP
                     (with_stop_mode TM_STOP_COAST fresh_motor))))
  /\ ev3_tacho_motor_set_estop [] 77 (with_estop 77 fresh_motor)
     = Some (with_estop 0 (with_estop 77 fresh_motor))
  /\ ev3_tacho_motor_set_estop [] 5 (with_estop 77 fresh_motor)
     = Some (with_estop 77 fresh_motor).
Proof.
  split; [| split].
  - destruct (proj1 (estop_two_phase_commit [0; 77] 5 fresh_motor))
      as (key & Hne & Heq & _).
    + reflexivity.
    + apply Exists_cons_tl, Exists_cons_hd. vm_compute. discriminate.
    + exists key. split; [exact Hne | exact Heq].
  - destruct (proj1 (proj2 (estop_two_phase_commit [] 77
                              (with_estop 77 fresh_motor))))
      as (tm' & Heq & _ & ->).
    + simpl. lia.
    + reflexivity.
    + exact Heq.
  - apply (proj2 (proj2 (estop_two_phase_commit [] 5
                           (with_estop 77 fresh_motor)))).
    + simpl. lia.
    + simpl. lia.
Defined.

(** ** The speed regulator *)

Lemma with_power_same (tm : ev3_tacho_motor_data) : with_power (power tm) tm = tm.
Proof. destruct tm; reflexivity. Qed.

(** The output routines write no member but [power]. *)
Lemma update_output_touches_power (tm : ev3_tacho_motor_data) :
  exists q, fst (ev3_tacho_motor_update_output tm) = with_power q tm
            /\ (-100 <= power tm <= 100 -> -100 <= q <= 100).
Proof.
  unfold ev3_tacho_motor_update_output.
  repeat case_cmp; destruct (regulation_mode tm); repeat case_cmp; cbn;
    first [ exists (power tm); split; [symmetry; apply with_power_same | lia]
          | exists 10; split; [reflexivity | lia]
          | exists (-10); split; [reflexivity | lia] ].
Qed.

Lemma limit_power_range (request : Z) : -100 <= limit_power request <= 100.
Proof. rewrite limit_power_clamp. unfold clamp_power. lia. Qed.

Lemma set_power_touches_power (request : Z) (tm : ev3_tacho_motor_data) :
  exists q, fst (ev3_tacho_motor_set_power request tm) = with_power q tm
            /\ (-100 <= power tm <= 100 -> -100 <= q <= 100).
Proof.
  unfold ev3_tacho_motor_set_power. case_cmp.
  - exists (power tm). split; [symmetry; apply with_power_same | trivial].
  - destruct (update_output_touches_power (with_power (limit_power request) tm))
      as (q & Hq & Hr).
    exists q. split.
    + rewrite Hq. reflexivity.
    + intros _. apply Hr. cbn. apply limit_power_range.
Qed.

Lemma regulate_speed_terms_pid_I (tm : ev3_tacho_motor_data) :
  pid_I (pid (fst (fst (regulate_speed_terms tm))))
  = C.add (pid_I (pid tm)) (speed_error_of tm).
Proof.
  unfold speed_error_of, regulate_speed_terms, limit_speed_reg_sp.
  repeat case_cmp; reflexivity.
Qed.

Lemma regulate_speed_terms_power (tm : ev3_tacho_motor_data) :
  power (fst (fst (regulate_speed_terms tm))) = power tm.
Proof.
  unfold regulate_speed_terms, limit_speed_reg_sp.
  repeat case_cmp; reflexivity.
Qed.

Lemma regulate_speed_eq (tm : ev3_tacho_motor_data) :
  regulate_speed tm
  = let tm1 := fst (fst (regulate_speed_terms tm)) in
    let tm2 :=
      if 100 <? C.abs (computed_power_of tm)
      then set_pid_I (C.sub (pid_I (pid tm1)) (speed_error_of tm)) tm1
      else tm1 in
    if 0 =? speed_reg_sp tm2
    then ev3_tacho_motor_set_power 0 tm2
    else ev3_tacho_motor_set_power (computed_power_of tm) tm2.
Proof.
  unfold regulate_speed, computed_power_of, speed_error_of.
  destruct (regulate_speed_terms tm) as [[tm1 e] p]. reflexivity.
Qed.

Lemma regulate_speed_pid_I (tm : ev3_tacho_motor_data) :
  pid_I (pid (fst (regulate_speed tm)))
  = if 100 <? C.abs (computed_power_of tm)
    then C.sub (C.add (pid_I (pid tm)) (speed_error_of tm)) (speed_error_of tm)
    else C.add (pid_I (pid tm)) (speed_error_of tm).
Proof.
  rewrite regulate_speed_eq. cbn zeta.
  rewrite <- regulate_speed_terms_pid_I.
  set (tm1 := fst (fst (regulate_speed_terms tm))).
  destruct (100 <? C.abs (computed_power_of tm));
    match goal with
    | |- context [if ?c then ev3_tacho_motor_set_power ?a ?t
                  else ev3_tacho_motor_set_power ?b ?t] =>
        destruct c;
        [destruct (set_power_touches_power a t) as (q & -> & _)
        |destruct (set_power_touches_power b t) as (q & -> & _)]
    end; reflexivity.
Qed.

Lemma regulate_speed_power_range (tm : ev3_tacho_motor_data) :
  -100 <= power tm <= 100 -> -100 <= power (fst (regulate_speed tm)) <= 100.
Proof.
  intros H. rewrite regulate_speed_eq. cbn zeta.
  pose proof (regulate_speed_terms_power tm) as Hp.
  set (tm1 := fst (fst (regulate_speed_terms tm))) in *.
  match goal with
  | |- context [if ?c then ev3_tacho_motor_set_power ?a ?t
                else ev3_tacho_motor_set_power ?b ?t] =>
      assert (Ht : power t = power tm)
        by (destruct (100 <? C.abs (computed_power_of tm)); exact Hp);
      destruct c;
      [destruct (set_power_touches_power a t) as (q & -> & Hq)
      |destruct (set_power_touches_power b t) as (q & -> & Hq)]
  end; cbn; apply Hq; rewrite Ht; exact H.
Qed.

Lemma computed_power_is_int (tm : ev3_tacho_motor_data) :
  C.is_int (computed_power_of tm).
Proof.
  unfold computed_power_of, regulate_speed_terms. cbn [snd].
  unfold pid_power, C.div. apply sint_is_int.
Qed.

Lemma regulator_input_pid (sp v : Z) (tm : ev3_tacho_motor_data) :
  pid (regulator_input sp v tm) = pid tm.
Proof. reflexivity. Qed.

Lemma saturated_throughout_cons sp v speeds tm :
  saturated_throughout sp tm (v :: speeds)
  = (100 <? C.abs (computed_power_of (regulator_input sp v tm)))
    && saturated_throughout sp (regulator_tick sp v tm) speeds.
Proof. reflexivity. Qed.

Lemma drive_speed_regulator_cons sp v speeds tm :
  drive_speed_regulator sp tm (v :: speeds)
  = drive_speed_regulator sp (regulator_tick sp v tm) speeds.
Proof. reflexivity. Qed.

Lemma drive_saturated_keeps_integral (sp : Z) (speeds : list Z) :
  forall tm : ev3_tacho_motor_data,
    C.is_int (pid_I (pid tm)) ->
    saturated_throughout sp tm speeds = true ->
    pid_I (pid (drive_speed_regulator sp tm speeds)) = pid_I (pid tm).
Proof.
  induction speeds as [| v speeds IH]; intros tm Hint Hsat; [reflexivity |].
  rewrite saturated_throughout_cons in Hsat.
  apply andb_prop in Hsat as [Hnow Hrest].
  assert (Hkeep : pid_I (pid (regulator_tick sp v tm)) = pid_I (pid tm)).
  { unfold regulator_tick. rewrite regulate_speed_pid_I, Hnow.
    rewrite regulator_input_pid. apply add_sub_cancel. exact Hint. }
  rewrite drive_speed_regulator_cons.
  rewrite IH; [exact Hkeep | rewrite Hkeep; exact Hint | exact Hrest].
Qed.

(** C5, counterexample: a large motor at the default gains, driven with
    the setpoint 5000 (the model's maximum rate is 900), runs at 899 for
    10000 ticks and is then held still for 100 ticks.  On every one of
    those 100 ticks the computed power is 172: beyond 100 for a hundred
    ticks in a row, and by far more than the 6 that one tick's error of
    900 contributes through the integral gain.  The integral term stays at
    10000 and the power applied stays at 100. *)
Lemma computed_power_stays_saturated :
  drop (Z.to_nat 10000) (computed_powers 5000 regulated_motor loaded_run)
  = replicate (Z.to_nat 100) 172
  /\ C.div (C.mul 900 60) 9000 = 6
  /\ pid_I (pid (drive_speed_regulator 5000 regulated_motor loaded_run)) = 10000
  /\ power (drive_speed_regulator 5000 regulated_motor loaded_run) = 100.
Proof. vm_compute. repeat split. Qed.

(** C5, amended: in the speed regulator the error is added to the integral
    term on every tick, and whenever the magnitude of the computed power
    (P*Kp + I*Ki + D*Kd)/Kf exceeds 100 the just-added error is subtracted
    back out, so the integral term leaves such a tick with the value it
    entered with, and leaves any other tick with the error added.
    Consequently, driving the regulator for any number of ticks on which
    the computed power is beyond +-100 leaves the integral term where it
    was when the drive began, and the power handed to the motor stays
    within [-100, 100]; the computed power itself may stay beyond +-100
    for as long as the error lasts. *)
Theorem anti_windup (tm : ev3_tacho_motor_data) :
  C.is_int (pid_I (pid tm)) ->
  pid_I (pid (fst (fst (regulate_speed_terms tm))))
  = C.add (pid_I (pid tm)) (speed_error_of tm)
  /\ (100 < Z.abs (computed_power_of tm) ->
      computed_power_of tm <> C.min_int ->
      pid_I (pid (fst (regulate_speed tm))) = pid_I (pid tm))
  /\ (Z.abs (computed_power_of tm) <= 100 ->
      pid_I (pid (fst (regulate_speed tm)))
      = C.add (pid_I (pid tm)) (speed_error_of tm))
  /\ (forall (sp : Z) (speeds : list Z),
        saturated_throughout sp tm speeds = true ->
        pid_I (pid (drive_speed_regulator sp tm speeds)) = pid_I (pid tm))
  /\ (-100 <= power tm <= 100 ->
      -100 <= power (fst (regulate_speed tm)) <= 100).
Proof.
  intros Hint.
  split; [apply regulate_speed_terms_pid_I |].
  split; [| split; [| split]].
  - intros Hmag Hmin. rewrite regulate_speed_pid_I.
    rewrite (abs_magnitude _ (computed_power_is_int tm) Hmin).
    destruct (Z.ltb_spec 100 (Z.abs (computed_power_of tm))); [| lia].
    apply add_sub_cancel, Hint.
  - intros Hmag. rewrite regulate_speed_pid_I.
    assert (Hmin : computed_power_of tm <> C.min_int) by (unwrap; lia).
    rewrite (abs_magnitude _ (computed_power_is_int tm) Hmin).
    destruct (Z.ltb_spec 100 (Z.abs (computed_power_of tm))); [lia | reflexivity].
  - intros sp speeds. apply drive_saturated_keeps_integral, Hint.
  - apply regulate_speed_power_range.
Qed.

Lemma anti_windup_witness :
  C.is_int (pid_I (pid (regulator_input 5000 0 regulated_motor)))
  /\ pid_I (pid (fst (regulate_speed (regulator_input 5000 0 regulated_motor))))
     = pid_I (pid (regulator_input 5000 0 regulated_motor))
  /\ -100 <= power (fst (regulate_speed (regulator_input 5000 0 regulated_motor)))
     <= 100.
Proof.
  assert (H : C.is_int (pid_I (pid (regulator_input 5000 0 regulated_motor))))
    by (vm_compute; split; discriminate).
  destruct (anti_windup (regulator_input 5000 0 regulated_motor) H)
    as (_ & Hsat & _ & _ & Hpow).
  split; [exact H |]. split.
  - apply Hsat; vm_compute; [reflexivity | discriminate].
  - apply Hpow. vm_compute. split; discriminate.
Defined.

(** ** Which members each routine writes *)

Lemma with_speed_reg_sp_same (tm : ev3_tacho_motor_data) :
  with_speed_reg_sp (speed_reg_sp tm) tm = tm.
Proof. destruct tm; reflexivity. Qed.

Lemma update_motor_touches (pct : Z) (tm : ev3_tacho_motor_data) :
  exists q z,
    fst (update_motor_speed_or_power pct tm)
    = with_speed_reg_sp z (with_power q tm).
Proof.
  unfold update_motor_speed_or_power.
  destruct (regulation_mode tm), (run_mode tm);
    try match goal with
      | |- context [ev3_tacho_motor_set_power ?a ?t] =>
          destruct (set_power_touches_power a t) as (q & -> & _);
          exists q, (speed_reg_sp tm);
          symmetry; apply (with_speed_reg_sp_same (with_power q tm))
      end;
    eexists (power tm), _; rewrite with_power_same; reflexivity.
Qed.

(** The position adjustment writes at most [ramp.up.end],
    [ramp.down.end] and [ramp.down.start]. *)
Lemma adjust_ramp_touches (tm : ev3_tacho_motor_data) :
  exists ue de ds,
    adjust_ramp_for_position tm
    = set_ramp_down_start ds (set_ramp_down_end de (set_ramp_up_end ue tm)).
Proof.
  assert (Hsame :
    tm = set_ramp_down_start (ramp_down_start tm)
           (set_ramp_down_end (ramp_down_end tm)
              (set_ramp_up_end (ramp_up_end tm) tm))).
  { destruct tm as [? ? ? ? ? ? ? ? ? [[? ? ?] [? ? ?] ? ? ? ?]]; reflexivity. }
  unfold adjust_ramp_for_position.
  repeat case_cmp;
    first [ eexists _, _, _; reflexivity
          | eexists _, _, _; exact Hsame ].
Qed.

(** The estimator writes only its own four members. *)
Lemma calculate_speed_touches (now : Z) (tm : ev3_tacho_motor_data) :
  exists a b c d,
    snd (calculate_speed now tm)
    = with_got_new_sample c
        (with_pulses_per_second b
           (with_dir_chg_samples d (with_samples_per_speed a tm))).
Proof.
  assert (Hsame : forall t : ev3_tacho_motor_data,
    t = with_got_new_sample (got_new_sample t)
          (with_pulses_per_second (pulses_per_second t)
             (with_dir_chg_samples (dir_chg_samples t)
                (with_samples_per_speed (samples_per_speed t) t)))).
  { intros t. destruct t; reflexivity. }
  unfold calculate_speed.
  set (tm1 := if dir_chg_samples tm >=? 1 then _ else tm).
  assert (H1 : exists a, tm1 = with_samples_per_speed a tm).
  { subst tm1. case_cmp.
    - unfold set_samples_per_speed. repeat case_cmp; eexists; reflexivity.
    - exists (samples_per_speed tm). destruct tm; reflexivity. }
  destruct H1 as (a & ->).
  destruct (got_new_sample (with_samples_per_speed a tm)
            && (dir_chg_samples (with_samples_per_speed a tm)
                >=? samples_per_speed (with_samples_per_speed a tm))).
  - cbn [snd].
    destruct (command_eqb _ REVERSE);
      eexists a, _, false, (dir_chg_samples tm); destruct tm; reflexivity.
  - case_cmp; cbn [snd].
    + eexists a, 0, (got_new_sample tm), 0. destruct tm; reflexivity.
    + eexists a, (pulses_per_second tm), (got_new_sample tm), (dir_chg_samples tm).
      destruct tm; reflexivity.
Qed.

(** ** One pass of the state machine *)

(** Replace the result of an output routine by what it is known to write. *)
Ltac open_update :=
  match goal with
  | |- context [update_motor_speed_or_power ?p ?t] =>
      let q := fresh "q" in
      let z := fresh "z" in
      let H := fresh "H" in
      destruct (update_motor_touches p t) as (q & z & H);
      destruct (update_motor_speed_or_power p t) as [? ?];
      cbn [fst] in H; subst
  | |- context [ev3_tacho_motor_set_power ?p ?t] =>
      let q := fresh "q" in
      let H := fresh "H" in
      destruct (set_power_touches_power p t) as (q & H & _);
      destruct (ev3_tacho_motor_set_power p t) as [? ?];
      cbn [fst] in H; subst
  end.

Lemma keeps_refl tm : keeps tm tm.
Proof. repeat split. Qed.

Lemma keeps_adjust tm t :
  keeps tm t -> keeps tm (adjust_ramp_for_position t).
Proof.
  intros (H1 & H2 & H3).
  destruct (adjust_ramp_touches t) as (ue & de & ds & ->).
  repeat split; assumption.
Qed.

(** Case analysis on the selectors and tests that decide which
    assignment is made, then projection through the assignment. *)
Ltac solve_keeps :=
  repeat match goal with
    | |- keeps _ (match ?m with _ => _ end) => destruct m
    | |- keeps _ (if ?c then _ else _) => destruct c
    end;
  first [ assumption
        | apply keeps_adjust; assumption
        | unfold keeps in *; cbn; intuition congruence ].

(** Give the outermost local of the result a name, keeping of it only
    that it has the state, run flag and counter of [tm]. *)
Ltac name_let tm :=
  lazymatch goal with
  | |- step_shape _ (let x := ?a in @?f x) =>
      let t := fresh "t" in
      let Ht := fresh "Ht" in
      assert (Ht : keeps tm a);
      [ solve_keeps
      | pose (t := a); change (step_shape tm (f t)); cbv beta;
        change (keeps tm t) in Ht; clearbody t ]
  end.

(** Close a goal about the shape of a pass once its locals are named. *)
Ltac finish_shape Hs :=
  cbv beta iota zeta; try open_update;
  unfold step_shape, keeps in *; cbn; rewrite ?Hs; cbn;
  repeat split; intros; try discriminate; try lia; try (intuition congruence).

Lemma state_setup_ramp_time_shape tm :
  state tm = TM_STATE_RUN_FOREVER \/ state tm = TM_STATE_SETUP_RAMP_TIME ->
  step_shape tm (state_setup_ramp_time tm).
Proof.
  intros Hs. cbv beta delta [state_setup_ramp_time].
  pose proof (keeps_refl tm). repeat name_let tm.
  destruct Hs as [Hs | Hs]; finish_shape Hs.
Qed.

Lemma state_setup_ramp_position_shape tm :
  state tm = TM_STATE_SETUP_RAMP_POSITION ->
  step_shape tm (state_setup_ramp_position tm).
Proof.
  intros Hs. cbv beta delta [state_setup_ramp_position].
  pose proof (keeps_refl tm). repeat name_let tm.
  finish_shape Hs.
Qed.

Lemma state_setup_ramp_regulation_shape tm :
  state tm = TM_STATE_SETUP_RAMP_REGULATION ->
  step_shape tm (state_setup_ramp_regulation tm).
Proof.
  intros Hs. cbv beta delta [state_setup_ramp_regulation].
  finish_shape Hs.
Qed.

Lemma state_ramp_up_shape tm :
  state tm = TM_STATE_RAMP_UP -> step_shape tm (state_ramp_up tm).
Proof.
  intros Hs. cbv beta delta [state_ramp_up].
  pose proof (keeps_refl tm). name_let tm.
  case_cmp; finish_shape Hs.
Qed.

Lemma state_ramp_const_shape tm :
  state tm = TM_STATE_RAMP_CONST -> step_shape tm (state_ramp_const tm).
Proof.
  intros Hs. cbv beta delta [state_ramp_const].
  destruct (run_mode tm).
  - finish_shape Hs.
  - case_cmp; finish_shape Hs.
  - cbv zeta. destruct (adjust_ramp_touches tm) as (ue & de & ds & ->).
    case_cmp; finish_shape Hs.
Qed.

Lemma state_ramp_down_keeps tm t :
  keeps tm t ->
  state tm = TM_STATE_RAMP_DOWN \/ state tm = TM_STATE_POSITION_RAMP_DOWN ->
  step_shape tm (state_ramp_down t).
Proof.
  intros Ht Hs. cbv beta delta [state_ramp_down].
  case_cmp; destruct Hs as [Hs | Hs]; finish_shape Hs.
Qed.

Lemma state_position_ramp_down_shape tm :
  state tm = TM_STATE_POSITION_RAMP_DOWN ->
  step_shape tm (state_position_ramp_down tm).
Proof.
  intros Hs. cbv beta delta [state_position_ramp_down].
  pose proof (keeps_refl tm). repeat name_let tm.
  apply state_ramp_down_keeps; [assumption | right; exact Hs].
Qed.

Lemma state_stop_shape tm :
  state tm = TM_STATE_STOP -> step_shape tm (state_stop tm).
Proof.
  intros Hs. cbv beta delta [state_stop].
  pose proof (keeps_refl tm). repeat name_let tm.
  finish_shape Hs.
Qed.

Lemma state_idle_shape tm :
  state tm = TM_STATE_IDLE -> step_shape tm (state_idle tm).
Proof. intros Hs. cbv beta delta [state_idle]. finish_shape Hs. Qed.

Lemma process_state_shape tm : step_shape tm (process_state tm).
Proof.
  unfold process_state. destruct (state tm) eqn:Hs.
  - apply state_setup_ramp_time_shape; left; exact Hs.
  - apply state_setup_ramp_time_shape; right; exact Hs.
  - apply state_setup_ramp_position_shape, Hs.
  - apply state_setup_ramp_regulation_shape, Hs.
  - apply state_ramp_up_shape, Hs.
  - apply state_ramp_const_shape, Hs.
  - apply state_position_ramp_down_shape, Hs.
  - apply state_ramp_down_keeps; [apply keeps_refl | left; exact Hs].
  - apply state_stop_shape, Hs.
  - apply state_idle_shape, Hs.
Qed.

(** ** The reprocessing loop *)

Lemma reprocess_loop_eq (fuel : nat) (tm : ev3_tacho_motor_data) :
  reprocess_loop (S fuel) tm
  = if snd (process_state tm) then
      match reprocess_loop fuel (fst (fst (process_state tm))) with
      | Some (tm', calls') =>
          Some (tm', snd (fst (process_state tm)) ++ calls')
      | None => None
      end
    else Some (fst (process_state tm)).
Proof.
  cbn [reprocess_loop]. destruct (process_state tm) as [[tm1 calls1] rep].
  reflexivity.
Qed.

Lemma rank_setting_up (s : tm_state) :
  setting_up s = true <-> (5 <= rank s)%nat.
Proof. destruct s; cbn; split; intros; try lia; try discriminate; reflexivity. Qed.

(** The loop always settles within the fuel it is given when that exceeds
    the rank of the state it starts in; what it leaves of the counter and
    of the run flag depends only on where it started and where it ended. *)
Lemma reprocess_loop_shape (fuel : nat) :
  forall tm : ev3_tacho_motor_data,
    (rank (state tm) < fuel)%nat ->
    exists tm' calls,
      reprocess_loop fuel tm = Some (tm', calls)
      /\ ramp_count tm' = (if setting_up (state tm) then 0 else ramp_count tm)
      /\ (state tm' = TM_STATE_IDLE -> run tm' = 0)
      /\ (state tm' <> TM_STATE_IDLE -> run tm' = run tm)
      /\ (rank (state tm') <= rank (state tm))%nat.
Proof.
  induction fuel as [| fuel IH]; intros tm Hfuel; [lia |].
  rewrite reprocess_loop_eq.
  destruct (process_state_shape tm) as (Hdown & Hstay & Hcount & Hrun & Hsetup).
  destruct (process_state tm) as [[tm1 calls1] rep]. cbn [fst snd] in *.
  destruct rep.
  - specialize (Hdown eq_refl).
    destruct (IH tm1 ltac:(lia)) as (tm' & calls & -> & Hc & Hi & Hn & Hr).
    exists tm', (calls1 ++ calls). split; [reflexivity |].
    assert (Hnotidle : is_idle (state tm) = false)
      by (destruct (state tm); cbn in *; try reflexivity; lia).
    rewrite Hnotidle in Hrun.
    split; [| split; [exact Hi | split; [rewrite <- Hrun; exact Hn | lia]]].
    rewrite Hc. destruct (setting_up (state tm)) eqn:Hsu.
    + destruct (Hsetup eq_refl) as (_ & Hnext).
      destruct (state tm) eqn:Hs; try discriminate Hsu;
        try (rewrite Hnext by discriminate; reflexivity).
      destruct (setting_up (state tm1)); [reflexivity | exact Hcount].
    + assert (Hsu1 : setting_up (state tm1) = false).
      { destruct (setting_up (state tm1)) eqn:E; [| reflexivity].
        apply rank_setting_up in E.
        assert (~ (5 <= rank (state tm))%nat)
          by (rewrite <- rank_setting_up, Hsu; discriminate).
        lia. }
      rewrite Hsu1, Hcount. destruct (state tm); try reflexivity; discriminate Hsu.
  - specialize (Hstay eq_refl).
    exists tm1, calls1. split; [reflexivity |].
    assert (Hsu : setting_up (state tm) = false).
    { destruct (setting_up (state tm)); [| reflexivity].
      destruct (Hsetup eq_refl) as (Habs & _). discriminate Habs. }
    rewrite Hsu, Hstay.
    split; [| split; [| split; [| lia]]].
    + rewrite Hcount. destruct (state tm); try reflexivity; discriminate Hsu.
    + intros Hidle. rewrite Hrun, Hidle. reflexivity.
    + intros Hidle. rewrite Hrun.
      destruct (state tm); try reflexivity; contradiction.
Qed.

(** ** A whole tick *)

Lemma keeps_calculate_speed now tm : keeps tm (snd (calculate_speed now tm)).
Proof.
  destruct (calculate_speed_touches now tm) as (a & b & c & d & ->).
  repeat split.
Qed.

Lemma keeps_set_power p tm t :
  keeps tm t -> keeps tm (fst (ev3_tacho_motor_set_power p t)).
Proof.
  intros (H1 & H2 & H3).
  destruct (set_power_touches_power p t) as (q & -> & _).
  repeat split; assumption.
Qed.

Lemma keeps_if (c : bool) tm a b :
  keeps tm a -> keeps tm b -> keeps tm (if c then a else b).
Proof. destruct c; trivial. Qed.

Lemma fst_if {A B : Type} (c : bool) (x y : A * B) :
  fst (if c then x else y) = if c then fst x else fst y.
Proof. destruct c; reflexivity. Qed.

Lemma keeps_set_pid_I v tm t : keeps tm t -> keeps tm (set_pid_I v t).
Proof. intros (H1 & H2 & H3). split; [| split]; cbn; assumption. Qed.

Lemma keeps_regulate_speed tm : keeps tm (fst (regulate_speed tm)).
Proof.
  rewrite regulate_speed_eq. cbv zeta.
  assert (H : keeps tm (fst (fst (regulate_speed_terms tm)))).
  { unfold regulate_speed_terms, limit_speed_reg_sp.
    repeat case_cmp; repeat split. }
  rewrite fst_if.
  apply keeps_if; apply keeps_set_power; apply keeps_if;
    first [apply keeps_set_pid_I; exact H | exact H].
Qed.

Lemma keeps_regulate_position tm : keeps tm (fst (regulate_position tm)).
Proof.
  unfold regulate_position. cbv zeta.
  apply keeps_set_power.
  destruct (motor_type tm); repeat split.
Qed.

Lemma keeps_no_run tm : keeps tm (fst (no_run tm)).
Proof.
  unfold no_run. case_cmp; [| apply keeps_refl].
  destruct (stop_mode tm);
    [apply keeps_refl | apply keeps_refl | apply keeps_regulate_position].
Qed.

Lemma keeps_trans tm t u : keeps tm t -> keeps t u -> keeps tm u.
Proof.
  unfold keeps. intros (H1 & H2 & H3) (H4 & H5 & H6).
  repeat split; congruence.
Qed.

(** The callback in terms of its four stages. *)
Lemma timer_callback_eq (now : Z) (tm : ev3_tacho_motor_data) :
  ev3_tacho_motor_timer_callback now tm
  = let tm0 := snd (calculate_speed now tm) in
    if 0 =? run tm0 then Some (no_run tm0)
    else
      match reprocess_loop reprocess_fuel (advance_ramp_count tm0) with
      | None => None
      | Some (tm1, calls) =>
          let r :=
            if negb (run tm1 =? 0) then
              match regulation_mode tm1 with
              | TM_REGULATION_ON => regulate_speed tm1
              | _ => (tm1, [])
              end
            else (tm1, []) in
          Some (fst (no_run (fst r)), calls ++ snd r ++ snd (no_run (fst r)))
      end.
Proof.
  unfold ev3_tacho_motor_timer_callback.
  destruct (calculate_speed now tm) as [b tm0]. cbn [snd].
  destruct (0 =? run tm0); [reflexivity |].
  destruct (reprocess_loop reprocess_fuel (advance_ramp_count tm0))
    as [[tm1 calls] |]; [| reflexivity].
  cbv zeta.
  destruct (if negb (run tm1 =? 0) then _ else _) as [tm2 calls2].
  cbn [fst snd]. destruct (no_run tm2). reflexivity.
Qed.

Lemma rank_bound (s : tm_state) : (rank s < reprocess_fuel)%nat.
Proof. destruct s; unfold reprocess_fuel; cbn; lia. Qed.

Lemma advance_ramp_count_shape tm :
  state (advance_ramp_count tm) = state tm
  /\ run (advance_ramp_count tm) = run tm
  /\ ramp_count (advance_ramp_count tm)
     = if ramping (state tm) then C.add (ramp_count tm) 2 else ramp_count tm.
Proof. unfold advance_ramp_count. destruct (ramping (state tm)); repeat split. Qed.

(** What a tick leaves of the state, the run flag and the counter. *)
Lemma timer_callback_shape (now : Z) (tm : ev3_tacho_motor_data) :
  exists tm' calls,
    ev3_tacho_motor_timer_callback now tm = Some (tm', calls)
    /\ (run tm = 0 -> keeps tm tm')
    /\ (run tm <> 0 ->
        ramp_count tm'
        = (if ramping (state tm) then C.add (ramp_count tm) 2
           else if setting_up (state tm) then 0
           else ramp_count tm)
        /\ (state tm' = TM_STATE_IDLE -> run tm' = 0)
        /\ (state tm' <> TM_STATE_IDLE -> run tm' = run tm)).
Proof.
  rewrite timer_callback_eq. cbv zeta.
  pose proof (keeps_calculate_speed now tm) as (Hs0 & Hr0 & Hc0).
  set (tm0 := snd (calculate_speed now tm)) in *.
  destruct (Z.eqb_spec 0 (run tm0)) as [Hz | Hnz].
  - exists (fst (no_run tm0)), (snd (no_run tm0)).
    split; [destruct (no_run tm0); reflexivity |].
    split; [| intros Hrun; congruence].
    intros _. apply (keeps_trans tm tm0); [repeat split; assumption |].
    apply keeps_no_run.
  - destruct (advance_ramp_count_shape tm0) as (Hsa & Hra & Hca).
    destruct (reprocess_loop_shape reprocess_fuel (advance_ramp_count tm0)
                (rank_bound _))
      as (tm1 & calls & -> & Hc1 & Hi1 & Hn1 & _).
    set (r := if negb (run tm1 =? 0) then _ else (tm1, [])).
    assert (Hk : keeps tm1 (fst (no_run (fst r)))).
    { apply (keeps_trans tm1 (fst r)); [| apply keeps_no_run].
      subst r. destruct (negb (run tm1 =? 0)); [| apply keeps_refl].
      destruct (regulation_mode tm1);
        [apply keeps_refl | apply keeps_regulate_speed]. }
    destruct Hk as (Hs2 & Hr2 & Hc2).
    eexists _, _. split; [reflexivity |].
    split; [intros Hrun; congruence |]. intros _.
    rewrite Hs2, Hr2, Hc2, Hc1, Hsa, Hca, Hs0, Hc0.
    split; [| split].
    + destruct (state tm); reflexivity.
    + exact Hi1.
    + intros Hni. rewrite (Hn1 Hni), Hra, Hr0. reflexivity.
Qed.

(** No chain of immediate transitions raises the counter: after any number
    of passes it is what it was or 0. *)
Lemma reprocess_loop_never_advances (fuel : nat) :
  forall (t t' : ev3_tacho_motor_data) (calls : list effect),
    reprocess_loop fuel t = Some (t', calls) ->
    ramp_count t' = ramp_count t \/ ramp_count t' = 0.
Proof.
  induction fuel as [| fuel IH]; intros t t' calls Hloop; [discriminate |].
  rewrite reprocess_loop_eq in Hloop.
  destruct (process_state_shape t) as (_ & _ & Hcount & _).
  assert (Hstep : ramp_count (fst (fst (process_state t))) = ramp_count t
                  \/ ramp_count (fst (fst (process_state t))) = 0)
    by (rewrite Hcount; destruct (state t); auto).
  destruct (snd (process_state t)).
  - destruct (reprocess_loop fuel (fst (fst (process_state t))))
      as [[t1 calls1] |] eqn:Hrest; [| discriminate].
    injection Hloop as <- _.
    destruct (IH _ _ _ Hrest) as [H | H]; [| right; exact H].
    rewrite H. exact Hstep.
  - injection Hloop as Heq. rewrite Heq in Hstep. exact Hstep.
Qed.

(** C7: on every timer tick the ramp counter is advanced by the 2 ms tick
    period exactly once, ahead of the reprocessing loop, and only when the
    state at the start of the tick is RampUp, RampConst, PositionRampDown
    or RampDown; no chain of immediate transitions inside the tick, through
    the setup states or otherwise, advances it again: the loop leaves the
    counter as it got it, or reset to 0 by the setup states.  (A motor
    whose run flag is clear is idle or stopping, as every motor data
    reachable from attach is; the addition is the [int] addition.) *)
Theorem ramp_count_advanced_once_per_tick
    (hires_timer : Z) (tm : ev3_tacho_motor_data) :
  run_consistent tm ->
  exists tm' calls,
    ev3_tacho_motor_timer_callback hires_timer tm = Some (tm', calls)
    /\ ramp_count tm'
       = (if ramping (state tm) then C.add (ramp_count tm) 2
          else if setting_up (state tm) then 0
          else ramp_count tm)
    /\ ramp_count (advance_ramp_count tm)
       = (if ramping (state tm) then C.add (ramp_count tm) 2
          else ramp_count tm)
    /\ (forall fuel t t' calls',
          reprocess_loop fuel t = Some (t', calls') ->
          ramp_count t' = ramp_count t \/ ramp_count t' = 0)
    /\ (C.is_int (ramp_count tm) -> ramp_count tm <= C.max_int - 2 ->
        C.add (ramp_count tm) 2 = ramp_count tm + 2).
Proof.
  intros Hcons.
  destruct (timer_callback_shape hires_timer tm)
    as (tm' & calls & Heq & Hidle & Hrun).
  exists tm', calls. split; [exact Heq |].
  split; [| split; [apply advance_ramp_count_shape
                   | split; [apply reprocess_loop_never_advances |]]].
  - destruct (Z.eq_dec (run tm) 0) as [Hz | Hnz].
    + destruct (Hidle Hz) as (_ & _ & ->).
      destruct (Hcons Hz) as [-> | ->]; reflexivity.
    + apply (Hrun Hnz).
  - intros Hint Hmax. apply sint_id. unwrap. lia.
Qed.

Lemma ramp_count_advanced_once_per_tick_witness :
  run_consistent ramping_motor
  /\ exists tm' calls,
       ev3_tacho_motor_timer_callback 0 ramping_motor = Some (tm', calls)
       /\ ramp_count tm' = C.add (ramp_count ramping_motor) 2.
Proof.
  assert (H : run_consistent ramping_motor)
    by (intros Hrun; vm_compute in Hrun; discriminate Hrun).
  split; [exact H |].
  destruct (ramp_count_advanced_once_per_tick 0 ramping_motor H)
    as (tm' & calls & Heq & Hc & _).
  exists tm', calls. split; [exact Heq | exact Hc].
Defined.

(** ** The run flag *)

Lemma set_run_sets_run (r : Z) (tm : ev3_tacho_motor_data) :
  run (ev3_tacho_motor_set_run r tm) = 1.
Proof. reflexivity. Qed.

Ltac case_if :=
  match goal with
  | |- context [if ?c then _ else _] => destruct c
  end.

Lemma keeps_isr_classify i d t tm :
  keeps tm (fst (fst (isr_classify i d t tm))).
Proof.
  unfold isr_classify, bump_dir_chg_samples, uncount_edge, store_sample.
  repeat case_if; cbn; (split; [| split]); reflexivity.
Qed.

Lemma keeps_isr i d t tm : keeps tm (tacho_motor_isr i d t tm).
Proof.
  rewrite isr_unfold.
  destruct (keeps_isr_classify i (negb d) (C.uint t) tm) as (H1 & H2 & H3).
  unfold isr_commit, count_edge. cbn.
  case_if; cbn; (split; [| split]); assumption.
Qed.

(** Apart from the timer callback and the reset, nothing that writes the
    motor data changes the run flag except [set_run], which sets it. *)
Lemma apply_operation_run (op : operation) (tm tm' : ev3_tacho_motor_data) :
  apply_operation op tm = Some tm' ->
  is_tick op = false -> is_reset op = false ->
  run tm' = run tm \/ run tm' = 1.
Proof.
  intros Happ Ht Hr.
  destruct op; try discriminate; cbn in Happ;
    try (injection Happ as <-; left; reflexivity).
  - injection Happ as <-. left. destruct type; reflexivity.
  - injection Happ as <-. left. unfold ev3_tacho_motor_set_polarity_mode.
    destruct (update_output_touches_power (with_polarity_mode p tm))
      as (q & -> & _).
    reflexivity.
  - injection Happ as <-. right. reflexivity.
  - left. unfold ev3_tacho_motor_set_estop in Happ.
    destruct (0 =? estop tm).
    + destruct (draw_estop_key _ _); [| discriminate].
      injection Happ as <-. reflexivity.
    + destruct (estop_arg =? estop tm); injection Happ as <-; reflexivity.
  - injection Happ as <-. left. apply keeps_isr.
Qed.

Lemma timer_callback_run (now : Z) (tm tm' : ev3_tacho_motor_data)
    (calls : list effect) :
  ev3_tacho_motor_timer_callback now tm = Some (tm', calls) ->
  (run tm = 0 -> run tm' = 0 /\ state tm' = state tm)
  /\ (run tm <> 0 -> (run tm' = 0 <-> state tm' = TM_STATE_IDLE)
                     /\ (run tm' = 0 \/ run tm' = run tm)).
Proof.
  intros Heq.
  destruct (timer_callback_shape now tm) as (tm1 & calls1 & Heq1 & Hz & Hnz).
  rewrite Heq in Heq1. injection Heq1 as <- <-.
  split.
  - intros H0. destruct (Hz H0) as (Hs & Hr & _). split; congruence.
  - intros Hne. destruct (Hnz Hne) as (_ & Hi & Hn).
    destruct (decide (state tm' = TM_STATE_IDLE)) as [Hs | Hs].
    + split; [split; auto | left; auto].
    + split; [| right; auto].
      split; [| contradiction]. intros H0. rewrite (Hn Hs) in H0. contradiction.
Qed.

Lemma run_consistent_step (op : operation) (tm tm' : ev3_tacho_motor_data) :
  apply_operation op tm = Some tm' ->
  run_consistent tm -> run_consistent tm'.
Proof.
  intros Happ Hcons Hrun'.
  destruct (is_reset op) eqn:Hreset.
  { destruct op; try discriminate. cbn in Happ. injection Happ as <-.
    left. reflexivity. }
  destruct (is_tick op) eqn:Htick.
  { destruct op; try discriminate. cbn in Happ.
    destruct (ev3_tacho_motor_timer_callback hires_timer tm)
      as [[tm1 calls] |] eqn:Hcb; [| discriminate].
    injection Happ as ->.
    destruct (timer_callback_run _ _ _ _ Hcb) as (Hz & Hnz).
    destruct (Z.eq_dec (run tm) 0) as [H0 | Hne].
    - destruct (Hz H0) as (_ & ->). apply Hcons, H0.
    - left. apply (Hnz Hne), Hrun'. }
  destruct op; try discriminate; cbn in Happ;
    try (injection Happ as <-; apply Hcons; exact Hrun').
  - injection Happ as <-. destruct type; apply Hcons; exact Hrun'.
  - injection Happ as <-. revert Hrun'.
    unfold ev3_tacho_motor_set_polarity_mode.
    destruct (update_output_touches_power (with_polarity_mode p tm))
      as (q & -> & _).
    exact Hcons.
  - injection Happ as <-. discriminate Hrun'.
  - unfold ev3_tacho_motor_set_estop in Happ.
    destruct (0 =? estop tm).
    + destruct (draw_estop_key _ _); [| discriminate].
      injection Happ as <-. right. reflexivity.
    + destruct (estop_arg =? estop tm); injection Happ as <-;
        apply Hcons; exact Hrun'.
  - injection Happ as <-.
    destruct (keeps_isr tacho_int_gpio tacho_dir_gpio hires_timer tm)
      as (Hs & Hr & _).
    rewrite Hs. apply Hcons. rewrite <- Hr. exact Hrun'.
Qed.

Lemma run_operations_consistent (ops : list operation) :
  forall tm tm' : ev3_tacho_motor_data,
    run_operations tm ops = Some tm' ->
    run_consistent tm -> run_consistent tm'.
Proof.
  induction ops as [| op ops IH]; intros tm tm' Hrun Hcons; cbn in Hrun.
  - injection Hrun as <-. exact Hcons.
  - destruct (apply_operation op tm) as [tm1 |] eqn:Hop; [| discriminate].
    apply (IH tm1 tm' Hrun), (run_consistent_step op tm tm1 Hop Hcons).
Qed.

(** Every motor data reachable from attach is run-consistent. *)
Lemma reachable_run_consistent (tm : ev3_tacho_motor_data) :
  reachable tm -> run_consistent tm.
Proof.
  intros (id & ops & Hrun).
  apply (run_operations_consistent ops _ _ Hrun).
  intros _. left. reflexivity.
Qed.

(** C10, counterexample: a motor is told to run, so its run flag is 1; the
    reset command then clears the flag to 0 although the state machine has
    not run at all. *)
Lemma reset_clears_run_flag :
  run started_motor = 1
  /\ apply_operation (op_set_reset TACHO_MOTOR_EV3_LARGE 1) started_motor
     = Some (ev3_tacho_motor_set_reset TACHO_MOTOR_EV3_LARGE 1 started_motor)
  /\ is_tick (op_set_reset TACHO_MOTOR_EV3_LARGE 1) = false
  /\ run (ev3_tacho_motor_set_reset TACHO_MOTOR_EV3_LARGE 1 started_motor) = 0.
Proof. repeat split. Qed.

(** C10, amended: every call to the run-flag setter leaves the run flag
    equal to 1, also when the caller writes 0 to request a stop, so reading
    the flag right after a stop request returns 1; the flag is cleared back
    to 0 only by the state machine itself, in the tick in which it reaches
    the Idle state, or by the reset command, which puts every member back
    to its default (and the state to Idle). *)
Theorem run_flag_set_and_cleared :
  (forall (r : Z) (tm : ev3_tacho_motor_data),
      run (ev3_tacho_motor_set_run r tm) = 1)
  /\ (forall tm : ev3_tacho_motor_data,
        ev3_tacho_motor_get_run (ev3_tacho_motor_set_run 0 tm) = 1)
  /\ (forall (op : operation) (tm tm' : ev3_tacho_motor_data),
        apply_operation op tm = Some tm' ->
        run tm <> 0 -> run tm' = 0 ->
        (is_tick op = true \/ is_reset op = true)
        /\ state tm' = TM_STATE_IDLE)
  /\ (forall (now : Z) (tm tm' : ev3_tacho_motor_data) (calls : list effect),
        ev3_tacho_motor_timer_callback now tm = Some (tm', calls) ->
        run tm <> 0 ->
        (run tm' = 0 <-> state tm' = TM_STATE_IDLE)).
Proof.
  split; [exact set_run_sets_run |].
  split; [intros tm; apply set_run_sets_run |].
  split.
  - intros op tm tm' Happ Hne H0.
    destruct (is_reset op) eqn:Hreset.
    { split; [right; reflexivity |].
      destruct op; try discriminate. cbn in Happ. injection Happ as <-.
      reflexivity. }
    destruct (is_tick op) eqn:Htick.
    { split; [left; reflexivity |].
      destruct op; try discriminate. cbn in Happ.
      destruct (ev3_tacho_motor_timer_callback hires_timer tm)
        as [[tm1 calls] |] eqn:Hcb; [| discriminate].
      injection Happ as ->.
      apply (proj2 (timer_callback_run _ _ _ _ Hcb) Hne), H0. }
    destruct (apply_operation_run op tm tm' Happ Htick Hreset) as [H | H];
      rewrite H in H0; [contradiction | discriminate].
  - intros now tm tm' calls Hcb Hne.
    apply (proj2 (timer_callback_run _ _ _ _ Hcb) Hne).
Qed.

Lemma run_flag_set_and_cleared_witness :
  ev3_tacho_motor_get_run (ev3_tacho_motor_set_run 0 started_motor) = 1.
Proof. exact (proj1 (proj2 run_flag_set_and_cleared) started_motor). Defined.

(** ** The run-forever scenario *)

Lemma same_drive_refl tm : same_drive tm tm.
Proof. unfold same_drive. tauto. Qed.

Lemma same_drive_calculate_speed now tm :
  same_drive tm (snd (calculate_speed now tm)).
Proof.
  destruct (calculate_speed_touches now tm) as (a & b & c & d & ->).
  unfold same_drive. cbn. tauto.
Qed.

Lemma same_drive_isr i d t tm : same_drive tm (tacho_motor_isr i d t tm).
Proof.
  rewrite isr_unfold.
  assert (H : same_drive tm (fst (fst (isr_classify i (negb d) (C.uint t) tm)))).
  { unfold isr_classify, bump_dir_chg_samples, uncount_edge, store_sample.
    repeat case_if; unfold same_drive; cbn; tauto. }
  unfold isr_commit, count_edge, same_drive in *. cbn.
  case_if; cbn; exact H.
Qed.

Lemma scenario_after_same_drive n tm tm' :
  same_drive tm tm' -> scenario_after n tm -> scenario_after n tm'.
Proof.
  unfold same_drive, scenario_after, scenario_setup.
  intros (-> & -> & -> & -> & -> & -> & -> & -> & ->). trivial.
Qed.

(** In open loop, a request between 10 and 100 is stored as it is. *)
Lemma set_power_in_band (p : Z) (t : ev3_tacho_motor_data) :
  regulation_mode t = TM_REGULATION_OFF -> 10 <= p <= 100 ->
  fst (ev3_tacho_motor_set_power p t) = with_power p t.
Proof.
  intros Hreg Hp. unfold ev3_tacho_motor_set_power.
  destruct (Z.eqb_spec (power t) p) as [<- | Hne].
  - symmetry. apply with_power_same.
  - assert (Hlim : limit_power p = p)
      by (unfold limit_power, MAX_POWER; repeat case_cmp; lia).
    rewrite Hlim. unfold ev3_tacho_motor_update_output. cbn.
    rewrite Hreg. repeat case_cmp; try lia; reflexivity.
Qed.

(** The RampUp pass in open loop, run mode RunForever. *)
Lemma state_ramp_up_open_loop tm :
  run_mode tm = TM_RUN_FOREVER ->
  regulation_mode tm = TM_REGULATION_OFF ->
  exists calls,
    state_ramp_up tm
    = (fst (ev3_tacho_motor_set_power
              (C.div (C.mul (duty_cycle_sp tm)
                        (calculate_ramp_progress (ramp_count tm)
                           (ramp_up_full tm))) 100)
              (set_ramp_percent
                 (calculate_ramp_progress (ramp_count tm) (ramp_up_full tm))
                 (if ramp_count tm >=? ramp_up_end tm
                  then with_state TM_STATE_RAMP_CONST tm else tm))),
       calls, ramp_count tm >=? ramp_up_end tm).
Proof.
  intros Hrm Hreg. cbv beta delta [state_ramp_up]. rewrite Hrm.
  cbv beta iota zeta.
  destruct (ramp_count tm >=? ramp_up_end tm); cbv beta iota zeta;
    unfold update_motor_speed_or_power; cbn; rewrite Hreg, Hrm;
    match goal with
    | |- context [ev3_tacho_motor_set_power ?p ?t] =>
        destruct (ev3_tacho_motor_set_power p t) as [t' calls']
    end; eexists; reflexivity.
Qed.

(** The RampConst pass in open loop, run mode RunForever. *)
Lemma state_ramp_const_open_loop tm :
  run_mode tm = TM_RUN_FOREVER ->
  regulation_mode tm = TM_REGULATION_OFF ->
  exists calls,
    state_ramp_const tm
    = (fst (ev3_tacho_motor_set_power
              (C.div (C.mul (duty_cycle_sp tm) (ramp_percent tm)) 100)
              (set_ramp_down_end
                 (C.add (ramp_count tm)
                    (C.div (C.mul (C.abs (duty_cycle_sp tm)) (ramp_down_sp tm))
                       100))
                 (set_ramp_down_start (ramp_count tm) tm))),
       calls, false).
Proof.
  intros Hrm Hreg. cbv beta delta [state_ramp_const]. rewrite Hrm.
  cbv beta iota zeta.
  unfold update_motor_speed_or_power; cbn; rewrite Hreg, Hrm.
  match goal with
  | |- context [ev3_tacho_motor_set_power ?p ?t] =>
      destruct (ev3_tacho_motor_set_power p t) as [t' calls']
  end.
  eexists. reflexivity.
Qed.

Lemma process_state_at tm s :
  state tm = s ->
  process_state tm
  = match s with
    | TM_STATE_RUN_FOREVER => state_setup_ramp_time tm
    | TM_STATE_SETUP_RAMP_TIME => state_setup_ramp_time tm
    | TM_STATE_SETUP_RAMP_POSITION => state_setup_ramp_position tm
    | TM_STATE_SETUP_RAMP_REGULATION => state_setup_ramp_regulation tm
    | TM_STATE_RAMP_UP => state_ramp_up tm
    | TM_STATE_RAMP_CONST => state_ramp_const tm
    | TM_STATE_POSITION_RAMP_DOWN => state_position_ramp_down tm
    | TM_STATE_RAMP_DOWN => state_ramp_down tm
    | TM_STATE_STOP => state_stop tm
    | TM_STATE_IDLE => state_idle tm
    end.
Proof. intros <-. reflexivity. Qed.

Lemma loop_ramp_const (fuel : nat) (tm : ev3_tacho_motor_data) :
  scenario_setup tm -> state tm = TM_STATE_RAMP_CONST ->
  ramp_percent tm = 100 ->
  exists tm' calls,
    reprocess_loop (S fuel) tm = Some (tm', calls)
    /\ scenario_setup tm' /\ state tm' = TM_STATE_RAMP_CONST
    /\ ramp_percent tm' = 100 /\ power tm' = 50.
Proof.
  intros (Hrun & Hrm & Hreg & Hduty & Hup & Hdown) Hstate Hpct.
  rewrite reprocess_loop_eq, (process_state_at tm _ Hstate).
  destruct (state_ramp_const_open_loop tm Hrm Hreg) as (calls & ->).
  cbn [fst snd]. rewrite Hduty, Hpct.
  replace (C.div (C.mul 50 100) 100) with 50 by reflexivity.
  rewrite set_power_in_band by (cbn; first [exact Hreg | lia]).
  eexists _, _. split; [reflexivity |].
  unfold scenario_setup. cbn. tauto.
Qed.

Lemma loop_ramp_up_short (fuel : nat) (tm : ev3_tacho_motor_data) (c : Z) :
  scenario_setup tm -> state tm = TM_STATE_RAMP_UP ->
  ramp_up_full tm = 250 -> ramp_up_end tm = 250 ->
  ramp_count tm = c -> c < 250 ->
  exists tm' calls,
    reprocess_loop (S fuel) tm = Some (tm', calls)
    /\ scenario_setup tm' /\ state tm' = TM_STATE_RAMP_UP
    /\ ramp_up_full tm' = 250 /\ ramp_up_end tm' = 250
    /\ ramp_count tm' = c
    /\ ramp_percent tm' = calculate_ramp_progress c 250
    /\ (ramp_percent tm' = 100 -> power tm' = 50).
Proof.
  intros (Hrun & Hrm & Hreg & Hduty & Hup & Hdown) Hstate Hfull Hend Hc Hlt.
  rewrite reprocess_loop_eq, (process_state_at tm _ Hstate).
  destruct (state_ramp_up_open_loop tm Hrm Hreg) as (calls & ->).
  cbn [fst snd]. rewrite Hduty, Hfull, Hend, Hc.
  destruct (Z.geb_spec c 250); [lia |].
  destruct (Z.eq_dec (calculate_ramp_progress c 250) 100) as [Hfullpct | Hpart].
  - rewrite Hfullpct.
    replace (C.div (C.mul 50 100) 100) with 50 by reflexivity.
    rewrite set_power_in_band by (cbn; first [exact Hreg | lia]).
    eexists _, _. split; [reflexivity |].
    unfold scenario_setup. cbn. tauto.
  - match goal with
    | |- context [ev3_tacho_motor_set_power ?p ?t] =>
        destruct (set_power_touches_power p t) as (q & -> & _)
    end.
    eexists _, _. split; [reflexivity |].
    unfold scenario_setup. cbn. tauto.
Qed.

Lemma loop_ramp_up_done (fuel : nat) (tm : ev3_tacho_motor_data) :
  scenario_setup tm -> state tm = TM_STATE_RAMP_UP ->
  ramp_up_full tm = 250 -> ramp_up_end tm = 250 -> ramp_count tm = 250 ->
  exists tm' calls,
    reprocess_loop (S (S fuel)) tm = Some (tm', calls)
    /\ scenario_setup tm' /\ state tm' = TM_STATE_RAMP_CONST
    /\ ramp_percent tm' = 100 /\ power tm' = 50.
Proof.
  intros (Hrun & Hrm & Hreg & Hduty & Hup & Hdown) Hstate Hfull Hend Hc.
  rewrite reprocess_loop_eq, (process_state_at tm _ Hstate).
  destruct (state_ramp_up_open_loop tm Hrm Hreg) as (calls & ->).
  cbn [fst snd]. rewrite Hduty, Hfull, Hend, Hc.
  replace (250 >=? 250) with true by reflexivity.
  replace (calculate_ramp_progress 250 250) with 100 by reflexivity.
  replace (C.div (C.mul 50 100) 100) with 50 by reflexivity.
  rewrite set_power_in_band by (cbn; first [exact Hreg | lia]).
  match goal with
  | |- context [reprocess_loop (S fuel) ?t] =>
      destruct (loop_ramp_const fuel t) as (tm' & calls' & -> & Hinv);
      [unfold scenario_setup; cbn; tauto | reflexivity | reflexivity |]
  end.
  eexists _, _. split; [reflexivity | exact Hinv].
Qed.

(** The setup pass of the scenario: the up window is 250 ms long. *)
Lemma state_setup_ramp_time_scenario tm :
  scenario_setup tm ->
  exists tm1,
    state_setup_ramp_time tm = (tm1, [], true)
    /\ scenario_setup tm1
    /\ state tm1 = TM_STATE_SETUP_RAMP_REGULATION
    /\ ramp_up_full tm1 = 250 /\ ramp_up_end tm1 = 250.
Proof.
  unfold scenario_setup.
  destruct tm as [? ? ? ? ? ? ? ? ? [[? ? ?] [? ? ?] ? ? ? ?] ? ? ? ? ? ? ? ? ? ? ?
                    ? ? ? ? ? ? ? ? ? ? ? ?].
  cbn. intros (-> & -> & -> & -> & -> & ->).
  match goal with
  | |- exists tm1, ?r = _ /\ _ =>
      let v := eval vm_compute in r in
      change r with v
  end.
  eexists. split; [reflexivity |]. cbn. tauto.
Qed.

Lemma loop_setup (fuel : nat) (tm : ev3_tacho_motor_data) :
  scenario_setup tm -> state tm = TM_STATE_RUN_FOREVER ->
  exists tm' calls,
    reprocess_loop (S (S (S fuel))) tm = Some (tm', calls)
    /\ scenario_setup tm' /\ state tm' = TM_STATE_RAMP_UP
    /\ ramp_up_full tm' = 250 /\ ramp_up_end tm' = 250
    /\ ramp_count tm' = 0
    /\ ramp_percent tm' = calculate_ramp_progress 0 250
    /\ (ramp_percent tm' = 100 -> power tm' = 50).
Proof.
  intros Hsetup Hstate.
  rewrite reprocess_loop_eq, (process_state_at tm _ Hstate).
  destruct (state_setup_ramp_time_scenario tm Hsetup)
    as (tm1 & -> & Hsetup1 & Hstate1 & Hfull1 & Hend1).
  cbn [fst snd].
  rewrite reprocess_loop_eq, (process_state_at tm1 _ Hstate1).
  cbv beta delta [state_setup_ramp_regulation]. cbn [fst snd].
  match goal with
  | |- context [reprocess_loop (S fuel) ?t] =>
      destruct (loop_ramp_up_short fuel t 0) as (tm' & calls' & -> & Hinv);
      [revert Hsetup1; unfold scenario_setup; cbn; tauto
      | reflexivity | exact Hfull1 | exact Hend1 | reflexivity | lia |]
  end.
  eexists _, _. split; [reflexivity | exact Hinv].
Qed.

(** With the run flag set and regulation off, the tick ends with what the
    reprocessing loop leaves. *)
Lemma timer_callback_open_loop (now : Z) (tm tm1 : ev3_tacho_motor_data)
    (calls : list effect) :
  run tm = 1 ->
  reprocess_loop reprocess_fuel
    (advance_ramp_count (snd (calculate_speed now tm))) = Some (tm1, calls) ->
  run tm1 = 1 -> regulation_mode tm1 = TM_REGULATION_OFF ->
  exists calls', ev3_tacho_motor_timer_callback now tm = Some (tm1, calls').
Proof.
  intros Hrun Hloop Hrun1 Hreg1.
  rewrite timer_callback_eq. cbv zeta.
  destruct (same_drive_calculate_speed now tm) as (_ & Hr0 & _).
  rewrite Hr0, Hrun, Hloop. cbn [Z.eqb].
  rewrite Hrun1, Hreg1. cbn. unfold no_run. rewrite Hrun1. cbn.
  eexists. reflexivity.
Qed.

Lemma scenario_start_ready : scenario_after 0 scenario_start.
Proof. unfold scenario_after, scenario_setup. cbn. tauto. Qed.

(** One tick takes the scenario from its [n]-th to its [n+1]-st stage,
    whatever the timer reads. *)
Lemma scenario_tick (now : Z) (n : nat) (tm : ev3_tacho_motor_data) :
  scenario_after n tm ->
  exists tm' calls,
    ev3_tacho_motor_timer_callback now tm = Some (tm', calls)
    /\ scenario_after (S n) tm'.
Proof.
  intros Hafter.
  pose proof Hafter as ((Hrun & _) & _).
  apply (scenario_after_same_drive n tm _ (same_drive_calculate_speed now tm))
    in Hafter.
  set (tm0 := snd (calculate_speed now tm)) in *.
  assert (Hfinish : forall tm1 calls,
             reprocess_loop reprocess_fuel (advance_ramp_count tm0)
             = Some (tm1, calls) ->
             scenario_after (S n) tm1 ->
             exists tm' calls',
               ev3_tacho_motor_timer_callback now tm = Some (tm', calls')
               /\ scenario_after (S n) tm').
  { intros tm1 calls Hloop Hnext.
    pose proof Hnext as ((Hrun1 & _ & Hreg1 & _) & _).
    destruct (timer_callback_open_loop now tm tm1 calls Hrun Hloop Hrun1 Hreg1)
      as (calls' & Hcb).
    exists tm1, calls'. split; [exact Hcb | exact Hnext]. }
  destruct Hafter as (Hsetup & Hstage).
  unfold advance_ramp_count, reprocess_fuel in Hfinish.
  destruct n as [| m].
  - rewrite Hstage in Hfinish. cbn [ramping] in Hfinish.
    destruct (loop_setup 5 tm0 Hsetup Hstage) as (tm1 & calls & Hloop & Hs1 & Hinv).
    apply (Hfinish tm1 calls Hloop).
    split; [exact Hs1 | exact Hinv].
  - destruct (Nat.leb_spec (S m) 125) as [Hle | Hgt].
    + destruct Hstage as (Hstate & Hfull & Hend & Hcount & Hpct & Hpow).
      rewrite Hstate in Hfinish. cbn [ramping] in Hfinish.
      assert (Hadv : C.add (ramp_count tm0) 2 = 2 * Z.of_nat (S m)).
      { rewrite Hcount. unfold C.add. rewrite sint_id; [lia | unwrap; lia]. }
      rewrite Hadv in Hfinish.
      destruct (Nat.leb_spec (S (S m)) 125) as [Hle' | Hgt'].
      * match type of Hfinish with
        | context [reprocess_loop _ ?t] =>
            destruct (loop_ramp_up_short 7 t (2 * Z.of_nat (S m)))
              as (tm1 & calls & Hloop & Hs1 & Hinv);
            [revert Hsetup; unfold scenario_setup; cbn; tauto
            | exact Hstate | exact Hfull | exact Hend | reflexivity | lia |]
        end.
        apply (Hfinish tm1 calls Hloop).
        split; [exact Hs1 |].
        destruct (Nat.leb_spec (S (S m)) 125); [exact Hinv | lia].
      * assert (Hm : m = 124%nat) by lia. subst m.
        match type of Hfinish with
        | context [reprocess_loop _ ?t] =>
            destruct (loop_ramp_up_done 6 t)
              as (tm1 & calls & Hloop & Hs1 & Hinv);
            [revert Hsetup; unfold scenario_setup; cbn; tauto
            | exact Hstate | exact Hfull | exact Hend | reflexivity |]
        end.
        apply (Hfinish tm1 calls Hloop).
        split; [exact Hs1 | exact Hinv].
    + destruct Hstage as (Hstate & Hpct & Hpow).
      rewrite Hstate in Hfinish. cbn [ramping] in Hfinish.
      match type of Hfinish with
      | context [reprocess_loop _ ?t] =>
          destruct (loop_ramp_const 7 t)
            as (tm1 & calls & Hloop & Hs1 & Hinv);
          [revert Hsetup; unfold scenario_setup; cbn; tauto
          | exact Hstate | exact Hpct |]
      end.
      apply (Hfinish tm1 calls Hloop).
      split; [exact Hs1 |].
      destruct (Nat.leb_spec (S (S m)) 125); [lia | exact Hinv].
Qed.

Lemma scenario_step (op : operation) (n : nat) (tm : ev3_tacho_motor_data) :
  sensing op = true -> scenario_after n tm ->
  exists tm',
    apply_operation op tm = Some tm'
    /\ scenario_after ((if is_tick op then 1 else 0) + n) tm'.
Proof.
  intros Hop Hafter. destruct op; try discriminate Hop; cbn.
  - eexists. split; [reflexivity |].
    apply (scenario_after_same_drive n tm); [apply same_drive_isr | exact Hafter].
  - destruct (scenario_tick hires_timer n tm Hafter) as (tm' & calls & -> & H).
    exists tm'. split; [reflexivity | exact H].
Qed.

Lemma scenario_run (ops : list operation) :
  forall (n : nat) (tm : ev3_tacho_motor_data),
    Forall (fun op => sensing op = true) ops ->
    scenario_after n tm ->
    exists tm',
      run_operations tm ops = Some tm'
      /\ scenario_after (count_ticks ops + n) tm'.
Proof.
  induction ops as [| op ops IH]; intros n tm Hall Hafter.
  - exists tm. split; [reflexivity | exact Hafter].
  - inversion Hall as [| ? ? Hop Hrest]; subst.
    destruct (scenario_step op n tm Hop Hafter) as (tm1 & Hstep & Hafter1).
    destruct (IH _ tm1 Hrest Hafter1) as (tm' & Hrun & Hafter').
    exists tm'. cbn [run_operations count_ticks]. rewrite Hstep.
    split; [exact Hrun |].
    replace ((if is_tick op then 1 else 0) + count_ticks ops + n)%nat
      with (count_ticks ops + ((if is_tick op then 1 else 0) + n))%nat by lia.
    exact Hafter'.
Qed.

(** C2, counterexample: in the scenario the up window is 50 x 500 / 100 =
    250 ms long, so after 125 ticks (248 ms on the counter) the ramp
    percentage is already 100, not about 50, and it is 100 after 126 ticks
    (250 ms) as well; the percentage is 50 after 64 ticks (126 ms). *)
Lemma ramp_complete_at_tick_125 :
  option_map ramp_view (run_operations scenario_start (ticks_only 125))
  = Some (248, 250, 100, 50)
  /\ option_map ramp_view (run_operations scenario_start (ticks_only 126))
     = Some (250, 250, 100, 50)
  /\ option_map ramp_view (run_operations scenario_start (ticks_only 64))
     = Some (126, 250, 50, 25).
Proof. vm_compute. repeat split. Qed.

(** C2, amended: with run mode RunForever, regulation off, duty-cycle
    setpoint 50, ramp-up setpoint 500 ms and a 2 ms tick, starting a run
    and letting any encoder edges and timer ticks follow, with any line
    levels and timer readings: the up window is 250 ms long; after n ticks,
    1 <= n <= 125, the machine is in RampUp with 2(n-1) ms on the counter
    and the ramp percentage is the progress of 2(n-1) in 250, which is 50
    after 64 ticks (126 ms); from tick 125 (248 ms) onward, hence also
    from tick 250 onward, the ramp percentage equals 100 and the commanded
    power equals 50. *)
Theorem run_forever_scenario (ops : list operation) :
  Forall (fun op => sensing op = true) ops ->
  exists tm,
    run_operations scenario_start ops = Some tm
    /\ ((1 <= count_ticks ops <= 125)%nat ->
        state tm = TM_STATE_RAMP_UP
        /\ ramp_up_full tm = 250
        /\ ramp_count tm = 2 * (Z.of_nat (count_ticks ops) - 1)
        /\ ramp_percent tm
           = calculate_ramp_progress
               (2 * (Z.of_nat (count_ticks ops) - 1)) 250)
    /\ (count_ticks ops = 64%nat -> ramp_percent tm = 50)
    /\ ((125 <= count_ticks ops)%nat ->
        ramp_percent tm = 100 /\ power tm = 50).
Proof.
  intros Hall.
  destruct (scenario_run ops 0 scenario_start Hall scenario_start_ready)
    as (tm & Hrun & Hsetup & Hstage).
  exists tm. split; [exact Hrun |].
  rewrite Nat.add_0_r in Hstage.
  destruct (count_ticks ops) as [| m] eqn:Hn.
  - split; [lia | split; [discriminate | lia]].
  - destruct (Nat.leb_spec (S m) 125) as [Hle | Hgt].
    + destruct Hstage as (Hstate & Hfull & Hend & Hcount & Hpct & Hpow).
      assert (Hm : 2 * (Z.of_nat (S m) - 1) = 2 * Z.of_nat m) by lia.
      split; [| split].
      * intros _. rewrite Hm. tauto.
      * intros [= ->]. rewrite Hpct. reflexivity.
      * intros Hge. assert (m = 124%nat) as -> by lia.
        assert (Hfullpct : ramp_percent tm = 100) by (rewrite Hpct; reflexivity).
        split; [exact Hfullpct | exact (Hpow Hfullpct)].
    + destruct Hstage as (Hstate & Hpct & Hpow).
      split; [lia | split; [lia | tauto]].
Qed.

Lemma run_forever_scenario_witness :
  Forall (fun op => sensing op = true) (ticks_only 125)
  /\ exists tm,
       run_operations scenario_start (ticks_only 125) = Some tm
       /\ ramp_percent tm = 100 /\ power tm = 50.
Proof.
  assert (H : Forall (fun op => sensing op = true) (ticks_only 125))
    by (apply Forall_forall; intros op Hin;
        apply elem_of_replicate in Hin as [-> _]; reflexivity).
  split; [exact H |].
  destruct (run_forever_scenario (ticks_only 125) H)
    as (tm & Hrun & _ & _ & Hlate).
  exists tm. split; [exact Hrun |].
  apply Hlate. vm_compute. apply le_n.
Defined.

(** ** What a tick leaves alone *)

Lemma machine_frame_refl tm : machine_frame tm tm.
Proof. split; [reflexivity | trivial]. Qed.

Lemma machine_frame_trans tm t u :
  machine_frame tm t -> machine_frame t u -> machine_frame tm u.
Proof. intros [H1 H2] [H3 H4]. split; [congruence | auto]. Qed.

(** A step that writes neither a held member nor the power. *)
Lemma machine_frame_step tm t u :
  machine_frame tm t ->
  held_by_machine u = held_by_machine t -> power u = power t ->
  machine_frame tm u.
Proof.
  intros [H1 H2] Hh Hp. split; [congruence |].
  intros H. unfold power_in_range. rewrite Hp. apply H2, H.
Qed.

Lemma machine_frame_adjust tm t :
  machine_frame tm t -> machine_frame tm (adjust_ramp_for_position t).
Proof.
  intros H. destruct (adjust_ramp_touches t) as (ue & de & ds & ->).
  apply (machine_frame_step tm t); [exact H | reflexivity | reflexivity].
Qed.

Lemma machine_frame_set_power p tm t :
  machine_frame tm t -> machine_frame tm (fst (ev3_tacho_motor_set_power p t)).
Proof.
  intros [H1 H2]. destruct (set_power_touches_power p t) as (q & -> & Hq).
  split; [rewrite <- H1; reflexivity |].
  intros H. apply Hq, H2, H.
Qed.

Lemma machine_frame_update_motor p tm t :
  machine_frame tm t -> machine_frame tm (fst (update_motor_speed_or_power p t)).
Proof.
  intros H. unfold update_motor_speed_or_power.
  destruct (regulation_mode t), (run_mode t);
    first [ apply machine_frame_set_power; exact H
          | apply (machine_frame_step tm t); [exact H | reflexivity | reflexivity] ].
Qed.

Ltac solve_frame :=
  repeat match goal with
    | |- machine_frame _ (match ?m with _ => _ end) => destruct m
    | |- machine_frame _ (if ?c then _ else _) => destruct c
    end;
  first [ assumption
        | apply machine_frame_adjust; assumption
        | apply machine_frame_update_motor; assumption
        | apply machine_frame_set_power; assumption
        | match goal with
          | H : machine_frame _ ?t |- machine_frame _ _ =>
              apply (machine_frame_step _ t _ H); reflexivity
          end ].

(** Give the outermost local of the result a name, keeping of it only
    its frame with respect to [tm]. *)
Ltac name_let_frame tm :=
  lazymatch goal with
  | |- machine_frame _ (fst (fst (let x := ?a in @?f x))) =>
      let t := fresh "t" in
      let Ht := fresh "Ht" in
      assert (Ht : machine_frame tm a);
      [ solve_frame
      | pose (t := a); change (machine_frame tm (fst (fst (f t)))); cbv beta;
        change (machine_frame tm t) in Ht; clearbody t ]
  end.

Ltac finish_frame :=
  cbv beta iota zeta;
  lazymatch goal with
  | |- machine_frame ?tm (fst (fst (match ?x with _ => _ end))) =>
      let H := fresh in
      assert (H : machine_frame tm (fst x)) by solve_frame;
      destruct x; exact H
  | _ => cbn [fst snd]; solve_frame
  end.

Lemma state_setup_ramp_time_frame tm :
  machine_frame tm (fst (fst (state_setup_ramp_time tm))).
Proof.
  cbv beta delta [state_setup_ramp_time].
  pose proof (machine_frame_refl tm). repeat name_let_frame tm.
  finish_frame.
Qed.

Lemma state_setup_ramp_position_frame tm :
  machine_frame tm (fst (fst (state_setup_ramp_position tm))).
Proof.
  cbv beta delta [state_setup_ramp_position].
  pose proof (machine_frame_refl tm). repeat name_let_frame tm.
  finish_frame.
Qed.

Lemma state_ramp_up_frame tm : machine_frame tm (fst (fst (state_ramp_up tm))).
Proof.
  cbv beta delta [state_ramp_up].
  pose proof (machine_frame_refl tm). name_let_frame tm.
  case_cmp; cbv beta iota; name_let_frame tm; finish_frame.
Qed.

Lemma state_ramp_const_frame tm :
  machine_frame tm (fst (fst (state_ramp_const tm))).
Proof.
  cbv beta delta [state_ramp_const].
  pose proof (machine_frame_refl tm) as H.
  destruct (run_mode tm).
  - finish_frame.
  - case_cmp; finish_frame.
  - cbv zeta. pose proof (machine_frame_adjust tm tm H) as Ha.
    set (t := adjust_ramp_for_position tm) in *. clearbody t.
    case_cmp; finish_frame.
Qed.

Lemma state_ramp_down_frame tm t :
  machine_frame tm t -> machine_frame tm (fst (fst (state_ramp_down t))).
Proof.
  intros H. cbv beta delta [state_ramp_down].
  case_cmp; cbv beta iota; name_let_frame tm; finish_frame.
Qed.

Lemma state_position_ramp_down_frame tm :
  machine_frame tm (fst (fst (state_position_ramp_down tm))).
Proof.
  cbv beta delta [state_position_ramp_down].
  pose proof (machine_frame_refl tm). repeat name_let_frame tm.
  apply state_ramp_down_frame. assumption.
Qed.

Lemma position_fold (t i sp : Z) :
  C.add sp (C.sub (C.add t i) sp) = C.add t i.
Proof. wrap_lia. Qed.

Lemma position_flush (t i : Z) : C.add (C.add t i) 0 = C.add t i.
Proof. wrap_lia. Qed.

Lemma state_stop_frame tm : machine_frame tm (fst (fst (state_stop tm))).
Proof.
  cbv beta delta [state_stop].
  assert (H : machine_frame tm
    match run_mode tm with
    | TM_RUN_POSITION =>
        let tm0 :=
          with_irq_tacho
            (C.sub (C.add (tacho tm) (irq_tacho tm)) (ramp_position_sp (ramp tm)))
            tm in
        with_tacho (ramp_position_sp (ramp tm0)) tm0
    | _ =>
        let tm0 := with_tacho (C.add (tacho tm) (irq_tacho tm)) tm in
        with_irq_tacho 0 tm0
    end).
  { destruct (run_mode tm); (split; [| trivial]);
      unfold held_by_machine, held_through_tick, ev3_tacho_motor_get_position; cbn;
      rewrite ?position_fold, ?position_flush; reflexivity. }
  repeat name_let_frame tm. finish_frame.
Qed.

Lemma process_state_frame tm : machine_frame tm (fst (fst (process_state tm))).
Proof.
  unfold process_state. destruct (state tm).
  - apply state_setup_ramp_time_frame.
  - apply state_setup_ramp_time_frame.
  - apply state_setup_ramp_position_frame.
  - apply (machine_frame_step tm tm); [apply machine_frame_refl | reflexivity ..].
  - apply state_ramp_up_frame.
  - apply state_ramp_const_frame.
  - apply state_position_ramp_down_frame.
  - apply state_ramp_down_frame, machine_frame_refl.
  - apply state_stop_frame.
  - apply (machine_frame_step tm tm); [apply machine_frame_refl | reflexivity ..].
Qed.

Lemma reprocess_loop_frame (fuel : nat) :
  forall (tm tm' : ev3_tacho_motor_data) (calls : list effect),
    reprocess_loop fuel tm = Some (tm', calls) -> machine_frame tm tm'.
Proof.
  induction fuel as [| fuel IH]; intros tm tm' calls Hloop; [discriminate |].
  rewrite reprocess_loop_eq in Hloop.
  pose proof (process_state_frame tm) as Hstep.
  destruct (process_state tm) as [[tm1 calls1] rep]. cbn [fst snd] in *.
  destruct rep.
  - destruct (reprocess_loop fuel tm1) as [[tm2 calls2] |] eqn:Hrest;
      [| discriminate].
    injection Hloop as <- <-.
    apply (machine_frame_trans tm tm1); [exact Hstep | apply (IH _ _ _ Hrest)].
  - injection Hloop as <- <-. exact Hstep.
Qed.

Lemma machine_frame_advance tm : machine_frame tm (advance_ramp_count tm).
Proof.
  unfold advance_ramp_count. destruct (ramping (state tm));
    apply (machine_frame_step tm tm); try apply machine_frame_refl; reflexivity.
Qed.

Lemma machine_frame_if (c : bool) tm a b :
  machine_frame tm a -> machine_frame tm b -> machine_frame tm (if c then a else b).
Proof. destruct c; trivial. Qed.

(** The regulator's first half writes the setpoint, the three PID terms
    and the previous speed. *)
Lemma regulate_speed_terms_touches (tm : ev3_tacho_motor_data) :
  exists z a b c d,
    fst (fst (regulate_speed_terms tm))
    = on_pid (with_prev_pulses_per_second d)
        (set_pid_D c (set_pid_I b (set_pid_P a (with_speed_reg_sp z tm)))).
Proof.
  unfold regulate_speed_terms, limit_speed_reg_sp.
  repeat case_cmp; cbn [fst];
    first [ eexists _, _, _, _, _; reflexivity
          | eexists (speed_reg_sp tm), _, _, _, _;
            rewrite with_speed_reg_sp_same; reflexivity ].
Qed.

Lemma machine_frame_regulate_tail tm t1 (c : bool) (e p : Z) :
  machine_frame tm t1 ->
  machine_frame tm
    (fst (if 0 =? speed_reg_sp (if c then set_pid_I e t1 else t1)
          then ev3_tacho_motor_set_power 0 (if c then set_pid_I e t1 else t1)
          else ev3_tacho_motor_set_power p (if c then set_pid_I e t1 else t1))).
Proof.
  intros H. rewrite fst_if.
  assert (H1 : machine_frame tm (if c then set_pid_I e t1 else t1)).
  { destruct c; [| exact H].
    apply (machine_frame_step tm _ _ H); reflexivity. }
  apply machine_frame_if; apply machine_frame_set_power; exact H1.
Qed.

Lemma machine_frame_regulate_speed tm : machine_frame tm (fst (regulate_speed tm)).
Proof.
  rewrite regulate_speed_eq. cbv zeta.
  apply machine_frame_regulate_tail.
  destruct (regulate_speed_terms_touches tm) as (z & a & b & c & d & ->).
  apply (machine_frame_step tm tm); [apply machine_frame_refl | reflexivity ..].
Qed.

Lemma machine_frame_regulate_position tm :
  machine_frame tm (fst (regulate_position tm)).
Proof.
  unfold regulate_position. cbv zeta.
  apply machine_frame_set_power.
  destruct (motor_type tm);
    (apply (machine_frame_step tm tm); [apply machine_frame_refl | reflexivity ..]).
Qed.

Lemma machine_frame_no_run tm : machine_frame tm (fst (no_run tm)).
Proof.
  unfold no_run. case_cmp; [| apply machine_frame_refl].
  destruct (stop_mode tm);
    [apply machine_frame_refl | apply machine_frame_refl
    | apply machine_frame_regulate_position].
Qed.

Lemma machine_callback_frame (tm0 tm' : ev3_tacho_motor_data)
    (loop : option (ev3_tacho_motor_data * list effect)) :
  loop = reprocess_loop reprocess_fuel (advance_ramp_count tm0) ->
  (exists tm1 calls, loop = Some (tm1, calls)
     /\ tm' = fst (no_run (fst (if negb (run tm1 =? 0) then
                                   match regulation_mode tm1 with
                                   | TM_REGULATION_ON => regulate_speed tm1
                                   | _ => (tm1, [])
                                   end
                                 else (tm1, [])))))
  \/ tm' = fst (no_run tm0) ->
  machine_frame tm0 tm'.
Proof.
  intros -> [(tm1 & calls & Hloop & ->) | ->]; [| apply machine_frame_no_run].
  apply (machine_frame_trans tm0 _ _ (machine_frame_advance tm0)).
  apply (machine_frame_trans _ tm1 _ (reprocess_loop_frame _ _ _ _ Hloop)).
  eapply machine_frame_trans; [| apply machine_frame_no_run].
  destruct (negb (run tm1 =? 0)); [| apply machine_frame_refl].
  destruct (regulation_mode tm1);
    [apply machine_frame_refl | apply machine_frame_regulate_speed].
Qed.

(** The callback after its first stage, the speed estimate. *)
Lemma timer_callback_stages (now : Z) (tm tm' : ev3_tacho_motor_data)
    (calls : list effect) :
  ev3_tacho_motor_timer_callback now tm = Some (tm', calls) ->
  machine_frame (snd (calculate_speed now tm)) tm'.
Proof.
  rewrite timer_callback_eq. cbv zeta.
  generalize (snd (calculate_speed now tm)). intros tm0.
  destruct (0 =? run tm0).
  - intros [= H]. apply (machine_callback_frame tm0 tm' _ eq_refl).
    right. rewrite H. reflexivity.
  - destruct (reprocess_loop reprocess_fuel (advance_ramp_count tm0))
      as [[tm1 calls1] |] eqn:Hloop; [| discriminate].
    intros [= <- _]. apply (machine_callback_frame tm0 _ _ eq_refl).
    left. exists tm1, calls1. split; [exact Hloop | reflexivity].
Qed.

Lemma machine_frame_tick_frame tm t : machine_frame tm t -> tick_frame tm t.
Proof. intros [H P]. split; [exact (f_equal fst H) | exact P]. Qed.

Lemma tick_frame_calculate_speed now tm :
  tick_frame tm (snd (calculate_speed now tm)).
Proof.
  destruct (calculate_speed_touches now tm) as (a & b & c & d & ->).
  split; [reflexivity | trivial].
Qed.

Lemma tick_frame_trans tm t u :
  tick_frame tm t -> tick_frame t u -> tick_frame tm u.
Proof. intros [H1 H2] [H3 H4]. split; [congruence | auto]. Qed.

(** A tick changes none of the members it only reads, keeps the position
    reading, and keeps the commanded power a percentage. *)
Lemma timer_callback_frame (now : Z) (tm tm' : ev3_tacho_motor_data)
    (calls : list effect) :
  ev3_tacho_motor_timer_callback now tm = Some (tm', calls) ->
  tick_frame tm tm'.
Proof.
  intros H.
  apply (tick_frame_trans tm _ _ (tick_frame_calculate_speed now tm)).
  apply machine_frame_tick_frame, (timer_callback_stages _ _ _ _ H).
Qed.

(** ** The calls a routine makes *)

Lemma abs_percent (p : Z) : -100 <= p <= 100 -> 0 <= C.abs p <= 100.
Proof. intros H. unfold C.abs. case_cmp; wrap_lia. Qed.

Lemma update_output_calls (tm : ev3_tacho_motor_data) :
  power_in_range tm ->
  Forall duty_cycle_ok (snd (ev3_tacho_motor_update_output tm)).
Proof.
  intros H. destruct (update_output_touches_power tm) as (q & Hq & Hr).
  specialize (Hr H).
  assert (Hd : duty_cycle_ok
                 (set_duty_cycle
                    (C.abs (power (fst (ev3_tacho_motor_update_output tm)))))).
  { rewrite Hq. cbn. apply abs_percent, Hr. }
  revert Hd. unfold ev3_tacho_motor_update_output.
  repeat case_cmp; destruct (regulation_mode tm), (stop_mode tm);
    repeat case_cmp; cbn [fst snd app]; intros Hd;
    repeat (apply Forall_cons; split; [first [exact Hd | exact I] |]);
    apply Forall_nil_2.
Qed.

Lemma set_power_calls (p : Z) (tm : ev3_tacho_motor_data) :
  Forall duty_cycle_ok (snd (ev3_tacho_motor_set_power p tm)).
Proof.
  unfold ev3_tacho_motor_set_power. case_cmp; [apply Forall_nil_2 |].
  apply update_output_calls. apply limit_power_range.
Qed.

Lemma update_motor_calls (p : Z) (tm : ev3_tacho_motor_data) :
  Forall duty_cycle_ok (snd (update_motor_speed_or_power p tm)).
Proof.
  unfold update_motor_speed_or_power.
  destruct (regulation_mode tm), (run_mode tm);
    first [apply set_power_calls | apply Forall_nil_2].
Qed.

(** Give the outermost local of the result a name and forget its value:
    the calls of a pass come from its last output routine. *)
Ltac forget_let :=
  lazymatch goal with
  | |- Forall _ (snd (fst (let x := ?a in @?f x))) =>
      let t := fresh "t" in
      pose (t := a); change (Forall duty_cycle_ok (snd (fst (f t))));
      cbv beta; clearbody t
  end.

Ltac finish_calls :=
  cbv beta iota zeta;
  lazymatch goal with
  | |- Forall _ (snd (fst (match ?x with _ => _ end))) =>
      let H := fresh in
      assert (H : Forall duty_cycle_ok (snd x))
        by first [apply update_motor_calls | apply set_power_calls];
      destruct x; exact H
  | _ => cbn [fst snd]; repeat first [apply Forall_nil_2 | apply Forall_cons_2; [exact I |]]
  end.

Lemma state_ramp_down_calls tm :
  Forall duty_cycle_ok (snd (fst (state_ramp_down tm))).
Proof.
  cbv beta delta [state_ramp_down].
  case_cmp; cbv beta iota; forget_let; finish_calls.
Qed.

Lemma process_state_calls tm :
  Forall duty_cycle_ok (snd (fst (process_state tm))).
Proof.
  unfold process_state. destruct (state tm).
  - cbv beta delta [state_setup_ramp_time]. repeat forget_let. finish_calls.
  - cbv beta delta [state_setup_ramp_time]. repeat forget_let. finish_calls.
  - cbv beta delta [state_setup_ramp_position]. repeat forget_let. finish_calls.
  - cbv beta delta [state_setup_ramp_regulation]. finish_calls.
  - cbv beta delta [state_ramp_up]. forget_let.
    case_cmp; cbv beta iota; forget_let; finish_calls.
  - cbv beta delta [state_ramp_const].
    destruct (run_mode tm).
    + finish_calls.
    + case_cmp; finish_calls.
    + cbv zeta. generalize (adjust_ramp_for_position tm). intros t.
      case_cmp; finish_calls.
  - cbv beta delta [state_position_ramp_down]. repeat forget_let.
    apply state_ramp_down_calls.
  - apply state_ramp_down_calls.
  - cbv beta delta [state_stop]. repeat forget_let. finish_calls.
  - cbv beta delta [state_idle]. finish_calls.
Qed.

Lemma reprocess_loop_calls (fuel : nat) :
  forall (tm tm' : ev3_tacho_motor_data) (calls : list effect),
    reprocess_loop fuel tm = Some (tm', calls) -> Forall duty_cycle_ok calls.
Proof.
  induction fuel as [| fuel IH]; intros tm tm' calls Hloop; [discriminate |].
  rewrite reprocess_loop_eq in Hloop.
  pose proof (process_state_calls tm) as Hstep.
  destruct (process_state tm) as [[tm1 calls1] rep]. cbn [fst snd] in *.
  destruct rep.
  - destruct (reprocess_loop fuel tm1) as [[tm2 calls2] |] eqn:Hrest;
      [| discriminate].
    injection Hloop as <- <-.
    apply Forall_app_2; [exact Hstep | apply (IH _ _ _ Hrest)].
  - injection Hloop as <- <-. exact Hstep.
Qed.

Lemma regulate_speed_calls tm :
  Forall duty_cycle_ok (snd (regulate_speed tm)).
Proof.
  rewrite regulate_speed_eq. cbv zeta.
  case_if; apply set_power_calls.
Qed.

Lemma regulate_position_calls tm :
  Forall duty_cycle_ok (snd (regulate_position tm)).
Proof. unfold regulate_position. cbv zeta. apply set_power_calls. Qed.

Lemma no_run_calls tm : Forall duty_cycle_ok (snd (no_run tm)).
Proof.
  unfold no_run. case_cmp; [| apply Forall_nil_2].
  destruct (stop_mode tm); cbn [snd];
    first [ apply regulate_position_calls
          | apply Forall_cons_2; [exact I | apply Forall_nil_2] ].
Qed.

Lemma timer_callback_calls (now : Z) (tm tm' : ev3_tacho_motor_data)
    (calls : list effect) :
  ev3_tacho_motor_timer_callback now tm = Some (tm', calls) ->
  Forall duty_cycle_ok calls.
Proof.
  rewrite timer_callback_eq. cbv zeta.
  generalize (snd (calculate_speed now tm)). intros tm0.
  destruct (0 =? run tm0).
  - intros [= H]. replace calls with (snd (no_run tm0)) by (rewrite H; reflexivity).
    apply no_run_calls.
  - destruct (reprocess_loop reprocess_fuel (advance_ramp_count tm0))
      as [[tm1 calls1] |] eqn:Hloop; [| discriminate].
    intros [= _ <-].
    apply Forall_app_2; [apply (reprocess_loop_calls _ _ _ _ Hloop) |].
    apply Forall_app_2; [| apply no_run_calls].
    destruct (negb (run tm1 =? 0)); [| apply Forall_nil_2].
    destruct (regulation_mode tm1);
      [apply Forall_nil_2 | apply regulate_speed_calls].
Qed.

(** ** The data invariant *)

Lemma isr_held i d t tm :
  held_through_edge (tacho_motor_isr i d t tm) = held_through_edge tm.
Proof.
  rewrite isr_unfold.
  unfold isr_commit, count_edge, isr_classify, bump_dir_chg_samples,
    uncount_edge, store_sample.
  repeat case_if; reflexivity.
Qed.

Lemma isr_classify_ring i d t tm :
  ring_ok tm ->
  length (tacho_samples (fst (fst (isr_classify i d t tm))))
  = Z.to_nat TACHO_SAMPLES
  /\ 0 <= snd (isr_classify i d t tm) < TACHO_SAMPLES.
Proof.
  intros [Hlen Hhead].
  pose proof (next_sample_in_ring (tacho_samples_head tm)) as Hnext.
  unfold isr_classify, bump_dir_chg_samples, uncount_edge, store_sample.
  repeat case_if; cbn; rewrite ?length_insert; split; assumption.
Qed.

Lemma isr_ring i d t tm :
  ring_ok tm ->
  ring_ok (tacho_motor_isr i d t tm)
  /\ sample_at (tacho_motor_isr i d t tm)
       (tacho_samples_head (tacho_motor_isr i d t tm))
     = C.uint t.
Proof.
  intros Hring.
  destruct (isr_classify_ring i (negb d) (C.uint t) tm Hring) as [Hlen Hnext].
  unfold ring_ok, sample_at.
  rewrite isr_unfold, isr_commit_head, isr_commit_samples.
  rewrite length_insert.
  split; [split; assumption |].
  apply list_lookup_total_insert_eq. rewrite Hlen.
  unfold TACHO_SAMPLES in *. lia.
Qed.

Lemma isr_dir_chg_samples i d t tm :
  0 <= dir_chg_samples tm < TACHO_SAMPLES ->
  0 <= dir_chg_samples (tacho_motor_isr i d t tm) < TACHO_SAMPLES.
Proof.
  intros H. rewrite isr_unfold.
  unfold isr_commit, count_edge, isr_classify, bump_dir_chg_samples,
    uncount_edge, store_sample.
  unfold TACHO_SAMPLES in *.
  repeat first [case_cmp | case_if]; cbn; wrap_lia.
Qed.

Lemma set_samples_per_speed_range (v : Z) (tm : ev3_tacho_motor_data) :
  2 <= samples_per_speed (set_samples_per_speed v tm) <= 64
  /\ dir_chg_samples (set_samples_per_speed v tm) = dir_chg_samples tm
  /\ got_new_sample (set_samples_per_speed v tm) = got_new_sample tm.
Proof.
  unfold set_samples_per_speed.
  repeat case_cmp; cbn; destruct (motor_type tm); cbn; repeat split; lia.
Qed.

(** The estimator keeps its two counters in range. *)
Lemma calculate_speed_counters (now : Z) (tm : ev3_tacho_motor_data) :
  0 <= dir_chg_samples tm < TACHO_SAMPLES ->
  2 <= samples_per_speed tm <= 64 ->
  0 <= dir_chg_samples (snd (calculate_speed now tm)) < TACHO_SAMPLES
  /\ 2 <= samples_per_speed (snd (calculate_speed now tm)) <= 64.
Proof.
  intros Hd Hs. unfold calculate_speed.
  set (tm1 := if dir_chg_samples tm >=? 1 then _ else tm).
  assert (H1 : 0 <= dir_chg_samples tm1 < TACHO_SAMPLES
               /\ 2 <= samples_per_speed tm1 <= 64).
  { subst tm1. case_cmp; [| split; assumption].
    match goal with
    | |- context [set_samples_per_speed ?v tm] =>
        destruct (set_samples_per_speed_range v tm) as (Hr & -> & _)
    end.
    split; assumption. }
  clearbody tm1. cbv zeta.
  destruct (got_new_sample tm1 && (dir_chg_samples tm1 >=? samples_per_speed tm1)).
  - cbn [snd]. destruct (command_eqb _ REVERSE); exact H1.
  - case_cmp; cbn [snd]; [| exact H1].
    cbn. unfold TACHO_SAMPLES. split; [lia | apply H1].
Qed.

Lemma tick_frame_fields tm t :
  tick_frame tm t ->
  tacho_samples t = tacho_samples tm
  /\ tacho_samples_head t = tacho_samples_head tm
  /\ speed t = speed tm
  /\ estop t = estop tm
  /\ (power_in_range tm -> power_in_range t).
Proof.
  intros [H P]. unfold held_through_tick in H. injection H. intros.
  repeat (split; [assumption |]). exact P.
Qed.

(** Within a tick the state machine only moves down its order. *)
Lemma timer_callback_rank (now : Z) (tm tm' : ev3_tacho_motor_data)
    (calls : list effect) :
  ev3_tacho_motor_timer_callback now tm = Some (tm', calls) ->
  (rank (state tm') <= rank (state tm))%nat.
Proof.
  rewrite timer_callback_eq. cbv zeta.
  pose proof (keeps_calculate_speed now tm) as (Hs0 & _ & _).
  set (tm0 := snd (calculate_speed now tm)) in *. clearbody tm0.
  rewrite <- Hs0.
  destruct (0 =? run tm0).
  - intros [= H].
    destruct (keeps_no_run tm0) as (Hs & _ & _). rewrite H in Hs. cbn in Hs.
    rewrite Hs. lia.
  - destruct (advance_ramp_count_shape tm0) as (Hsa & _ & _).
    destruct (reprocess_loop_shape reprocess_fuel (advance_ramp_count tm0)
                (rank_bound _))
      as (tm1 & calls1 & -> & _ & _ & _ & Hr).
    intros [= <- _].
    set (r := if negb (run tm1 =? 0) then _ else (tm1, [])).
    assert (Hk : keeps tm1 (fst (no_run (fst r)))).
    { apply (keeps_trans tm1 (fst r)); [| apply keeps_no_run].
      subst r. destruct (negb (run tm1 =? 0)); [| apply keeps_refl].
      destruct (regulation_mode tm1);
        [apply keeps_refl | apply keeps_regulate_speed]. }
    destruct Hk as (Hs2 & _ & _). rewrite Hs2, <- Hsa. exact Hr.
Qed.

Lemma rank_stopping (s : tm_state) :
  (rank s <= 1)%nat <-> s = TM_STATE_STOP \/ s = TM_STATE_IDLE.
Proof.
  destruct s; cbn; split; intros H; try lia; auto;
    destruct H; discriminate.
Qed.

Lemma timer_callback_sound (now : Z) (tm tm' : ev3_tacho_motor_data)
    (calls : list effect) :
  sound tm ->
  ev3_tacho_motor_timer_callback now tm = Some (tm', calls) ->
  sound tm'.
Proof.
  intros (Hring & Hspeed & Hpower & Hdcs & Hsps & Hrun & Hestop & Hidle) Hcb.
  pose proof (timer_callback_run _ _ _ _ Hcb) as (Hz & Hnz).
  destruct (tick_frame_fields tm tm' (timer_callback_frame _ _ _ _ Hcb))
    as (Hsam & Hhead & Hsp & Hes & Hpw).
  destruct (timer_callback_stages _ _ _ _ Hcb) as [Hm _].
  destruct (calculate_speed_counters now tm Hdcs Hsps) as (Hd' & Hs').
  apply (f_equal snd) in Hm. unfold held_by_machine in Hm. cbn [snd] in Hm.
  injection Hm as Hdd Hss _ _.
  unfold sound, ring_ok.
  rewrite Hsam, Hhead, Hsp, Hes, Hss, Hdd.
  split; [exact Hring |]. split; [exact Hspeed |]. split; [exact (Hpw Hpower) |].
  split; [exact Hd' |]. split; [exact Hs' |]. split; [| split].
  - destruct Hrun as [H0 | H1].
    + left. apply (Hz H0).
    + destruct (proj2 (Hnz ltac:(lia))) as [H | H]; [left | right]; lia.
  - intros Hne. apply rank_stopping.
    pose proof (timer_callback_rank _ _ _ _ Hcb) as Hr.
    apply Hestop, rank_stopping in Hne. lia.
  - intros Hi. destruct (Z.eq_dec (run tm) 0) as [H0 | H1].
    + apply (Hz H0).
    + apply (proj1 (Hnz H1)), Hi.
Qed.

Lemma isr_fields i d t tm :
  speed (tacho_motor_isr i d t tm) = speed tm
  /\ power (tacho_motor_isr i d t tm) = power tm
  /\ samples_per_speed (tacho_motor_isr i d t tm) = samples_per_speed tm
  /\ run (tacho_motor_isr i d t tm) = run tm
  /\ estop (tacho_motor_isr i d t tm) = estop tm
  /\ state (tacho_motor_isr i d t tm) = state tm
  /\ tacho (tacho_motor_isr i d t tm) = tacho tm.
Proof.
  pose proof (isr_held i d t tm) as H. unfold held_through_edge in H.
  injection H. intros. repeat (split; [assumption |]). assumption.
Qed.

Lemma isr_sound i d t tm : sound tm -> sound (tacho_motor_isr i d t tm).
Proof.
  intros (Hring & Hspeed & Hpower & Hdcs & Hsps & Hrest).
  destruct (isr_fields i d t tm) as (Hs & Hp & Hss & Hr & He & Hst & _).
  unfold sound, power_in_range. rewrite Hs, Hp, Hss, Hr, He, Hst.
  split; [apply (isr_ring i d t tm Hring) |].
  split; [exact Hspeed |]. split; [exact Hpower |].
  split; [apply isr_dir_chg_samples, Hdcs |].
  split; [exact Hsps | exact Hrest].
Qed.

Lemma sound_with_power (q : Z) tm :
  sound tm -> -100 <= q <= 100 -> sound (with_power q tm).
Proof.
  intros (Hring & Hspeed & Hpower & Hrest) Hq.
  split; [exact Hring |]. split; [exact Hspeed |]. split; [exact Hq | exact Hrest].
Qed.

Lemma update_output_sound tm :
  sound tm -> sound (fst (ev3_tacho_motor_update_output tm)).
Proof.
  intros Hs. destruct (update_output_touches_power tm) as (q & -> & Hq).
  apply sound_with_power; [exact Hs | apply Hq, Hs].
Qed.

Lemma set_run_not_idle (r : Z) tm :
  state (ev3_tacho_motor_set_run r tm) <> TM_STATE_IDLE.
Proof.
  unfold ev3_tacho_motor_set_run.
  destruct (negb (0 =? estop tm)); [discriminate |].
  destruct (0 =? r), (is_idle (state tm)) eqn:Hi; cbn [negb andb]; cbv zeta;
    try match goal with
      | |- context [match run_mode ?t with _ => _ end] => destruct (run_mode t)
      end;
    try discriminate.
  cbn. intros H. rewrite H in Hi. discriminate.
Qed.

Lemma set_run_estop (r : Z) tm :
  estop (ev3_tacho_motor_set_run r tm) = estop tm
  /\ (estop tm <> 0 -> state (ev3_tacho_motor_set_run r tm) = TM_STATE_STOP).
Proof.
  unfold ev3_tacho_motor_set_run.
  destruct (Z.eqb_spec 0 (estop tm)) as [He | He]; cbn [negb].
  - split; [| intros Hne; congruence].
    repeat case_if; cbv zeta;
      try match goal with
        | |- context [match run_mode ?t with _ => _ end] => destruct (run_mode t)
        end; reflexivity.
  - split; [reflexivity | intros _; reflexivity].
Qed.

(** A run request writes only the state, the run flag and the down
    window. *)
Lemma set_run_touches (r : Z) tm :
  exists s ds de,
    ev3_tacho_motor_set_run r tm
    = with_run 1 (with_state s (set_ramp_down_end de (set_ramp_down_start ds tm))).
Proof.
  assert (Hsame : forall s, with_state s tm
    = with_state s (set_ramp_down_end (ramp_down_end tm)
                      (set_ramp_down_start (ramp_down_start tm) tm))).
  { intros s.
    destruct tm as [? ? ? ? ? ? ? ? ? [[? ? ?] [? ? ?] ? ? ? ?]]; reflexivity. }
  assert (Hstate : tm = with_state (state tm) tm) by (destruct tm; reflexivity).
  unfold ev3_tacho_motor_set_run.
  repeat case_if; cbv zeta;
    try match goal with
      | |- context [match run_mode ?t with _ => _ end] => destruct (run_mode t)
      end;
    first [ eexists _, _, _; reflexivity
          | eexists _, _, _; rewrite <- Hsame; reflexivity
          | eexists (state tm), _, _; rewrite <- Hsame, <- Hstate; reflexivity ].
Qed.

Lemma set_run_sound (r : Z) tm : sound tm -> sound (ev3_tacho_motor_set_run r tm).
Proof.
  intros (Hring & Hspeed & Hpower & Hdcs & Hsps & Hrun & Hestop & Hidle).
  pose proof (set_run_not_idle r tm) as Hni.
  destruct (set_run_estop r tm) as (He & Hst).
  unfold sound. rewrite He.
  destruct (set_run_touches r tm) as (s & ds & de & Heq).
  rewrite Heq in Hni, Hst |- *.
  split; [exact Hring |]. split; [exact Hspeed |]. split; [exact Hpower |].
  split; [exact Hdcs |]. split; [exact Hsps |].
  split; [right; reflexivity |].
  split; [intros Hne; left; apply Hst, Hne | intros Hi; contradiction].
Qed.

Lemma set_estop_sound (words : list Z) (v : Z) tm tm' :
  sound tm -> ev3_tacho_motor_set_estop words v tm = Some tm' -> sound tm'.
Proof.
  intros Hs.
  pose proof Hs as (Hring & Hspeed & Hpower & Hdcs & Hsps & Hrun & _ & Hidle).
  unfold ev3_tacho_motor_set_estop.
  destruct (0 =? estop tm).
  - cbv zeta. destruct (draw_estop_key _ _) as [key |]; [| discriminate].
    intros [= <-].
    repeat (split; [assumption |]).
    split; [intros _; left; reflexivity | discriminate].
  - destruct (v =? estop tm); intros [= <-]; [| exact Hs].
    repeat (split; [assumption |]).
    split; [intros Hne; contradiction Hne; reflexivity | exact Hidle].
Qed.

Lemma reset_sound (id : motor_type_id) tm : sound (ev3_tacho_motor_reset id tm).
Proof.
  unfold sound, ring_ok, power_in_range, TACHO_SAMPLES. cbn.
  rewrite length_replicate.
  repeat split; lia.
Qed.

Lemma apply_operation_sound (op : operation) (tm tm' : ev3_tacho_motor_data) :
  apply_operation op tm = Some tm' -> sound tm -> sound tm'.
Proof.
  intros Happ Hs.
  destruct op; cbn [apply_operation] in Happ;
    try (injection Happ as <-; exact Hs).
  - injection Happ as <-. destruct type; exact Hs.
  - injection Happ as <-. apply (update_output_sound (with_polarity_mode p tm)).
    exact Hs.
  - injection Happ as <-. apply set_run_sound, Hs.
  - apply (set_estop_sound _ _ _ _ Hs Happ).
  - injection Happ as <-. apply reset_sound.
  - injection Happ as <-. apply isr_sound, Hs.
  - destruct (ev3_tacho_motor_timer_callback hires_timer tm)
      as [[tm1 calls] |] eqn:Hcb; [| discriminate].
    injection Happ as <-. apply (timer_callback_sound _ _ _ _ Hs Hcb).
Qed.

Lemma run_operations_sound (ops : list operation) :
  forall tm tm' : ev3_tacho_motor_data,
    run_operations tm ops = Some tm' -> sound tm -> sound tm'.
Proof.
  induction ops as [| op ops IH]; intros tm tm' Hrun Hs; cbn in Hrun.
  - injection Hrun as <-. exact Hs.
  - destruct (apply_operation op tm) as [tm1 |] eqn:Hop; [| discriminate].
    apply (IH tm1 tm' Hrun), (apply_operation_sound op tm tm1 Hop Hs).
Qed.

(** Every motor data reachable from attach satisfies the invariant. *)
Lemma reachable_sound (tm : ev3_tacho_motor_data) : reachable tm -> sound tm.
Proof.
  intros (id & ops & Hrun).
  apply (run_operations_sound ops _ _ Hrun). apply reset_sound.
Qed.

(** ** Properties of the edge handler *)

(** X1: the edge handler keeps the sample ring well formed.  From motor
    data whose ring has its 128 slots and a head inside them, whatever
    the line levels and the timer reading, the ring still has 128 slots
    and a head inside them after the handler, and the slot at the head
    holds the timer reading of this edge (as an unsigned 32-bit value). *)
Theorem edge_keeps_ring (tacho_int_gpio tacho_dir_gpio : bool)
    (hires_timer : Z) (tm : ev3_tacho_motor_data) :
  ring_ok tm ->
  ring_ok (tacho_motor_isr tacho_int_gpio tacho_dir_gpio hires_timer tm)
  /\ sample_at (tacho_motor_isr tacho_int_gpio tacho_dir_gpio hires_timer tm)
       (tacho_samples_head
          (tacho_motor_isr tacho_int_gpio tacho_dir_gpio hires_timer tm))
     = C.uint hires_timer.
Proof. apply isr_ring. Qed.

Lemma edge_keeps_ring_witness :
  ring_ok fresh_motor
  /\ ring_ok edge_a
  /\ sample_at edge_a (tacho_samples_head edge_a) = C.uint 1000000.
Proof.
  assert (H : ring_ok fresh_motor)
    by (split; [reflexivity | simpl; unfold TACHO_SAMPLES; lia]).
  split; [exact H |].
  exact (edge_keeps_ring true false 1000000 fresh_motor H).
Defined.

(** X2: what the edge handler never writes.  Whatever the line levels and
    the timer reading, an encoder edge leaves the state of the state
    machine, the run flag, the commanded power, the ramp, the PID data,
    the setpoint of the regulator, the emergency-stop key, the motor
    model, the base position [tacho], the measured and the estimated
    speed, the samples-per-speed setting and every setpoint and mode of
    the user as they were: it writes only the ring, its head, the
    direction, the live position delta, the direction-change counter, the
    new-sample flag and its own lock. *)
Theorem edge_writes_only_sensing (tacho_int_gpio tacho_dir_gpio : bool)
    (hires_timer : Z) (tm : ev3_tacho_motor_data) :
  held_through_edge (tacho_motor_isr tacho_int_gpio tacho_dir_gpio hires_timer tm)
  = held_through_edge tm.
Proof. apply isr_held. Qed.

(** ** Properties of a tick *)

(** X3: what the timer callback never writes.  From any motor data and
    for any timer reading the callback returns, and it leaves the sample
    ring and its head, the direction, the measured speed, the
    emergency-stop key, the motor model, the six setpoints and six modes
    of the user and the four regulator constants as they were; the
    position reading [tacho + irq_tacho] is unchanged too, also in the
    pass through Stop that folds the live delta into the base. *)
Theorem tick_keeps_settings (hires_timer : Z) (tm : ev3_tacho_motor_data) :
  exists tm' calls,
    ev3_tacho_motor_timer_callback hires_timer tm = Some (tm', calls)
    /\ held_through_tick tm' = held_through_tick tm.
Proof.
  destruct (timer_callback_shape hires_timer tm) as (tm' & calls & Heq & _).
  exists tm', calls. split; [exact Heq |].
  apply (timer_callback_frame _ _ _ _ Heq).
Qed.

(** X4: every duty cycle a tick hands to the port driver is a
    percentage.  From any motor data and for any timer reading, each
    [set_duty_cycle] call the callback makes carries a value within
    [0, 100], however large the setpoints and the PID terms are; and a
    commanded power within [-100, 100] before the tick is within
    [-100, 100] after it. *)
Theorem tick_duty_cycles_are_percentages (hires_timer : Z)
    (tm : ev3_tacho_motor_data) :
  exists tm' calls,
    ev3_tacho_motor_timer_callback hires_timer tm = Some (tm', calls)
    /\ Forall duty_cycle_ok calls
    /\ (power_in_range tm -> power_in_range tm').
Proof.
  destruct (timer_callback_shape hires_timer tm) as (tm' & calls & Heq & _).
  exists tm', calls. split; [exact Heq |].
  split; [apply (timer_callback_calls _ _ _ _ Heq) |].
  apply (timer_callback_frame _ _ _ _ Heq).
Qed.

(** ** Properties of every reachable motor data *)

Lemma arming_operations_run :
  run_operations fresh_motor arming_operations = Some armed_motor.
Proof. vm_compute. reflexivity. Qed.

Lemma armed_motor_reachable : reachable armed_motor.
Proof.
  exists TACHO_MOTOR_EV3_LARGE, arming_operations. exact arming_operations_run.
Defined.

(** X5: the commanded power is always a percentage.  In every motor data
    reachable from attach by any sequence of attribute writes, encoder
    edges and timer ticks, the duty cycle the driver reports is within
    [-100, 100]. *)
Theorem reachable_power_in_range (tm : ev3_tacho_motor_data) :
  reachable tm -> -100 <= ev3_tacho_motor_get_duty_cycle tm <= 100.
Proof. intros H. apply (reachable_sound tm H). Qed.

Lemma reachable_power_in_range_witness :
  -100 <= ev3_tacho_motor_get_duty_cycle armed_motor <= 100.
Proof. exact (reachable_power_in_range armed_motor armed_motor_reachable). Defined.

(** X6: an armed emergency stop keeps the motor from running.  In every
    motor data reachable from attach in which the emergency-stop key is
    not 0, the state machine is in Stop or in Idle: no run request
    written while the stop is armed starts a ramp. *)
Theorem reachable_estop_holds (tm : ev3_tacho_motor_data) :
  reachable tm -> ev3_tacho_motor_get_estop tm <> 0 ->
  ev3_tacho_motor_get_state tm = TM_STATE_STOP
  \/ ev3_tacho_motor_get_state tm = TM_STATE_IDLE.
Proof. intros H. apply (reachable_sound tm H). Qed.

Lemma reachable_estop_holds_witness :
  ev3_tacho_motor_get_state armed_motor = TM_STATE_STOP
  \/ ev3_tacho_motor_get_state armed_motor = TM_STATE_IDLE.
Proof.
  apply (reachable_estop_holds armed_motor armed_motor_reachable).
  vm_compute. discriminate.
Defined.

(** X7: the measured-speed member is only ever set to 0 (by reset), so
    the edge handler never takes its high-speed shortcut.  In every motor
    data reachable from attach [speed] is 0, and so for all line levels
    and timer readings the direction the handler stores is the one
    decoded from the two lines through the polarity table. *)
Theorem reachable_edges_decode (tm : ev3_tacho_motor_data) :
  reachable tm ->
  speed tm = 0
  /\ forall (tacho_int_gpio tacho_dir_gpio : bool) (hires_timer : Z),
       run_direction
         (tacho_motor_isr tacho_int_gpio tacho_dir_gpio hires_timer tm)
       = through_polarity
           (polarity_table (polarity_mode tm) (encoder_mode tm))
           (compare_lines tacho_int_gpio tacho_dir_gpio).
Proof.
  intros H. destruct (reachable_sound tm H) as (_ & Hspeed & _).
  split; [exact Hspeed |]. intros i d t.
  assert (Hlow : low_speed tm) by (unfold low_speed; lia).
  rewrite isr_unfold, isr_commit_run_direction.
  rewrite (isr_classify_direction _ _ _ _ Hlow).
  apply resolve_direction_table.
Qed.

Lemma reachable_edges_decode_witness :
  speed armed_motor = 0
  /\ forall (tacho_int_gpio tacho_dir_gpio : bool) (hires_timer : Z),
       run_direction
         (tacho_motor_isr tacho_int_gpio tacho_dir_gpio hires_timer armed_motor)
       = through_polarity
           (polarity_table (polarity_mode armed_motor) (encoder_mode armed_motor))
           (compare_lines tacho_int_gpio tacho_dir_gpio).
Proof. exact (reachable_edges_decode armed_motor armed_motor_reachable). Defined.

(** X8: the sensing data stays in bounds.  In every motor data reachable
    from attach the sample ring has its 128 slots and a head inside
    them, the direction-change counter is within [0, 127], and the
    number of samples the speed estimate spans is within [2, 64], less
    than the ring holds. *)
Theorem reachable_sensing_in_bounds (tm : ev3_tacho_motor_data) :
  reachable tm ->
  ring_ok tm
  /\ 0 <= dir_chg_samples tm < TACHO_SAMPLES
  /\ 2 <= samples_per_speed tm <= 64.
Proof.
  intros H.
  destruct (reachable_sound tm H) as (Hring & _ & _ & Hdcs & Hsps & _).
  repeat split; first [apply Hring | apply Hdcs | apply Hsps].
Qed.

Lemma reachable_sensing_in_bounds_witness :
  ring_ok armed_motor
  /\ 0 <= dir_chg_samples armed_motor < TACHO_SAMPLES
  /\ 2 <= samples_per_speed armed_motor <= 64.
Proof. exact (reachable_sensing_in_bounds armed_motor armed_motor_reachable). Defined.



(** ** Stopping *)

Lemma set_power_zero (t : ev3_tacho_motor_data) :
  fst (ev3_tacho_motor_set_power 0 t) = with_power 0 t.
Proof.
  unfold ev3_tacho_motor_set_power.
  destruct (Z.eqb_spec (power t) 0) as [H | H].
  - rewrite <- H. symmetry. apply with_power_same.
  - unfold ev3_tacho_motor_update_output. reflexivity.
Qed.

(** The Stop pass: the power request is 0, the regulator is cleared and
    the machine goes to Idle. *)
Lemma state_stop_result tm :
  exists t' calls,
    state_stop tm = (t', calls, true)
    /\ state t' = TM_STATE_IDLE /\ run t' = run tm
    /\ power t' = 0 /\ speed_reg_sp t' = 0
    /\ pid_P (pid t') = 0 /\ pid_I (pid t') = 0 /\ pid_D (pid t') = 0.
Proof.
  cbv beta delta [state_stop].
  destruct (run_mode tm); cbv zeta;
    match goal with
    | |- context [ev3_tacho_motor_set_power 0 ?T] =>
        pose proof (set_power_zero T) as Hz;
        destruct (ev3_tacho_motor_set_power 0 T) as [u c];
        cbn [fst] in Hz; subst u
    end; eexists _, _; (split; [reflexivity |]); cbn; repeat split.
Qed.

(** From Stop the loop takes two passes and settles in Idle. *)
Lemma loop_from_stop (fuel : nat) (tm : ev3_tacho_motor_data) :
  state tm = TM_STATE_STOP ->
  exists tm' calls,
    reprocess_loop (S (S fuel)) tm = Some (tm', calls)
    /\ state tm' = TM_STATE_IDLE /\ run tm' = 0
    /\ power tm' = 0 /\ speed_reg_sp tm' = 0
    /\ pid_P (pid tm') = 0 /\ pid_I (pid tm') = 0 /\ pid_D (pid tm') = 0
    /\ In schedule_work_notify_state_change calls.
Proof.
  intros Hs.
  rewrite reprocess_loop_eq, (process_state_at tm _ Hs).
  destruct (state_stop_result tm)
    as (t' & calls & -> & Hi & _ & Hp & Hsp & HP & HI & HD).
  cbn [fst snd].
  rewrite reprocess_loop_eq, (process_state_at t' _ Hi).
  unfold state_idle. cbn [fst snd].
  eexists _, _. split; [reflexivity |]. cbn [state run power speed_reg_sp pid].
  cbn. repeat (split; [assumption || reflexivity |]).
  apply in_or_app. right. left. reflexivity.
Qed.

Lemma frame_fields tm t :
  held_through_tick t = held_through_tick tm ->
  stop_mode t = stop_mode tm
  /\ regulation_mode t = regulation_mode tm
  /\ run_mode t = run_mode tm
  /\ estop t = estop tm
  /\ ev3_tacho_motor_get_position t = ev3_tacho_motor_get_position tm.
Proof.
  intros H. unfold held_through_tick in H. injection H. intros.
  repeat (split; [assumption |]). assumption.
Qed.

(** A tick of a running motor whose loop settles with the run flag
    clear, in stop mode Coast or Brake: nothing is written after the
    loop. *)
Lemma timer_callback_settles (now : Z) (tm tm1 : ev3_tacho_motor_data)
    (calls1 : list effect) :
  run tm <> 0 -> stop_mode tm <> TM_STOP_HOLD ->
  reprocess_loop reprocess_fuel
    (advance_ramp_count (snd (calculate_speed now tm)))
  = Some (tm1, calls1) ->
  run tm1 = 0 ->
  exists calls,
    ev3_tacho_motor_timer_callback now tm = Some (tm1, calls)
    /\ (forall e, In e calls1 -> In e calls).
Proof.
  intros Hrun Hmode Hloop Hrun1.
  rewrite timer_callback_eq. cbv zeta.
  pose proof (keeps_calculate_speed now tm) as (_ & Hr0 & _).
  destruct (tick_frame_calculate_speed now tm) as [Hh0 _].
  set (tm0 := snd (calculate_speed now tm)) in *. clearbody tm0.
  destruct (Z.eqb_spec 0 (run tm0)) as [Hz | _]; [congruence |].
  rewrite Hloop.
  destruct (machine_frame_tick_frame _ _
              (machine_frame_trans _ _ _ (machine_frame_advance tm0)
                 (reprocess_loop_frame _ _ _ _ Hloop))) as [Hh1 _].
  destruct (frame_fields _ _ Hh0) as (Hsm0 & _).
  destruct (frame_fields _ _ Hh1) as (Hsm1 & _).
  rewrite Hrun1. cbn [Z.eqb negb fst snd].
  unfold no_run. rewrite Hrun1. cbn [Z.eqb].
  assert (Hm1 : stop_mode tm1 <> TM_STOP_HOLD) by congruence.
  destruct (stop_mode tm1); [| | contradiction];
    cbn [fst snd]; eexists; (split; [reflexivity |]);
    intros e He; apply in_or_app; left; exact He.
Qed.

(** A tick that starts in Stop, in stop mode Coast or Brake. *)
Lemma tick_from_stop (now : Z) (tm : ev3_tacho_motor_data) :
  state tm = TM_STATE_STOP -> run tm <> 0 -> stop_mode tm <> TM_STOP_HOLD ->
  exists tm' calls,
    ev3_tacho_motor_timer_callback now tm = Some (tm', calls)
    /\ state tm' = TM_STATE_IDLE /\ run tm' = 0
    /\ power tm' = 0 /\ speed_reg_sp tm' = 0
    /\ pid_P (pid tm') = 0 /\ pid_I (pid tm') = 0 /\ pid_D (pid tm') = 0
    /\ In schedule_work_notify_state_change calls.
Proof.
  intros Hs Hrun Hmode.
  pose proof (keeps_calculate_speed now tm) as (Hs0 & _ & _).
  assert (Hadv : advance_ramp_count (snd (calculate_speed now tm))
                 = snd (calculate_speed now tm)).
  { unfold advance_ramp_count. rewrite Hs0, Hs. reflexivity. }
  destruct (loop_from_stop 6 (snd (calculate_speed now tm)))
    as (tm' & calls1 & Hloop & Hfacts); [congruence |].
  destruct (timer_callback_settles now tm tm' calls1 Hrun Hmode)
    as (calls & Hcb & Hin).
  - rewrite Hadv. exact Hloop.
  - apply Hfacts.
  - exists tm', calls. split; [exact Hcb |].
    destruct Hfacts as (H1 & H2 & H3 & H4 & H5 & H6 & H7 & H8).
    repeat (split; [assumption |]). apply Hin, H8.
Qed.

(** X10: a tick that starts in Stop ends in Idle with the motor
    released.  With the run flag set and stop mode Coast or Brake, the
    callback returns with the state Idle, the run flag 0, the commanded
    power 0, the regulator setpoint and the three PID terms 0; the
    position reading is what it was, and the state-change notification
    is among the calls made. *)
Theorem stop_tick_idles (hires_timer : Z) (tm : ev3_tacho_motor_data) :
  state tm = TM_STATE_STOP -> run tm <> 0 -> stop_mode tm <> TM_STOP_HOLD ->
  exists tm' calls,
    ev3_tacho_motor_timer_callback hires_timer tm = Some (tm', calls)
    /\ ev3_tacho_motor_get_state tm' = TM_STATE_IDLE
    /\ ev3_tacho_motor_get_run tm' = 0
    /\ ev3_tacho_motor_get_duty_cycle tm' = 0
    /\ speed_reg_sp tm' = 0
    /\ pid_P (pid tm') = 0 /\ pid_I (pid tm') = 0 /\ pid_D (pid tm') = 0
    /\ ev3_tacho_motor_get_position tm' = ev3_tacho_motor_get_position tm
    /\ In schedule_work_notify_state_change calls.
Proof.
  intros Hs Hrun Hmode.
  destruct (tick_from_stop hires_timer tm Hs Hrun Hmode)
    as (tm' & calls & Hcb & H1 & H2 & H3 & H4 & H5 & H6 & H7 & H8).
  exists tm', calls. split; [exact Hcb |].
  destruct (timer_callback_frame _ _ _ _ Hcb) as [Hh _].
  destruct (frame_fields _ _ Hh) as (_ & _ & _ & _ & Hpos).
  unfold ev3_tacho_motor_get_state, ev3_tacho_motor_get_run,
    ev3_tacho_motor_get_duty_cycle.
  repeat (split; [assumption |]). exact H8.
Qed.

Lemma stop_tick_idles_witness :
  exists tm' calls,
    ev3_tacho_motor_timer_callback 0 armed_motor = Some (tm', calls)
    /\ ev3_tacho_motor_get_state tm' = TM_STATE_IDLE
    /\ ev3_tacho_motor_get_run tm' = 0
    /\ ev3_tacho_motor_get_duty_cycle tm' = 0
    /\ speed_reg_sp tm' = 0
    /\ pid_P (pid tm') = 0 /\ pid_I (pid tm') = 0 /\ pid_D (pid tm') = 0
    /\ ev3_tacho_motor_get_position tm'
       = ev3_tacho_motor_get_position armed_motor
    /\ In schedule_work_notify_state_change calls.
Proof.
  apply (stop_tick_idles 0 armed_motor); vm_compute;
    [reflexivity | discriminate | discriminate].
Defined.

(** X11: a run request written while the emergency stop is armed stops
    the motor.  Whatever value is written to [run] while the key is not
    0, and in stop mode Coast or Brake, the tick that follows returns
    with the state Idle, the run flag 0 and the commanded power 0. *)
Theorem estop_run_request_stops (run_arg hires_timer : Z)
    (tm : ev3_tacho_motor_data) :
  ev3_tacho_motor_get_estop tm <> 0 -> stop_mode tm <> TM_STOP_HOLD ->
  exists tm' calls,
    ev3_tacho_motor_timer_callback hires_timer
      (ev3_tacho_motor_set_run run_arg tm)
    = Some (tm', calls)
    /\ ev3_tacho_motor_get_state tm' = TM_STATE_IDLE
    /\ ev3_tacho_motor_get_run tm' = 0
    /\ ev3_tacho_motor_get_duty_cycle tm' = 0.
Proof.
  intros He Hmode.
  destruct (set_run_estop run_arg tm) as (_ & Hs).
  assert (Hm : stop_mode (ev3_tacho_motor_set_run run_arg tm) = stop_mode tm).
  { destruct (set_run_touches run_arg tm) as (s & ds & de & ->). reflexivity. }
  destruct (tick_from_stop hires_timer (ev3_tacho_motor_set_run run_arg tm))
    as (tm' & calls & Hcb & H1 & H2 & H3 & _).
  - apply Hs, He.
  - rewrite set_run_sets_run. discriminate.
  - rewrite Hm. exact Hmode.
  - exists tm', calls. repeat (split; [assumption |]). exact H3.
Qed.

Lemma estop_run_request_stops_witness :
  exists tm' calls,
    ev3_tacho_motor_timer_callback 0 (ev3_tacho_motor_set_run 1 armed_motor)
    = Some (tm', calls)
    /\ ev3_tacho_motor_get_state tm' = TM_STATE_IDLE
    /\ ev3_tacho_motor_get_run tm' = 0
    /\ ev3_tacho_motor_get_duty_cycle tm' = 0.
Proof.
  apply (estop_run_request_stops 1 0 armed_motor); vm_compute; discriminate.
Defined.

(** ** A stop request *)


(** The RampDown pass once the counter has reached the end of the down
    window. *)
Lemma state_ramp_down_done t :
  ramp_down_end t <= ramp_count t ->
  exists t' calls,
    state_ramp_down t = (t', calls, true) /\ state t' = TM_STATE_STOP.
Proof.
  intros H. cbv beta delta [state_ramp_down].
  destruct (Z.geb_spec (ramp_count t) (ramp_down_end t)); [| lia].
  cbv beta iota zeta.
  match goal with
  | |- context [update_motor_speed_or_power ?p ?T] =>
      destruct (update_motor_touches p T) as (q & z & Hu);
      destruct (update_motor_speed_or_power p T) as [u c];
      cbn [fst] in Hu; subst u
  end.
  eexists _, _. split; reflexivity.
Qed.


Lemma loop_ramp_down_done (fuel : nat) (tm : ev3_tacho_motor_data) :
  state tm = TM_STATE_RAMP_DOWN -> ramp_down_end tm <= ramp_count tm ->
  exists tm' calls,
    reprocess_loop (S (S (S fuel))) tm = Some (tm', calls)
    /\ state tm' = TM_STATE_IDLE /\ run tm' = 0 /\ power tm' = 0.
Proof.
  intros Hs Hc.
  rewrite reprocess_loop_eq, (process_state_at tm _ Hs).
  destruct (state_ramp_down_done tm Hc) as (t1 & calls1 & -> & Hs1).
  cbn [fst snd].
  destruct (loop_from_stop fuel t1 Hs1)
    as (tm' & calls & -> & H1 & H2 & H3 & _).
  eexists _, _. split; [reflexivity |]. repeat split; assumption.
Qed.


Lemma regulate_speed_ramp t : ramp (fst (regulate_speed t)) = ramp t.
Proof.
  rewrite regulate_speed_eq. cbv zeta.
  destruct (regulate_speed_terms_touches t) as (z & a & b & c & d & Ht).
  set (t1 := fst (fst (regulate_speed_terms t))) in *. clearbody t1. subst t1.
  rewrite fst_if.
  repeat case_if;
    match goal with
    | |- context [ev3_tacho_motor_set_power ?p ?T] =>
        destruct (set_power_touches_power p T) as (q & -> & _)
    end; reflexivity.
Qed.




(** ** The regulator, the estimator and the ramp profile *)



Lemma lor_one_positive (x : Z) : 0 <= x -> 1 <= Z.lor x 1.
Proof.
  intros H.
  assert (0 <= Z.lor x 1) by (apply Z.lor_nonneg; lia).
  destruct (Z.eq_dec (Z.lor x 1) 0) as [E | E]; [| lia].
  apply Z.lor_eq_0_iff in E. lia.
Qed.

(** X14: the estimated speed has the sign of the direction of travel.
    With a samples-per-speed setting within [2, 64] (as it is in every
    reachable motor data), whenever [calculate_speed] reports a new
    value the pulse rate it leaves is within [-2 112 000 000, 0] if the
    direction is REVERSE and within [0, 2 112 000 000] otherwise. *)
Theorem estimated_speed_sign (hires_timer : Z) (tm : ev3_tacho_motor_data) :
  2 <= samples_per_speed tm <= 64 ->
  fst (calculate_speed hires_timer tm) = true ->
  (run_direction tm = REVERSE ->
   -2112000000
   <= ev3_tacho_motor_get_pulses_per_second
        (snd (calculate_speed hires_timer tm))
   <= 0)
  /\ (run_direction tm <> REVERSE ->
      0 <= ev3_tacho_motor_get_pulses_per_second
             (snd (calculate_speed hires_timer tm))
        <= 2112000000).
Proof.
  intros Hs. unfold calculate_speed, ev3_tacho_motor_get_pulses_per_second.
  set (tm1 := if dir_chg_samples tm >=? 1 then _ else tm).
  assert (H1 : 2 <= samples_per_speed tm1 <= 64
               /\ run_direction tm1 = run_direction tm).
  { subst tm1. case_cmp; [| split; [exact Hs | reflexivity]].
    match goal with
    | |- context [set_samples_per_speed ?v tm] =>
        destruct (set_samples_per_speed_range v tm) as (Hr & _);
        split; [exact Hr |];
        unfold set_samples_per_speed; repeat case_cmp; reflexivity
    end. }
  destruct H1 as (Hs1 & Hd1). clearbody tm1. cbv zeta.
  destruct (got_new_sample tm1 && (dir_chg_samples tm1 >=? samples_per_speed tm1)).
  - intros _. cbn [snd fst].
    match goal with
    | |- context [C.sint (C.udiv ?a (Z.lor ?D 1))] =>
        assert (Hq : 0 <= C.sint (C.udiv a (Z.lor D 1)) <= 2112000000)
    end.
    { match goal with
      | |- context [Z.lor ?D 1] =>
          pose proof (lor_one_positive D ltac:(unfold C.usub, C.uint;
            apply Z.mod_pos_bound; reflexivity)) as HD;
          set (q := Z.lor D 1) in *; clearbody q
      end.
      assert (Hm : C.uint (C.mul 33000000 (samples_per_speed tm1))
                   = 33000000 * samples_per_speed tm1).
      { unfold C.mul. rewrite sint_id by (unwrap; lia).
        apply uint_id. unwrap. lia. }
      rewrite Hm. unfold C.udiv.
      assert (0 <= 33000000 * samples_per_speed tm1 ÷ q
              <= 33000000 * samples_per_speed tm1).
      { split; [apply Z.quot_pos; lia |].
        rewrite Z.quot_div_nonneg by lia.
        apply Z.div_le_upper_bound; nia. }
      rewrite sint_id by (unwrap; lia). lia. }
    match type of Hq with
    | 0 <= ?v <= _ => set (pps := v) in *; clearbody pps
    end.
    cbn. rewrite Hd1. unfold command_eqb.
    destruct (bool_decide_reflect (run_direction tm = REVERSE)) as [E | E];
      cbn; (split; intros Hrev; [| try contradiction]); try contradiction;
      try lia.
    unfold C.neg. rewrite sint_id by (unwrap; lia). lia.
  - case_cmp; cbn [fst snd]; [| discriminate].
    intros _. cbn. split; intros _; lia.
Qed.

Lemma estimated_speed_sign_witness :
  ev3_tacho_motor_get_pulses_per_second
    (snd (calculate_speed 1600000 spinning_motor)) = 329
  /\ 0 <= ev3_tacho_motor_get_pulses_per_second
            (snd (calculate_speed 1600000 spinning_motor))
       <= 2112000000.
Proof.
  split; [vm_compute; reflexivity |].
  apply (estimated_speed_sign 1600000 spinning_motor); vm_compute;
    first [reflexivity | discriminate | (split; discriminate)].
Defined.

(** X15: the ramp progress never decreases with the elapsed time and
    never exceeds 100.  For elapsed times 0 <= n1 <= n2 whose product
    with 100 fits an [int] and any window length, the progress at n1 is
    at least 0, at most the progress at n2, and that is at most 100. *)
Theorem ramp_progress_monotone (n1 n2 window : Z) :
  0 <= n1 <= n2 -> n2 <= 21474836 ->
  0 <= calculate_ramp_progress n1 window
    <= calculate_ramp_progress n2 window
  /\ calculate_ramp_progress n2 window <= 100.
Proof.
  intros H12 Hmax. unfold calculate_ramp_progress.
  assert (Ha : forall n, 0 <= n <= 21474836 -> C.add n 2 = n + 2)
    by (intros n Hn; unfold C.add; apply sint_id; unwrap; lia).
  assert (Hq : forall n, 0 <= n <= 21474836 -> n + 2 < window ->
                 C.div (C.mul n 100) window = n * 100 ÷ window
                 /\ 0 <= n * 100 ÷ window < 100).
  { intros n Hn Hw.
    assert (Hb : 0 <= n * 100 ÷ window < 100).
    { split; [apply Z.quot_pos; lia |].
      apply Z.quot_lt_upper_bound; lia. }
    split; [| exact Hb].
    unfold C.div, C.mul. rewrite (sint_id (n * 100)) by (unwrap; lia).
    apply sint_id. unwrap. lia. }
  rewrite !Ha by lia.
  destruct (Z.leb_spec window (n1 + 2)) as [H1 | H1];
    destruct (Z.leb_spec window (n2 + 2)) as [H2 | H2]; try lia.
  - destruct (Z.eqb_spec 0 window); [lia |].
    destruct (Hq n1 ltac:(lia) H1) as (-> & Hb). lia.
  - destruct (Z.eqb_spec 0 window); [lia |].
    destruct (Hq n1 ltac:(lia) H1) as (-> & Hb1).
    destruct (Hq n2 ltac:(lia) H2) as (-> & Hb2).
    split; [| lia]. split; [lia |].
    apply Z.quot_le_mono; lia.
Qed.

Lemma ramp_progress_monotone_witness :
  0 <= calculate_ramp_progress 100 250 <= calculate_ramp_progress 200 250
  /\ calculate_ramp_progress 200 250 <= 100.
Proof. apply (ramp_progress_monotone 100 200 250); lia. Defined.

(** X16: the windows a timed run is set up with never overlap.  From any
    motor data, the pass through RunForever or SetupRampTime makes no
    call, asks for another pass, goes to SetupRampRegulation, and leaves
    the up window starting at 0 and ending no later than the down window
    starts, whatever the setpoints are (the two windows are cut to meet
    when the ramps do not fit the run time). *)
Theorem setup_ramp_windows_ordered (tm : ev3_tacho_motor_data) :
  exists t,
    state_setup_ramp_time tm = (t, [], true)
    /\ state t = TM_STATE_SETUP_RAMP_REGULATION
    /\ ramp_up_start t = 0
    /\ ramp_up_end t <= ramp_down_start t.
Proof.
  destruct tm as [? ? ? ? ? ? ? ? ? [[? ? ?] [? ? ?] ? ? ? ?] ? ? ? ? ? ? ? ? ? ? ?
                    ? ? ? ? ? ? ? ? ? ? ? ?].
  unfold state_setup_ramp_time. cbn.
  repeat match goal with
    | |- context [match ?m with _ => _ end] => is_var m; destruct m; cbn
    end;
    case_cmp; eexists; (split; [reflexivity |]); cbn;
    (split; [reflexivity |]); (split; [reflexivity |]); lia.
Qed.

(** ** A tick of an idle motor *)

(** A tick of a motor that is not running, in stop mode Coast or Brake. *)
Lemma tick_not_running (now : Z) (tm : ev3_tacho_motor_data) :
  run tm = 0 -> stop_mode tm <> TM_STOP_HOLD ->
  exists a b c d command,
    ev3_tacho_motor_timer_callback now tm
    = Some (with_got_new_sample c
              (with_pulses_per_second b
                 (with_dir_chg_samples d (with_samples_per_speed a tm))),
            [set_command command])
    /\ command = match stop_mode tm with
                 | TM_STOP_COAST => DC_MOTOR_COMMAND_COAST
                 | _ => DC_MOTOR_COMMAND_BRAKE
                 end.
Proof.
  intros Hrun Hmode. rewrite timer_callback_eq. cbv zeta.
  destruct (calculate_speed_touches now tm) as (a & b & c & d & ->).
  cbn. rewrite Hrun. cbn [Z.eqb].
  unfold no_run. cbn. rewrite Hrun. cbn [Z.eqb].
  destruct (stop_mode tm); [| | contradiction];
    eexists a, b, c, d, _; split; reflexivity.
Qed.

(** X17: a tick of a motor that is not running, in stop mode Coast or
    Brake, drives nothing.  With the run flag 0 the callback writes only
    the four members of the speed estimate (samples per speed,
    direction-change counter, pulse rate, new-sample flag) and makes
    exactly one call, the coast or the brake command of the stop mode:
    state, ramp, PID data, commanded power and position are as they
    were. *)
Theorem idle_tick_is_quiet (hires_timer : Z) (tm : ev3_tacho_motor_data) :
  run tm = 0 -> stop_mode tm <> TM_STOP_HOLD ->
  exists a b c d command,
    ev3_tacho_motor_timer_callback hires_timer tm
    = Some (with_got_new_sample c
              (with_pulses_per_second b
                 (with_dir_chg_samples d (with_samples_per_speed a tm))),
            [set_command command])
    /\ command = match stop_mode tm with
                 | TM_STOP_COAST => DC_MOTOR_COMMAND_COAST
                 | _ => DC_MOTOR_COMMAND_BRAKE
                 end.
Proof. apply tick_not_running. Qed.

Lemma idle_tick_is_quiet_witness :
  exists a b c d command,
    ev3_tacho_motor_timer_callback 0 fresh_motor
    = Some (with_got_new_sample c
              (with_pulses_per_second b
                 (with_dir_chg_samples d (with_samples_per_speed a fresh_motor))),
            [set_command command])
    /\ command = match stop_mode fresh_motor with
                 | TM_STOP_COAST => DC_MOTOR_COMMAND_COAST
                 | _ => DC_MOTOR_COMMAND_BRAKE
                 end.
Proof.
  apply (idle_tick_is_quiet 0 fresh_motor); vm_compute;
    first [reflexivity | discriminate].
Defined.

(** ** Position hold *)

Lemma set_power_sign (p : Z) (t : ev3_tacho_motor_data) :
  (0 < p -> 0 < power (fst (ev3_tacho_motor_set_power p t)))
  /\ (p < 0 -> power (fst (ev3_tacho_motor_set_power p t)) < 0)
  /\ (p = 0 -> power (fst (ev3_tacho_motor_set_power p t)) = 0).
Proof.
  unfold ev3_tacho_motor_set_power, ev3_tacho_motor_update_output,
    limit_power, MAX_POWER.
  destruct (Z.eqb_spec (power t) p) as [He | Hne]; [cbn; lia |].
  repeat split; intros Hp; cbn;
    repeat first [case_cmp | case_if
                 | match goal with
                   | |- context [match ?m with _ => _ end] => destruct m
                   end]; cbn in *; lia.
Qed.

(** X18: the position-hold regulator pushes back against a displacement.
    For a motor that is not running, in stop mode Hold, of one of the two
    EV3 motor models, with the integral term and the previous error
    cleared (as the Stop pass leaves them) and a live position delta of
    at most a million steps either way: after the tick the commanded
    power is negative if the delta is positive, positive if the delta is
    negative, and 0 if the delta is 0. *)
Theorem hold_opposes_displacement (hires_timer : Z)
    (tm : ev3_tacho_motor_data) :
  run tm = 0 -> stop_mode tm = TM_STOP_HOLD ->
  motor_type tm = MOTOR_TYPE_TACHO \/ motor_type tm = MOTOR_TYPE_MINITACHO ->
  pid_I (pid tm) = 0 -> prev_position_error (pid tm) = 0 ->
  -1000000 <= irq_tacho tm <= 1000000 ->
  exists tm' calls,
    ev3_tacho_motor_timer_callback hires_timer tm = Some (tm', calls)
    /\ (0 < irq_tacho tm -> ev3_tacho_motor_get_duty_cycle tm' < 0)
    /\ (irq_tacho tm < 0 -> 0 < ev3_tacho_motor_get_duty_cycle tm')
    /\ (irq_tacho tm = 0 -> ev3_tacho_motor_get_duty_cycle tm' = 0).
Proof.
  intros Hrun Hmode Htype HI Hprev Hrange.
  rewrite timer_callback_eq. cbv zeta.
  destruct (calculate_speed_touches hires_timer tm) as (a & b & c & d & ->).
  set (tm0 := with_got_new_sample c _).
  assert (H0 : run tm0 = 0 /\ stop_mode tm0 = TM_STOP_HOLD
               /\ motor_type tm0 = motor_type tm /\ pid tm0 = pid tm
               /\ irq_tacho tm0 = irq_tacho tm)
    by (subst tm0; cbn; auto).
  clearbody tm0. destruct H0 as (Hr0 & Hm0 & Ht0 & Hp0 & Hi0).
  rewrite Hr0. cbn [Z.eqb].
  unfold no_run. rewrite Hr0, Hm0. cbn [Z.eqb].
  exists (fst (regulate_position tm0)), (snd (regulate_position tm0)).
  split; [destruct (regulate_position tm0); reflexivity |].
  unfold ev3_tacho_motor_get_duty_cycle, regulate_position. cbv zeta.
  set (e := C.sub 0 (irq_tacho tm0)).
  assert (He : e = - irq_tacho tm) by (subst e; rewrite Hi0; wrap_lia).
  clearbody e.
  match goal with
  | |- context [ev3_tacho_motor_set_power ?p ?T] =>
      assert (Hp : p = (405 * e) ÷ 100);
      [| destruct (set_power_sign p T) as (Hpos & Hneg & Hzero);
         set (q := power (fst (ev3_tacho_motor_set_power p T))) in *;
         clearbody q; rewrite Hp in Hpos, Hneg, Hzero; clear Hp ]
  end.
  - rewrite Ht0.
    assert (HP : C.mul e 400 = 400 * e)
      by (unfold C.mul; rewrite sint_id by (unwrap; lia); lia).
    assert (HIt : C.add (C.div (C.mul 0 99) 100) (C.div e 1) = e).
    { unfold C.add, C.div, C.mul. cbn. rewrite Z.quot_1_r.
      rewrite (sint_id e) by (unwrap; lia). apply sint_id. unwrap. lia. }
    assert (HD : C.mul (C.div (C.mul (C.sub e 0) 4) 2) 2 = 4 * e).
    { unfold C.mul, C.div, C.sub. rewrite Z.sub_0_r.
      rewrite (sint_id e) by (unwrap; lia).
      rewrite (sint_id (e * 4)) by (unwrap; lia).
      replace (e * 4) with (2 * e * 2) by lia. rewrite Z.quot_mul by lia.
      rewrite (sint_id (2 * e)) by (unwrap; lia).
      rewrite sint_id by (unwrap; lia). lia. }
    destruct Htype as [Hty | Hty]; rewrite Hty; cbn; rewrite Hp0, HI, Hprev;
      rewrite HP, HIt, HD; unfold C.add, C.div;
      rewrite (sint_id (400 * e + e)) by (unwrap; lia);
      replace (400 * e + e + 4 * e) with (405 * e) by lia;
      rewrite (sint_id (405 * e)) by (unwrap; lia);
      apply sint_id;
      (assert (Z.abs (405 * e ÷ 100) <= Z.abs (405 * e))
         by (rewrite <- (Z.quot_abs _ 100) by lia;
             apply Z.quot_le_upper_bound; lia));
      unwrap; lia.
  - repeat split; intros Hd.
    + apply Hneg.
      assert (405 * e <= -405) by lia.
      assert (405 * e ÷ 100 <= -405 ÷ 100)
        by (apply Z.quot_le_mono; lia).
      change (-405 ÷ 100) with (-4) in *. lia.
    + apply Hpos.
      assert (405 <= 405 * e) by lia.
      assert (405 ÷ 100 <= 405 * e ÷ 100)
        by (apply Z.quot_le_mono; lia).
      change (405 ÷ 100) with 4 in *. lia.
    + apply Hzero. assert (E : e = 0) by lia. rewrite E. reflexivity.
Qed.

Lemma hold_opposes_displacement_witness :
  irq_tacho held_motor = 3
  /\ exists tm' calls,
       ev3_tacho_motor_timer_callback 0 held_motor = Some (tm', calls)
       /\ (0 < irq_tacho held_motor -> ev3_tacho_motor_get_duty_cycle tm' < 0)
       /\ (irq_tacho held_motor < 0 -> 0 < ev3_tacho_motor_get_duty_cycle tm')
       /\ (irq_tacho held_motor = 0 -> ev3_tacho_motor_get_duty_cycle tm' = 0).
Proof.
  split; [reflexivity |].
  apply (hold_opposes_displacement 0 held_motor); vm_compute;
    first [reflexivity | left; reflexivity | split; discriminate].
Defined.

(** ** The touch sensor *)

(** X19: what the touch-sensor callback writes.  On a buffer of at least
    four bytes: on the multiplexer's port the callback leaves the buffer
    as it is; on any other port it replaces the first byte by 1 if the
    32-bit reading is above 250 and by 0 otherwise (so by 0 for every
    negative reading) and touches no other byte.  A second call on the
    buffer the first one left gives that buffer again, except when the
    reading was within 251 to 255: then the first call reports pressed
    and the second, reading the 1 it finds, reports released. *)
Theorem touch_sensor_threshold (raw_data : list Z) :
  raw_bytes raw_data ->
  lego_ev3_touch_sensor_cb true raw_data = raw_data
  /\ lego_ev3_touch_sensor_cb false raw_data
     = (if read_s32 raw_data >? 250 then 1 else 0) :: tail raw_data
  /\ (read_s32 raw_data < 0 ->
      lego_ev3_touch_sensor_cb false raw_data = 0 :: tail raw_data)
  /\ (~ 251 <= read_s32 raw_data <= 255 ->
      lego_ev3_touch_sensor_cb false
        (lego_ev3_touch_sensor_cb false raw_data)
      = lego_ev3_touch_sensor_cb false raw_data)
  /\ (251 <= read_s32 raw_data <= 255 ->
      lego_ev3_touch_sensor_cb false raw_data = 1 :: tail raw_data
      /\ lego_ev3_touch_sensor_cb false
           (lego_ev3_touch_sensor_cb false raw_data)
         = 0 :: tail raw_data).
Proof.
  intros [Hlen Hbytes].
  destruct raw_data as [| b0 [| b1 [| b2 [| b3 rest]]]];
    try (cbn in Hlen; lia).
  apply Forall_cons in Hbytes as [H0 Hbytes].
  apply Forall_cons in Hbytes as [H1 Hbytes].
  apply Forall_cons in Hbytes as [H2 Hbytes].
  apply Forall_cons in Hbytes as [H3 _].
  unfold lego_ev3_touch_sensor_cb, read_s32. cbn.
  change (2 ^ 8) with 256. change (2 ^ 16) with 65536.
  change (2 ^ 24) with 16777216.
  split; [reflexivity |]. split; [reflexivity |].
  split; [| split].
  - intros Hneg. case_cmp; [lia | reflexivity].
  - intros Hout.
    destruct (Z.gtb_spec (C.sint (b0 + 256 * b1 + 65536 * b2 + 16777216 * b3)) 250)
      as [Hgt | Hle]; cbn.
    + assert (Hnext : C.sint (1 + 256 * b1 + 65536 * b2 + 16777216 * b3) > 250)
        by (revert Hgt Hout; wrap_lia).
      destruct (Z.gtb_spec (C.sint (1 + 256 * b1 + 65536 * b2 + 16777216 * b3)) 250);
        [reflexivity | lia].
    + assert (Hnext : C.sint (0 + 256 * b1 + 65536 * b2 + 16777216 * b3) <= 250)
        by (revert Hle; wrap_lia).
      destruct (Z.gtb_spec (C.sint (0 + 256 * b1 + 65536 * b2 + 16777216 * b3)) 250);
        [lia | reflexivity].
  - intros Hin.
    destruct (Z.gtb_spec (C.sint (b0 + 256 * b1 + 65536 * b2 + 16777216 * b3)) 250)
      as [Hgt | Hle]; [| lia]. cbn.
    split; [reflexivity |].
    assert (Hnext : C.sint (1 + 256 * b1 + 65536 * b2 + 16777216 * b3) <= 250)
      by (revert Hin; wrap_lia).
    destruct (Z.gtb_spec (C.sint (1 + 256 * b1 + 65536 * b2 + 16777216 * b3)) 250);
      [lia | reflexivity].
Qed.

Lemma touch_sensor_threshold_witness :
  lego_ev3_touch_sensor_cb false [252; 0; 0; 0] = [1; 0; 0; 0]
  /\ lego_ev3_touch_sensor_cb false [1; 0; 0; 0] = [0; 0; 0; 0].
Proof.
  assert (H : raw_bytes [252; 0; 0; 0]).
  { split; [cbn; lia |]. repeat (apply Forall_cons_2; [lia |]). apply Forall_nil_2. }
  destruct (touch_sensor_threshold [252; 0; 0; 0] H) as (_ & _ & _ & _ & Hflip).
  apply Hflip. vm_compute. split; discriminate.
Defined.

(** ** The end of a run to a position *)

(** What the first two stages of a tick leave of a motor in one of the
    four ramp states. *)
Lemma ramping_advanced (now : Z) (tm : ev3_tacho_motor_data) :
  ramping (state tm) = true ->
  exists a b c d,
    advance_ramp_count (snd (calculate_speed now tm))
    = set_ramp_count (C.add (ramp_count tm) 2)
        (with_got_new_sample c
           (with_pulses_per_second b
              (with_dir_chg_samples d (with_samples_per_speed a tm)))).
Proof.
  intros Hs.
  destruct (calculate_speed_touches now tm) as (a & b & c & d & ->).
  exists a, b, c, d. unfold advance_ramp_count. cbn. rewrite Hs. reflexivity.
Qed.

(** The RampDown pass, with what it writes made explicit. *)
Lemma state_ramp_down_explicit t :
  exists q z calls,
    state_ramp_down t
    = (with_speed_reg_sp z
         (with_power q
            (set_ramp_percent
               (calculate_ramp_progress
                  (C.sub (ramp_down_end t) (ramp_count t)) (ramp_down_full t))
               (if ramp_count t >=? ramp_down_end t
                then with_state TM_STATE_STOP t else t))),
       calls, ramp_count t >=? ramp_down_end t).
Proof.
  cbv beta delta [state_ramp_down].
  destruct (ramp_count t >=? ramp_down_end t); cbv beta iota zeta;
    match goal with
    | |- context [update_motor_speed_or_power ?p ?T] =>
        destruct (update_motor_touches p T) as (q & z & Hu);
        destruct (update_motor_speed_or_power p T) as [u c];
        cbn [fst] in Hu; subst u
    end; eexists _, _, _; reflexivity.
Qed.

(** The Stop pass of a run to a position: the base position becomes the
    target and the live delta what is left to it. *)
Lemma state_stop_position t :
  run_mode t = TM_RUN_POSITION ->
  exists calls,
    state_stop t
    = (with_state TM_STATE_IDLE
         (set_pid_D 0
            (set_pid_I 0
               (set_pid_P 0
                  (with_power 0
                     (with_speed_reg_sp 0
                        (with_tacho (ramp_position_sp (ramp t))
                           (with_irq_tacho
                              (C.sub (C.add (tacho t) (irq_tacho t))
                                 (ramp_position_sp (ramp t)))
                              t))))))),
       calls, true).
Proof.
  intros Hm. cbv beta delta [state_stop]. rewrite Hm. cbv zeta.
  match goal with
  | |- context [ev3_tacho_motor_set_power 0 ?T] =>
      pose proof (set_power_zero T) as Hz;
      destruct (ev3_tacho_motor_set_power 0 T) as [u c];
      cbn [fst] in Hz; subst u
  end.
  eexists. reflexivity.
Qed.

(** A tick of a running motor whose loop makes one pass. *)
Lemma tick_single_pass (now : Z) (tm t' : ev3_tacho_motor_data)
    (calls : list effect) :
  run tm = 1 ->
  process_state (advance_ramp_count (snd (calculate_speed now tm)))
  = (t', calls, false) ->
  run t' = 1 ->
  exists tm' calls',
    ev3_tacho_motor_timer_callback now tm = Some (tm', calls')
    /\ state tm' = state t' /\ run tm' = 1 /\ ramp tm' = ramp t'.
Proof.
  intros Hrun Hpass Hrun'.
  rewrite timer_callback_eq. cbv zeta.
  pose proof (keeps_calculate_speed now tm) as (_ & Hr0 & _).
  set (tm0 := snd (calculate_speed now tm)) in *. clearbody tm0.
  rewrite Hr0, Hrun. cbn [Z.eqb].
  change reprocess_fuel with (S 7).
  rewrite reprocess_loop_eq, Hpass. cbn [fst snd].
  rewrite Hrun'. cbn [Z.eqb negb].
  set (r := match regulation_mode t' with
            | TM_REGULATION_ON => regulate_speed t'
            | _ => (t', [])
            end).
  assert (Hk : state (fst r) = state t' /\ run (fst r) = run t'
               /\ ramp (fst r) = ramp t').
  { subst r. destruct (regulation_mode t'); cbn [fst]; [repeat split |].
    destruct (keeps_regulate_speed t') as (H1 & H2 & _).
    split; [exact H1 |]. split; [exact H2 | apply regulate_speed_ramp]. }
  destruct Hk as (Hs3 & Hr3 & Hramp).
  unfold no_run. rewrite Hr3, Hrun'. cbn [Z.eqb fst snd].
  eexists _, _. split; [reflexivity |].
  rewrite Hs3, Hr3, Hramp. repeat split. exact Hrun'.
Qed.

(** The PositionRampDown pass: the end of the down window is the counter
    when the target is reached, is set 100 ms ahead when it has been
    passed short of the target, and is kept otherwise. *)
Lemma state_position_ramp_down_explicit t :
  exists de,
    state_position_ramp_down t
    = state_ramp_down
        (set_ramp_down_start (C.sub de (ramp_down_sp t))
           (set_ramp_down_end de t))
    /\ de = (if target_reached t then ramp_count t
             else if ramp_down_end t <=? ramp_count t
                  then C.add (ramp_count t) 100
                  else ramp_down_end t).
Proof.
  assert (Hsame : set_ramp_down_end (ramp_down_end t) t = t)
    by (destruct t as [? ? ? ? ? ? ? ? ? [[? ? ?] [? ? ?] ? ? ? ?]]; reflexivity).
  cbv beta delta [state_position_ramp_down target_reached].
  unfold ev3_tacho_motor_get_position.
  destruct (ramp_direction t >? 0);
    [destruct (ramp_position_sp (ramp t) <=? C.add (tacho t) (irq_tacho t))
    |destruct (ramp_position_sp (ramp t) >=? C.add (tacho t) (irq_tacho t))];
    try destruct (ramp_down_end t <=? ramp_count t);
    cbv zeta; eexists; (split; [| reflexivity]);
    first [ reflexivity | rewrite Hsame; reflexivity ].
Qed.

(** X20: a run to a position ends exactly when the target is reached.
    For a running motor in PositionRampDown, in run mode RunPosition and
    stop mode Coast or Brake, whose ramp counter is an [int] at least
    102 below the largest: if the position reading has got to the target
    (seen in the direction of the ramp), the tick ends in Idle with the
    run flag 0 and the commanded power 0, the base position set to the
    target and the live delta to what the reading is beyond it; if it
    has not, the machine is still in PositionRampDown with the run flag
    set after the tick, however long the down window has been over. *)
Theorem position_run_ends_on_target (hires_timer : Z)
    (tm : ev3_tacho_motor_data) :
  state tm = TM_STATE_POSITION_RAMP_DOWN -> run tm = 1 ->
  run_mode tm = TM_RUN_POSITION -> stop_mode tm <> TM_STOP_HOLD ->
  C.is_int (ramp_count tm) -> ramp_count tm <= C.max_int - 102 ->
  exists tm' calls,
    ev3_tacho_motor_timer_callback hires_timer tm = Some (tm', calls)
    /\ if target_reached tm
       then ev3_tacho_motor_get_state tm' = TM_STATE_IDLE
            /\ ev3_tacho_motor_get_run tm' = 0
            /\ ev3_tacho_motor_get_duty_cycle tm' = 0
            /\ tacho tm' = ramp_position_sp (ramp tm)
            /\ irq_tacho tm'
               = C.sub (ev3_tacho_motor_get_position tm)
                   (ramp_position_sp (ramp tm))
       else ev3_tacho_motor_get_state tm' = TM_STATE_POSITION_RAMP_DOWN
            /\ ev3_tacho_motor_get_run tm' = 1.
Proof.
  intros Hs Hrun Hmode Hstop Hint Hmax.
  assert (Hramping : ramping (state tm) = true) by (rewrite Hs; reflexivity).
  destruct (ramping_advanced hires_timer tm Hramping) as (a & b & c & d & Hadv).
  set (t := set_ramp_count _ _) in Hadv.
  assert (Ht : state t = TM_STATE_POSITION_RAMP_DOWN) by exact Hs.
  assert (Hc2 : ramp_count t = ramp_count tm + 2).
  { subst t. cbn. unfold C.add. apply sint_id. unwrap. lia. }
  assert (Hreached : target_reached t = target_reached tm) by reflexivity.
  assert (Hpass : process_state t = state_position_ramp_down t)
    by apply (process_state_at t _ Ht).
  destruct (state_position_ramp_down_explicit t) as (de & Hpos & Hde).
  rewrite Hpos in Hpass. clear Hpos.
  rewrite Hreached in Hde.
  set (t1 := set_ramp_down_start _ _) in Hpass.
  destruct (state_ramp_down_explicit t1) as (q & z & calls1 & Hdown).
  rewrite Hdown in Hpass. clear Hdown.
  assert (Hc1 : ramp_count t1 = ramp_count tm + 2) by exact Hc2.
  assert (He1 : ramp_down_end t1 = de) by reflexivity.
  rewrite Hc1, He1 in Hpass.
  destruct (target_reached tm).
  - (* the target has been reached *)
    subst de. rewrite Hc2 in Hpass.
    destruct (Z.geb_spec (ramp_count tm + 2) (ramp_count tm + 2)); [| lia].
    set (t2 := with_speed_reg_sp z _) in Hpass.
    destruct (state_stop_position t2 Hmode) as (calls2 & Hstop2).
    set (t3 := with_state TM_STATE_IDLE _) in Hstop2.
    assert (Hloop : reprocess_loop reprocess_fuel
                      (advance_ramp_count (snd (calculate_speed hires_timer tm)))
                    = Some (with_run 0 t3,
                            calls1
                            ++ calls2 ++ [schedule_work_notify_state_change])).
    { rewrite Hadv. change reprocess_fuel with (S (S (S 5))).
      rewrite reprocess_loop_eq, Hpass. cbn [fst snd].
      rewrite reprocess_loop_eq, (process_state_at t2 TM_STATE_STOP eq_refl).
      rewrite Hstop2. cbn [fst snd].
      rewrite reprocess_loop_eq, (process_state_at t3 TM_STATE_IDLE eq_refl).
      reflexivity. }
    destruct (timer_callback_settles hires_timer tm _ _ ltac:(lia) Hstop Hloop
                eq_refl) as (calls & Hcb & _).
    eexists _, _. split; [exact Hcb |]. repeat split.
  - (* the target is still ahead *)
    assert (Hlt : (ramp_count tm + 2 >=? de) = false).
    { subst de. rewrite Hc2. fold (ramp_down_end t).
      destruct (Z.leb_spec (ramp_down_end t) (ramp_count tm + 2)).
      - unfold C.add. rewrite sint_id by (unwrap; lia).
        destruct (Z.geb_spec (ramp_count tm + 2) (ramp_count tm + 2 + 100)); lia.
      - destruct (Z.geb_spec (ramp_count tm + 2) (ramp_down_end t)); lia. }
    rewrite Hlt in Hpass. rewrite <- Hadv in Hpass.
    destruct (tick_single_pass hires_timer tm _ _ Hrun Hpass)
      as (tm' & calls & Hcb & Hs' & Hr' & _); [exact Hrun |].
    exists tm', calls. split; [exact Hcb |]. split; [| exact Hr'].
    unfold ev3_tacho_motor_get_state. rewrite Hs'. exact Hs.
Qed.

Lemma position_run_ends_on_target_witness :
  target_reached braking_motor = false
  /\ exists tm' calls,
       ev3_tacho_motor_timer_callback 0 braking_motor = Some (tm', calls)
       /\ if target_reached braking_motor
          then ev3_tacho_motor_get_state tm' = TM_STATE_IDLE
               /\ ev3_tacho_motor_get_run tm' = 0
               /\ ev3_tacho_motor_get_duty_cycle tm' = 0
               /\ tacho tm' = ramp_position_sp (ramp braking_motor)
               /\ irq_tacho tm'
                  = C.sub (ev3_tacho_motor_get_position braking_motor)
                      (ramp_position_sp (ramp braking_motor))
          else ev3_tacho_motor_get_state tm' = TM_STATE_POSITION_RAMP_DOWN
               /\ ev3_tacho_motor_get_run tm' = 1.
Proof.
  split; [reflexivity |].
  apply (position_run_ends_on_target 0 braking_motor); vm_compute;
    first [reflexivity | discriminate | (split; discriminate)].
Defined.

(** ** A timed run *)

Lemma mul_zero_r (x : Z) : C.mul x 0 = 0.
Proof. unfold C.mul. rewrite Z.mul_0_r. reflexivity. Qed.

Lemma sub_zero_r (x : Z) : C.is_int x -> C.sub x 0 = x.
Proof. intros H. unfold C.sub. rewrite Z.sub_0_r. apply sint_id, H. Qed.

(** The setup pass of a timed run without ramps: both windows are
    empty, the up window at 0 and the down window at the run time. *)
Lemma timed_setup_pass (d T : Z) (tm : ev3_tacho_motor_data) :
  timed_run_setup d T tm -> C.is_int T -> 0 < T ->
  exists t1,
    state_setup_ramp_time tm = (t1, [], true)
    /\ state t1 = TM_STATE_SETUP_RAMP_REGULATION
    /\ run t1 = run tm
    /\ run_mode t1 = TM_RUN_TIME
    /\ regulation_mode t1 = TM_REGULATION_OFF
    /\ duty_cycle_sp t1 = d
    /\ ramp_up_end t1 = 0 /\ ramp_up_full t1 = 0
    /\ ramp_down_start t1 = T /\ ramp_down_end t1 = T.
Proof.
  unfold timed_run_setup.
  destruct tm as [? ? ? ? ? ? ? ? ? [[? ? ?] [? ? ?] ? ? ? ?] ? ? ? ? ? ? ? ? ? ? ?
                    ? ? ? ? ? ? ? ? ? ? ? ?].
  cbn. intros (-> & -> & -> & _ & -> & -> & -> & ->) Hint HT.
  unfold state_setup_ramp_time. cbn.
  rewrite !mul_zero_r.
  change (C.div 0 100) with 0. change (C.add 0 0) with 0.
  rewrite (sub_zero_r T Hint).
  destruct (Z.gtb_spec 0 T); [lia |].
  eexists. split; [reflexivity |]. cbn. repeat split.
Qed.

(** The RampUp and RampConst passes in open loop, run mode RunTime. *)
Lemma state_ramp_up_timed tm :
  run_mode tm = TM_RUN_TIME ->
  regulation_mode tm = TM_REGULATION_OFF ->
  exists calls,
    state_ramp_up tm
    = (fst (ev3_tacho_motor_set_power
              (C.div (C.mul (duty_cycle_sp tm)
                        (calculate_ramp_progress (ramp_count tm)
                           (ramp_up_full tm))) 100)
              (set_ramp_percent
                 (calculate_ramp_progress (ramp_count tm) (ramp_up_full tm))
                 (if ramp_count tm >=? ramp_up_end tm
                  then with_state TM_STATE_RAMP_CONST tm else tm))),
       calls, ramp_count tm >=? ramp_up_end tm).
Proof.
  intros Hrm Hreg. cbv beta delta [state_ramp_up]. rewrite Hrm.
  cbv beta iota zeta.
  destruct (ramp_count tm >=? ramp_up_end tm); cbv beta iota zeta;
    unfold update_motor_speed_or_power; cbn; rewrite Hreg, Hrm;
    match goal with
    | |- context [ev3_tacho_motor_set_power ?p ?t] =>
        destruct (ev3_tacho_motor_set_power p t) as [t' calls']
    end; eexists; reflexivity.
Qed.

Lemma state_ramp_const_timed tm :
  run_mode tm = TM_RUN_TIME ->
  regulation_mode tm = TM_REGULATION_OFF ->
  exists calls,
    state_ramp_const tm
    = (fst (ev3_tacho_motor_set_power
              (C.div (C.mul (duty_cycle_sp tm) (ramp_percent tm)) 100)
              (if ramp_count tm >=? ramp_down_start tm
               then with_state TM_STATE_RAMP_DOWN tm else tm)),
       calls, ramp_count tm >=? ramp_down_start tm).
Proof.
  intros Hrm Hreg. cbv beta delta [state_ramp_const]. rewrite Hrm.
  cbv beta iota zeta.
  destruct (ramp_count tm >=? ramp_down_start tm); cbv beta iota zeta;
    unfold update_motor_speed_or_power; cbn; rewrite Hreg, Hrm;
    match goal with
    | |- context [ev3_tacho_motor_set_power ?p ?t] =>
        destruct (ev3_tacho_motor_set_power p t) as [t' calls']
    end; eexists; reflexivity.
Qed.

Lemma full_percent (d : Z) : -100 <= d <= 100 -> C.div (C.mul d 100) 100 = d.
Proof.
  intros H. unfold C.div, C.mul. rewrite (sint_id (d * 100)) by (unwrap; lia).
  rewrite Z.quot_mul by lia. apply sint_id. unwrap. lia.
Qed.

(** The RampConst pass of the timed run while the run time lasts. *)
Lemma loop_const_timed (fuel : nat) (d T c : Z) (tm : ev3_tacho_motor_data) :
  10 <= d <= 100 ->
  state tm = TM_STATE_RAMP_CONST -> run tm = 1 ->
  run_mode tm = TM_RUN_TIME -> regulation_mode tm = TM_REGULATION_OFF ->
  duty_cycle_sp tm = d -> ramp_percent tm = 100 ->
  ramp_count tm = c -> ramp_down_start tm = T -> ramp_down_end tm = T ->
  c < T ->
  exists tm' calls,
    reprocess_loop (S fuel) tm = Some (tm', calls)
    /\ state tm' = TM_STATE_RAMP_CONST /\ run tm' = 1 /\ power tm' = d
    /\ regulation_mode tm' = TM_REGULATION_OFF
    /\ ramp_count tm' = c
    /\ ramp_down_start tm' = T /\ ramp_down_end tm' = T
    /\ ramp_percent tm' = 100.
Proof.
  intros Hd Hs Hrun Hrm Hreg Hduty Hpct Hc Hstart Hend Hlt.
  rewrite reprocess_loop_eq, (process_state_at tm _ Hs).
  destruct (state_ramp_const_timed tm Hrm Hreg) as (calls & ->).
  cbn [fst snd]. rewrite Hduty, Hpct, Hc, Hstart.
  destruct (Z.geb_spec c T); [lia |].
  rewrite full_percent by lia.
  rewrite set_power_in_band by (first [exact Hreg | lia]).
  eexists _, _. split; [reflexivity |]. cbn. repeat split; assumption.
Qed.

(** The RampConst pass of the timed run once the run time is over: the
    loop goes on through RampDown and Stop to Idle. *)
Lemma loop_const_timed_over (fuel : nat) (d T c : Z)
    (tm : ev3_tacho_motor_data) :
  10 <= d <= 100 ->
  state tm = TM_STATE_RAMP_CONST ->
  run_mode tm = TM_RUN_TIME -> regulation_mode tm = TM_REGULATION_OFF ->
  duty_cycle_sp tm = d -> ramp_percent tm = 100 ->
  ramp_count tm = c -> ramp_down_start tm = T -> ramp_down_end tm = T ->
  T <= c ->
  exists tm' calls,
    reprocess_loop (S (S (S (S fuel)))) tm = Some (tm', calls)
    /\ state tm' = TM_STATE_IDLE /\ run tm' = 0 /\ power tm' = 0.
Proof.
  intros Hd Hs Hrm Hreg Hduty Hpct Hc Hstart Hend Hge.
  rewrite reprocess_loop_eq, (process_state_at tm _ Hs).
  destruct (state_ramp_const_timed tm Hrm Hreg) as (calls & ->).
  cbn [fst snd]. rewrite Hduty, Hpct, Hc, Hstart.
  destruct (Z.geb_spec c T); [| lia].
  rewrite full_percent by lia.
  rewrite set_power_in_band by (first [exact Hreg | lia]).
  match goal with
  | |- context [reprocess_loop (S (S (S fuel))) ?t] =>
      destruct (loop_ramp_down_done fuel t) as (tm' & calls' & -> & Hidle);
      [reflexivity | cbn; lia |]
  end.
  eexists _, _. split; [reflexivity | exact Hidle].
Qed.

(** The first tick of the timed run: setup, then through RampUp into
    RampConst at full power. *)
Lemma loop_setup_timed (fuel : nat) (d T : Z) (tm : ev3_tacho_motor_data) :
  10 <= d <= 100 -> C.is_int T -> 0 < T ->
  timed_run_setup d T tm -> state tm = TM_STATE_SETUP_RAMP_TIME ->
  run tm = 1 ->
  exists tm' calls,
    reprocess_loop (S (S (S (S fuel)))) tm = Some (tm', calls)
    /\ state tm' = TM_STATE_RAMP_CONST /\ run tm' = 1 /\ power tm' = d
    /\ regulation_mode tm' = TM_REGULATION_OFF
    /\ ramp_count tm' = 0
    /\ ramp_down_start tm' = T /\ ramp_down_end tm' = T
    /\ ramp_percent tm' = 100.
Proof.
  intros Hd Hint HT Hsetup Hs Hrun.
  rewrite reprocess_loop_eq, (process_state_at tm _ Hs).
  destruct (timed_setup_pass d T tm Hsetup Hint HT)
    as (t1 & -> & Hs1 & Hr1 & Hrm1 & Hreg1 & Hduty1 & Hue & Huf & Hds & Hde).
  cbn [fst snd].
  rewrite reprocess_loop_eq, (process_state_at t1 _ Hs1).
  cbv beta delta [state_setup_ramp_regulation]. cbn [fst snd].
  set (t2 := with_state TM_STATE_RAMP_UP _).
  rewrite reprocess_loop_eq, (process_state_at t2 TM_STATE_RAMP_UP eq_refl).
  destruct (state_ramp_up_timed t2 Hrm1 Hreg1) as (calls & ->).
  cbn [fst snd].
  assert (Ht2 : ramp_count t2 = 0 /\ ramp_up_end t2 = 0 /\ ramp_up_full t2 = 0
                /\ duty_cycle_sp t2 = d)
    by (subst t2; cbn; auto).
  destruct Ht2 as (-> & -> & -> & ->).
  change (0 >=? 0) with true.
  change (calculate_ramp_progress 0 0) with 100.
  rewrite full_percent by lia.
  rewrite set_power_in_band by (first [exact Hreg1 | lia]).
  match goal with
  | |- context [reprocess_loop (S fuel) ?t] =>
      destruct (loop_const_timed fuel d T 0 t Hd)
        as (tm' & calls' & -> & Hinv);
      try (subst t2; cbn; first [assumption | reflexivity | lia])
  end.
  eexists _, _. split; [reflexivity | exact Hinv].
Qed.

Lemma timed_run_setup_frame (d T : Z) (tm t : ev3_tacho_motor_data) :
  held_through_tick t = held_through_tick tm ->
  timed_run_setup d T tm -> timed_run_setup d T t.
Proof.
  intros H. unfold held_through_tick in H. injection H. intros.
  unfold timed_run_setup in *.
  repeat match goal with H : _ /\ _ |- _ => destruct H end.
  repeat split; congruence.
Qed.

Lemma timed_run_after_edge (d T : Z) (n : nat) (tm t : ev3_tacho_motor_data) :
  held_through_edge t = held_through_edge tm ->
  timed_run_after d T n tm -> timed_run_after d T n t.
Proof.
  intros H. unfold held_through_edge in H. injection H. intros.
  unfold timed_run_after, timed_run_setup in *.
  repeat match goal with
    | H : ?f t = ?f tm |- _ => rewrite H; clear H
    end.
  assumption.
Qed.

(** One tick takes the timed run from its [n]-th to its [n+1]-st stage,
    whatever the timer reads. *)
Lemma timed_run_tick (now d T : Z) (n : nat) (tm : ev3_tacho_motor_data) :
  10 <= d <= 100 -> 0 < T <= 1000000000 ->
  timed_run_after d T n tm ->
  exists tm' calls,
    ev3_tacho_motor_timer_callback now tm = Some (tm', calls)
    /\ timed_run_after d T (S n) tm'.
Proof.
  intros Hd HT (Hsetup & Hstage).
  assert (Hint : C.is_int T) by (unwrap; lia).
  assert (Hkeep : forall tm' calls,
             ev3_tacho_motor_timer_callback now tm = Some (tm', calls) ->
             timed_run_setup d T tm').
  { intros tm' calls Hcb.
    apply (timed_run_setup_frame d T tm); [| exact Hsetup].
    apply (timer_callback_frame _ _ _ _ Hcb). }
  pose proof Hsetup as (_ & Hrm & Hreg & Hstop & Hduty & _).
  destruct n as [| m].
  - (* the first tick *)
    destruct Hstage as (Hs & Hrun).
    pose proof (keeps_calculate_speed now tm) as (Hs0 & Hr0 & _).
    destruct (tick_frame_calculate_speed now tm) as [Hh0 _].
    pose proof (timed_run_setup_frame d T tm _ Hh0 Hsetup) as Hsetup0.
    set (tm0 := snd (calculate_speed now tm)) in *.
    assert (Hadv : advance_ramp_count tm0 = tm0)
      by (unfold advance_ramp_count; rewrite Hs0, Hs; reflexivity).
    destruct (loop_setup_timed 4 d T tm0 Hd Hint ltac:(lia) Hsetup0)
      as (tm1 & calls & Hloop & Hs1 & Hr1 & Hp1 & Hreg1 & Hrest);
      [congruence | congruence |].
    rewrite <- Hadv in Hloop.
    destruct (timer_callback_open_loop now tm tm1 calls Hrun Hloop Hr1 Hreg1)
      as (calls' & Hcb).
    exists tm1, calls'. split; [exact Hcb |].
    split; [apply (Hkeep _ _ Hcb) |].
    destruct (Z.ltb_spec (2 * Z.of_nat 0) T); [| lia].
    repeat (split; [assumption |]). exact Hrest.
  - destruct (Z.ltb_spec (2 * Z.of_nat m) T) as [Hlt | Hge].
    + (* a tick in RampConst *)
      destruct Hstage as (Hs & Hrun & Hp & Hc & Hds & Hde & Hpct).
      assert (Hramping : ramping (state tm) = true) by (rewrite Hs; reflexivity).
      destruct (ramping_advanced now tm Hramping) as (a & b & c & e & Hadv).
      assert (Hc2 : C.add (ramp_count tm) 2 = 2 * Z.of_nat (S m)).
      { rewrite Hc. unfold C.add. rewrite sint_id by (unwrap; lia). lia. }
      rewrite Hc2 in Hadv.
      set (t := set_ramp_count _ _) in Hadv.
      destruct (Z.ltb_spec (2 * Z.of_nat (S m)) T) as [Hlt' | Hge'].
      * destruct (loop_const_timed 7 d T (2 * Z.of_nat (S m)) t Hd)
          as (tm1 & calls & Hloop & Hs1 & Hr1 & Hp1 & Hreg1 & Hrest);
          try (subst t; cbn; first [assumption | reflexivity | lia]).
        rewrite <- Hadv in Hloop.
        destruct (timer_callback_open_loop now tm tm1 calls Hrun Hloop Hr1 Hreg1)
          as (calls' & Hcb).
        exists tm1, calls'. split; [exact Hcb |].
        split; [apply (Hkeep _ _ Hcb) |].
        destruct (Z.ltb_spec (2 * Z.of_nat (S m)) T); [| lia].
        repeat (split; [assumption |]). apply Hrest.
      * destruct (loop_const_timed_over 4 d T (2 * Z.of_nat (S m)) t Hd)
          as (tm1 & calls & Hloop & Hs1 & Hr1 & Hp1);
          try (subst t; cbn; first [assumption | reflexivity | lia]).
        rewrite <- Hadv in Hloop.
        destruct (timer_callback_settles now tm tm1 calls ltac:(lia) Hstop
                    Hloop Hr1) as (calls' & Hcb & _).
        exists tm1, calls'. split; [exact Hcb |].
        split; [apply (Hkeep _ _ Hcb) |].
        destruct (Z.ltb_spec (2 * Z.of_nat (S m)) T); [lia |].
        repeat split; assumption.
    + (* a tick after the run *)
      destruct Hstage as (Hs & Hrun & Hp).
      destruct (tick_not_running now tm Hrun Hstop)
        as (a & b & c & e & command & Hcb & _).
      eexists _, _. split; [exact Hcb |].
      split; [apply (Hkeep _ _ Hcb) |].
      destruct (Z.ltb_spec (2 * Z.of_nat (S m)) T); [lia |].
      cbn. repeat split; assumption.
Qed.

Lemma timed_run_step (d T : Z) (op : operation) (n : nat)
    (tm : ev3_tacho_motor_data) :
  10 <= d <= 100 -> 0 < T <= 1000000000 ->
  sensing op = true -> timed_run_after d T n tm ->
  exists tm',
    apply_operation op tm = Some tm'
    /\ timed_run_after d T ((if is_tick op then 1 else 0) + n) tm'.
Proof.
  intros Hd HT Hop Hafter. destruct op; try discriminate Hop; cbn.
  - eexists. split; [reflexivity |].
    apply (timed_run_after_edge d T n tm); [apply isr_held | exact Hafter].
  - destruct (timed_run_tick hires_timer d T n tm Hd HT Hafter)
      as (tm' & calls & -> & H).
    exists tm'. split; [reflexivity | exact H].
Qed.

Lemma timed_run_run (d T : Z) (ops : list operation) :
  10 <= d <= 100 -> 0 < T <= 1000000000 ->
  forall (n : nat) (tm : ev3_tacho_motor_data),
    Forall (fun op => sensing op = true) ops ->
    timed_run_after d T n tm ->
    exists tm',
      run_operations tm ops = Some tm'
      /\ timed_run_after d T (count_ticks ops + n) tm'.
Proof.
  intros Hd HT.
  induction ops as [| op ops IH]; intros n tm Hall Hafter.
  - exists tm. split; [reflexivity | exact Hafter].
  - inversion Hall as [| ? ? Hop Hrest]; subst.
    destruct (timed_run_step d T op n tm Hd HT Hop Hafter)
      as (tm1 & Hstep & Hafter1).
    destruct (IH _ tm1 Hrest Hafter1) as (tm' & Hrun & Hafter').
    exists tm'. cbn [run_operations count_ticks]. rewrite Hstep.
    split; [exact Hrun |].
    replace ((if is_tick op then 1 else 0) + count_ticks ops + n)%nat
      with (count_ticks ops + ((if is_tick op then 1 else 0) + n))%nat by lia.
    exact Hafter'.
Qed.

Lemma timed_run_start (d T : Z) (tm : ev3_tacho_motor_data) :
  state tm = TM_STATE_IDLE -> timed_run_setup d T tm ->
  timed_run_after d T 0 (ev3_tacho_motor_set_run 1 tm).
Proof.
  intros Hs Hsetup. pose proof Hsetup as (He & Hrm & _).
  assert (Heq : ev3_tacho_motor_set_run 1 tm
                = with_run 1 (with_state TM_STATE_SETUP_RAMP_TIME tm)).
  { unfold ev3_tacho_motor_set_run. rewrite He, Hs, Hrm. reflexivity. }
  rewrite Heq. split; [exact Hsetup | split; reflexivity].
Qed.

(** X21: a timed run without ramps lasts the run time.  For an idle
    motor with the emergency stop disarmed, regulation off, stop mode
    Coast or Brake, run mode RunTime, both ramp setpoints 0, a
    duty-cycle setpoint d within [10, 100] and a run time T within
    (0, 1 000 000 000] ms: after a run request followed by any encoder
    edges and timer ticks, with any line levels and timer readings, the
    operations all return; after n >= 1 ticks the machine is in
    RampConst with the run flag 1 and the commanded power d as long as
    2(n-1) < T, and in Idle with the run flag 0 and the commanded power
    0 from the first tick with 2(n-1) >= T on. *)
Theorem timed_run_lasts_time_sp (d T : Z) (tm : ev3_tacho_motor_data)
    (ops : list operation) :
  10 <= d <= 100 -> 0 < T <= 1000000000 ->
  state tm = TM_STATE_IDLE -> timed_run_setup d T tm ->
  Forall (fun op => sensing op = true) ops ->
  exists tm',
    run_operations (ev3_tacho_motor_set_run 1 tm) ops = Some tm'
    /\ ((1 <= count_ticks ops)%nat ->
        2 * (Z.of_nat (count_ticks ops) - 1) < T ->
        ev3_tacho_motor_get_state tm' = TM_STATE_RAMP_CONST
        /\ ev3_tacho_motor_get_run tm' = 1
        /\ ev3_tacho_motor_get_duty_cycle tm' = d)
    /\ ((1 <= count_ticks ops)%nat ->
        T <= 2 * (Z.of_nat (count_ticks ops) - 1) ->
        ev3_tacho_motor_get_state tm' = TM_STATE_IDLE
        /\ ev3_tacho_motor_get_run tm' = 0
        /\ ev3_tacho_motor_get_duty_cycle tm' = 0).
Proof.
  intros Hd HT Hs Hsetup Hall.
  destruct (timed_run_run d T ops Hd HT 0 _ Hall (timed_run_start d T tm Hs Hsetup))
    as (tm' & Hrun & _ & Hstage).
  exists tm'. split; [exact Hrun |].
  rewrite Nat.add_0_r in Hstage.
  destruct (count_ticks ops) as [| m]; [split; intros; lia |].
  assert (Hm : 2 * (Z.of_nat (S m) - 1) = 2 * Z.of_nat m) by lia.
  rewrite Hm.
  destruct (Z.ltb_spec (2 * Z.of_nat m) T).
  - split; intros _ Hcmp; [| lia].
    destruct Hstage as (H1 & H2 & H3 & _). repeat split; assumption.
  - split; intros _ Hcmp; [lia |].
    destruct Hstage as (H1 & H2 & H3). repeat split; assumption.
Qed.

Lemma timed_run_lasts_time_sp_witness :
  exists tm',
    run_operations (ev3_tacho_motor_set_run 1 timed_motor) (ticks_only 51)
    = Some tm'
    /\ ev3_tacho_motor_get_state tm' = TM_STATE_IDLE
    /\ ev3_tacho_motor_get_run tm' = 0
    /\ ev3_tacho_motor_get_duty_cycle tm' = 0.
Proof.
  assert (Hall : Forall (fun op => sensing op = true) (ticks_only 51))
    by (apply Forall_forall; intros op Hin;
        apply elem_of_replicate in Hin as [-> _]; reflexivity).
  assert (Hsetup : timed_run_setup 50 100 timed_motor)
    by (unfold timed_run_setup; cbn; repeat split; discriminate).
  destruct (timed_run_lasts_time_sp 50 100 timed_motor (ticks_only 51)
              ltac:(lia) ltac:(lia) eq_refl Hsetup Hall)
    as (tm' & Hrun & _ & Hover).
  exists tm'. split; [exact Hrun |].
  apply Hover; vm_compute; [apply le_S_n, le_n_S, Nat.le_0_l || lia | discriminate].
Defined.

(** ** A run without end *)

Lemma machine_frame_run_mode tm t :
  machine_frame tm t -> run_mode t = run_mode tm.
Proof.
  intros [H _]. apply (f_equal fst) in H. unfold held_by_machine in H.
  cbn [fst] in H. apply (frame_fields _ _ H).
Qed.

(** The RampUp pass in a run mode other than RunPosition, and the
    RampConst pass in run mode RunForever, with what they write. *)
Lemma state_ramp_up_explicit t :
  run_mode t <> TM_RUN_POSITION ->
  exists q z calls,
    state_ramp_up t
    = (with_speed_reg_sp z
         (with_power q
            (set_ramp_percent
               (calculate_ramp_progress (ramp_count t) (ramp_up_full t))
               (if ramp_count t >=? ramp_up_end t
                then with_state TM_STATE_RAMP_CONST t else t))),
       calls, ramp_count t >=? ramp_up_end t).
Proof.
  intros Hm. cbv beta delta [state_ramp_up].
  destruct (run_mode t); [| | contradiction]; cbv beta iota zeta;
    destruct (ramp_count t >=? ramp_up_end t); cbv beta iota zeta;
    match goal with
    | |- context [update_motor_speed_or_power ?p ?T] =>
        destruct (update_motor_touches p T) as (q & z & Hu);
        destruct (update_motor_speed_or_power p T) as [u c];
        cbn [fst] in Hu; subst u
    end; eexists _, _, _; reflexivity.
Qed.

Lemma state_ramp_const_forever t :
  run_mode t = TM_RUN_FOREVER ->
  exists q z calls,
    state_ramp_const t
    = (with_speed_reg_sp z
         (with_power q
            (set_ramp_down_end
               (C.add (ramp_count t)
                  (C.div (C.mul (C.abs (duty_cycle_sp t)) (ramp_down_sp t)) 100))
               (set_ramp_down_start (ramp_count t) t))),
       calls, false).
Proof.
  intros Hm. cbv beta delta [state_ramp_const]. rewrite Hm.
  cbv beta iota zeta.
  match goal with
  | |- context [update_motor_speed_or_power ?p ?T] =>
      destruct (update_motor_touches p T) as (q & z & Hu);
      destruct (update_motor_speed_or_power p T) as [u c];
      cbn [fst] in Hu; subst u
  end.
  eexists _, _, _. reflexivity.
Qed.

(** From the start of a run in mode RunForever the loop settles in RampUp
    or RampConst with the run flag set. *)
Lemma loop_forever (fuel : nat) :
  forall tm : ev3_tacho_motor_data,
    run_mode tm = TM_RUN_FOREVER -> run tm = 1 ->
    state tm = TM_STATE_RUN_FOREVER
    \/ state tm = TM_STATE_SETUP_RAMP_REGULATION
    \/ driving (state tm) = true ->
    (rank (state tm) < fuel)%nat ->
    exists tm' calls,
      reprocess_loop fuel tm = Some (tm', calls)
      /\ run_mode tm' = TM_RUN_FOREVER /\ run tm' = 1
      /\ driving (state tm') = true.
Proof.
  induction fuel as [| fuel IH]; intros tm Hm Hrun Hs Hfuel; [lia |].
  rewrite reprocess_loop_eq.
  destruct Hs as [Hs | [Hs | Hs]].
  - (* RunForever: the setup pass *)
    pose proof (machine_frame_run_mode _ _ (process_state_frame tm)) as Hm1.
    destruct (process_state_shape tm) as (_ & _ & _ & Hr1 & Hsetup).
    rewrite Hs in Hr1, Hsetup. cbn in Hr1.
    destruct (Hsetup eq_refl) as (Hrep & Hnext).
    specialize (Hnext ltac:(discriminate)).
    destruct (process_state tm) as [[t1 calls1] rep]. cbn [fst snd] in *.
    subst rep.
    destruct (IH t1) as (tm' & calls & -> & Hinv);
      [congruence | congruence | right; left; exact Hnext
      | rewrite Hnext; rewrite Hs in Hfuel; cbn in *; lia |].
    eexists _, _. split; [reflexivity | exact Hinv].
  - (* SetupRampRegulation *)
    rewrite (process_state_at tm _ Hs).
    cbv beta delta [state_setup_ramp_regulation]. cbn [fst snd].
    match goal with
    | |- context [reprocess_loop fuel ?t] =>
        destruct (IH t) as (tm' & calls & -> & Hinv);
        [exact Hm | exact Hrun | right; right; reflexivity
        | rewrite Hs in Hfuel; cbn in *; lia |]
    end.
    eexists _, _. split; [reflexivity | exact Hinv].
  - destruct (state tm) eqn:Hst; try discriminate Hs.
    + (* RampUp *)
      rewrite (process_state_at tm _ Hst).
      destruct (state_ramp_up_explicit tm) as (q & z & calls1 & ->);
        [rewrite Hm; discriminate |].
      cbn [fst snd].
      destruct (ramp_count tm >=? ramp_up_end tm).
      * match goal with
        | |- context [reprocess_loop fuel ?t] =>
            destruct (IH t) as (tm' & calls & -> & Hinv);
            [exact Hm | exact Hrun | right; right; reflexivity
            | cbn in *; lia |]
        end.
        eexists _, _. split; [reflexivity | exact Hinv].
      * eexists _, _. split; [reflexivity |]. cbn. rewrite Hst. auto.
    + (* RampConst *)
      rewrite (process_state_at tm _ Hst).
      destruct (state_ramp_const_forever tm Hm) as (q & z & calls1 & ->).
      cbn [fst snd].
      eexists _, _. split; [reflexivity |]. cbn. rewrite Hst. auto.
Qed.

(** A tick of a running motor whose loop settles with the run flag
    set. *)
Lemma tick_keeps_running (now : Z) (tm tm1 : ev3_tacho_motor_data)
    (calls : list effect) :
  run tm = 1 ->
  reprocess_loop reprocess_fuel
    (advance_ramp_count (snd (calculate_speed now tm))) = Some (tm1, calls) ->
  run tm1 = 1 ->
  exists tm' calls',
    ev3_tacho_motor_timer_callback now tm = Some (tm', calls')
    /\ state tm' = state tm1 /\ run tm' = 1 /\ run_mode tm' = run_mode tm1.
Proof.
  intros Hrun Hloop Hrun1.
  rewrite timer_callback_eq. cbv zeta.
  pose proof (keeps_calculate_speed now tm) as (_ & Hr0 & _).
  rewrite Hr0, Hrun, Hloop. cbn [Z.eqb].
  rewrite Hrun1. cbn [Z.eqb negb].
  set (r := match regulation_mode tm1 with
            | TM_REGULATION_ON => regulate_speed tm1
            | _ => (tm1, [])
            end).
  assert (Hk : state (fst r) = state tm1 /\ run (fst r) = run tm1
               /\ run_mode (fst r) = run_mode tm1).
  { subst r. destruct (regulation_mode tm1); cbn [fst]; [repeat split |].
    destruct (keeps_regulate_speed tm1) as (H1 & H2 & _).
    split; [exact H1 |]. split; [exact H2 |].
    apply machine_frame_run_mode, machine_frame_regulate_speed. }
  destruct Hk as (Hs3 & Hr3 & Hm3).
  unfold no_run. rewrite Hr3, Hrun1. cbn [Z.eqb fst snd].
  eexists _, _. split; [reflexivity |].
  rewrite Hs3, Hr3, Hm3. repeat split. exact Hrun1.
Qed.

Lemma forever_tick (now : Z) (n : nat) (tm : ev3_tacho_motor_data) :
  forever_after n tm ->
  exists tm' calls,
    ev3_tacho_motor_timer_callback now tm = Some (tm', calls)
    /\ forever_after (S n) tm'.
Proof.
  intros (Hm & Hrun & Hs).
  pose proof (keeps_calculate_speed now tm) as (Hs0 & Hr0 & _).
  destruct (tick_frame_calculate_speed now tm) as [Hh0 _].
  destruct (frame_fields _ _ Hh0) as (_ & _ & Hm0 & _).
  destruct (advance_ramp_count_shape (snd (calculate_speed now tm)))
    as (Hsa & Hra & _).
  assert (Hma : run_mode (advance_ramp_count (snd (calculate_speed now tm)))
                = run_mode tm).
  { rewrite (machine_frame_run_mode _ _ (machine_frame_advance _)). exact Hm0. }
  destruct (loop_forever reprocess_fuel
              (advance_ramp_count (snd (calculate_speed now tm))))
    as (tm1 & calls & Hloop & Hm1 & Hr1 & Hs1).
  - congruence.
  - congruence.
  - rewrite Hsa, Hs0. destruct n; [left; exact Hs | right; right; exact Hs].
  - apply rank_bound.
  - destruct (tick_keeps_running now tm tm1 calls Hrun Hloop Hr1)
      as (tm' & calls' & Hcb & Hs' & Hr' & Hm').
    exists tm', calls'. split; [exact Hcb |].
    split; [congruence |]. split; [exact Hr' |]. cbn. rewrite Hs'. exact Hs1.
Qed.

Lemma forever_after_edge (n : nat) (tm t : ev3_tacho_motor_data) :
  held_through_edge t = held_through_edge tm ->
  forever_after n tm -> forever_after n t.
Proof.
  intros H. unfold held_through_edge in H. injection H. intros.
  unfold forever_after in *.
  repeat match goal with
    | H : ?f t = ?f tm |- _ => rewrite H; clear H
    end.
  assumption.
Qed.

Lemma forever_run (ops : list operation) :
  forall (n : nat) (tm : ev3_tacho_motor_data),
    Forall (fun op => sensing op = true) ops ->
    forever_after n tm ->
    exists tm',
      run_operations tm ops = Some tm'
      /\ forever_after (count_ticks ops + n) tm'.
Proof.
  induction ops as [| op ops IH]; intros n tm Hall Hafter.
  - exists tm. split; [reflexivity | exact Hafter].
  - inversion Hall as [| ? ? Hop Hrest]; subst.
    assert (Hstep : exists tm1,
               apply_operation op tm = Some tm1
               /\ forever_after ((if is_tick op then 1 else 0) + n) tm1).
    { destruct op; try discriminate Hop; cbn.
      - eexists. split; [reflexivity |].
        apply (forever_after_edge n tm); [apply isr_held | exact Hafter].
      - destruct (forever_tick hires_timer n tm Hafter) as (tm1 & calls & -> & H).
        exists tm1. split; [reflexivity | exact H]. }
    destruct Hstep as (tm1 & Hstep & Hafter1).
    destruct (IH _ tm1 Hrest Hafter1) as (tm' & Hrun & Hafter').
    exists tm'. cbn [run_operations count_ticks]. rewrite Hstep.
    split; [exact Hrun |].
    replace ((if is_tick op then 1 else 0) + count_ticks ops + n)%nat
      with (count_ticks ops + ((if is_tick op then 1 else 0) + n))%nat by lia.
    exact Hafter'.
Qed.

(** X22: a run in mode RunForever never ends by itself.  For an idle
    motor with the emergency stop disarmed and run mode RunForever,
    whatever the setpoints, the regulation mode and the stop mode are:
    after a run request followed by any encoder edges and at least one
    timer tick, with any line levels and timer readings, the operations
    all return, the run flag is 1 and the state machine is in RampUp or
    RampConst. *)
Theorem run_forever_never_ends (tm : ev3_tacho_motor_data)
    (ops : list operation) :
  state tm = TM_STATE_IDLE -> estop tm = 0 -> run_mode tm = TM_RUN_FOREVER ->
  Forall (fun op => sensing op = true) ops ->
  (1 <= count_ticks ops)%nat ->
  exists tm',
    run_operations (ev3_tacho_motor_set_run 1 tm) ops = Some tm'
    /\ ev3_tacho_motor_get_run tm' = 1
    /\ (ev3_tacho_motor_get_state tm' = TM_STATE_RAMP_UP
        \/ ev3_tacho_motor_get_state tm' = TM_STATE_RAMP_CONST).
Proof.
  intros Hs He Hm Hall Hticks.
  assert (Hstart : forever_after 0 (ev3_tacho_motor_set_run 1 tm)).
  { assert (Heq : ev3_tacho_motor_set_run 1 tm
                  = with_run 1 (with_state TM_STATE_RUN_FOREVER tm)).
    { unfold ev3_tacho_motor_set_run. rewrite He, Hs, Hm. reflexivity. }
    rewrite Heq. repeat split. exact Hm. }
  destruct (forever_run ops 0 _ Hall Hstart) as (tm' & Hrun & _ & Hr & Hst).
  exists tm'. split; [exact Hrun |]. split; [exact Hr |].
  rewrite Nat.add_0_r in Hst.
  destruct (count_ticks ops); [lia |].
  unfold ev3_tacho_motor_get_state.
  destruct (state tm'); try discriminate Hst; auto.
Qed.

Lemma run_forever_never_ends_witness :
  exists tm',
    run_operations (ev3_tacho_motor_set_run 1 fresh_motor) (ticks_only 3)
    = Some tm'
    /\ ev3_tacho_motor_get_run tm' = 1
    /\ (ev3_tacho_motor_get_state tm' = TM_STATE_RAMP_UP
        \/ ev3_tacho_motor_get_state tm' = TM_STATE_RAMP_CONST).
Proof.
  assert (Hall : Forall (fun op => sensing op = true) (ticks_only 3))
    by (apply Forall_forall; intros op Hin;
        apply elem_of_replicate in Hin as [-> _]; reflexivity).
  apply (run_forever_never_ends fresh_motor (ticks_only 3)
           eq_refl eq_refl eq_refl Hall).
  vm_compute. lia.
Defined.

(** ** The direction of a run to a position *)

Lemma scaled_setpoint_magnitude (sp percent : Z) :
  0 <= C.abs (C.div (C.mul sp percent) 100) <= 21474836.
Proof.
  assert (Hq : -21474836 <= C.sint (sp * percent) ÷ 100 <= 21474836).
  { pose proof (sint_is_int (sp * percent)) as Hi.
    set (x := C.sint (sp * percent)) in *. clearbody x.
    assert (-2147483648 <= x < 2147483648) by (revert Hi; unwrap; lia).
    split.
    - change (-21474836) with (-2147483648 ÷ 100). apply Z.quot_le_mono; lia.
    - change 21474836 with (2147483647 ÷ 100). apply Z.quot_le_mono; lia. }
  unfold C.div, C.mul. rewrite (sint_id (_ ÷ 100)) by (unwrap; lia).
  unfold C.abs. case_cmp; [| lia].
  unfold C.neg. rewrite sint_id by (unwrap; lia). lia.
Qed.

(** X23: a run to a position is driven toward its target.  The setup
    pass of a run to a position makes no call, asks for another pass and
    goes to SetupRampRegulation; the target is the position setpoint in
    absolute mode and the previous target plus the setpoint otherwise;
    the ramp direction is 1 if the target is at or beyond the position
    reading and -1 if not; the up window starts at 0 and the down window
    is put an hour away.  While the run lasts, whatever the sign and
    size of the setpoint and the ramp percentage, the commanded power
    (regulation off) or the regulator setpoint (regulation on) is never
    negative when the direction is 1 and never positive when it is
    -1. *)
Theorem position_run_drives_toward_target (percent : Z)
    (tm : ev3_tacho_motor_data) :
  (exists t,
     state_setup_ramp_position tm = (t, [], true)
     /\ state t = TM_STATE_SETUP_RAMP_REGULATION
     /\ ramp_position_sp (ramp t)
        = match position_mode tm with
          | TM_POSITION_ABSOLUTE => position_sp tm
          | _ => C.add (ramp_position_sp (ramp tm)) (position_sp tm)
          end
     /\ ramp_direction t
        = (if ramp_position_sp (ramp t) >=? ev3_tacho_motor_get_position tm
           then 1 else -1)
     /\ ramp_up_start t = 0
     /\ ramp_down_start t = 3600000 /\ ramp_down_end t = 3600000)
  /\ (run_mode tm = TM_RUN_POSITION ->
      (regulation_mode tm = TM_REGULATION_OFF ->
       (ramp_direction tm = 1 ->
        0 <= power (fst (update_motor_speed_or_power percent tm)))
       /\ (ramp_direction tm = -1 ->
           power (fst (update_motor_speed_or_power percent tm)) <= 0))
      /\ (regulation_mode tm = TM_REGULATION_ON ->
          (ramp_direction tm = 1 ->
           0 <= speed_reg_sp (fst (update_motor_speed_or_power percent tm)))
          /\ (ramp_direction tm = -1 ->
              speed_reg_sp (fst (update_motor_speed_or_power percent tm))
              <= 0))).
Proof.
  split.
  - destruct tm as [? ? ? ? ? ? ? ? ? [[? ? ?] [? ? ?] ? ? ? ?] ? ? ? ? ? ? ? ? ? ? ?
                      ? ? ? ? ? ? ? ? ? ? ? ?].
    unfold state_setup_ramp_position, ev3_tacho_motor_get_position. cbn.
    repeat match goal with
      | |- context [match ?m with _ => _ end] => is_var m; destruct m; cbn
      end;
      eexists; (split; [reflexivity |]); cbn; repeat split.
  - intros Hm. unfold update_motor_speed_or_power. rewrite Hm.
    split; intros Hreg; rewrite Hreg.
    + match goal with
      | |- context [ev3_tacho_motor_set_power ?p ?T] =>
          destruct (set_power_sign p T) as (Hpos & Hneg & Hzero);
          set (q := power (fst (ev3_tacho_motor_set_power p T))) in *;
          clearbody q
      end.
      pose proof (scaled_setpoint_magnitude (duty_cycle_sp tm) percent) as Hx.
      set (x := C.abs _) in *. clearbody x.
      split; intros Hdir; rewrite Hdir in Hpos, Hneg, Hzero;
        unfold C.mul in Hpos, Hneg, Hzero;
        rewrite sint_id in Hpos, Hneg, Hzero by (unwrap; lia);
        destruct (Z.eq_dec x 0) as [E | E]; try (rewrite Hzero; lia);
        try (specialize (Hpos ltac:(lia)); lia);
        try (specialize (Hneg ltac:(lia)); lia).
    + cbn [fst speed_reg_sp with_speed_reg_sp]. cbn.
      pose proof (scaled_setpoint_magnitude (pulses_per_second_sp tm) percent)
        as Hx.
      set (x := C.abs _) in *. clearbody x.
      split; intros Hdir; rewrite Hdir; unfold C.mul;
        rewrite sint_id by (unwrap; lia); lia.
Qed.

(** ** Braking before the target *)

Lemma adjust_ramp_explicit tm :
  adjust_ramp_for_position tm
  = if braking_due tm then
      set_ramp_down_start
        (C.sub (C.add (ramp_count tm) (ramp_down_time tm)) (ramp_down_sp tm))
        (set_ramp_down_end (C.add (ramp_count tm) (ramp_down_time tm))
           (set_ramp_up_end (ramp_count tm) tm))
    else tm.
Proof.
  unfold adjust_ramp_for_position, braking_due, ramp_down_distance,
    ramp_down_time.
  cbv zeta. repeat case_if; reflexivity.
Qed.

Lemma ramp_down_time_open_loop tm :
  regulation_mode tm = TM_REGULATION_OFF -> power_in_range tm ->
  0 <= ramp_down_sp tm <= 10000000 ->
  0 <= ramp_down_time tm <= ramp_down_sp tm.
Proof.
  unfold ramp_down_time, power_in_range. intros -> Hp Hsp.
  set (sp := ramp_down_sp tm) in *. set (p := power tm) in *.
  clearbody sp p.
  assert (Hm : C.mul sp p = sp * p) by (unfold C.mul; apply sint_id; unwrap; nia).
  rewrite Hm. unfold C.div.
  assert (Hq : Z.abs (sp * p ÷ 100) <= sp).
  { rewrite <- (Z.quot_abs _ 100) by lia. change (Z.abs 100) with 100.
    apply Z.quot_le_upper_bound; [lia |]. rewrite Z.abs_mul. nia. }
  rewrite sint_id by (unwrap; lia).
  rewrite abs_magnitude by (unwrap; lia). lia.
Qed.

(** X24: a run to a position starts to brake as soon as the target is
    within braking distance.  In the RampConst pass of a run to a
    position in open loop, with the commanded power a percentage, a
    ramp-down setpoint within [0, 10 000 000] and a ramp counter within
    plus and minus 2 000 000 000: if the target is within the distance a
    ramp down from the present speed would cover, the pass ends the up
    window at the counter, ends the down window one ramp-down time from
    the counter, and goes to PositionRampDown asking for another pass;
    that ramp-down time is at most the ramp-down setpoint. *)
Theorem braking_starts_within_distance (tm : ev3_tacho_motor_data) :
  run_mode tm = TM_RUN_POSITION -> regulation_mode tm = TM_REGULATION_OFF ->
  power_in_range tm -> 0 <= ramp_down_sp tm <= 10000000 ->
  -2000000000 <= ramp_count tm <= 2000000000 ->
  braking_due tm = true ->
  exists t calls,
    state_ramp_const tm = (t, calls, true)
    /\ state t = TM_STATE_POSITION_RAMP_DOWN
    /\ ramp_up_end t = ramp_count tm
    /\ ramp_down_end t = ramp_count tm + ramp_down_time tm
    /\ 0 <= ramp_down_time tm <= ramp_down_sp tm.
Proof.
  intros Hm Hreg Hp Hsp Hc Hdue.
  pose proof (ramp_down_time_open_loop tm Hreg Hp Hsp) as Ht.
  cbv beta delta [state_ramp_const]. rewrite Hm. cbv zeta.
  rewrite adjust_ramp_explicit, Hdue.
  set (time := ramp_down_time tm) in *. clearbody time.
  assert (Hend : C.add (ramp_count tm) time = ramp_count tm + time)
    by (unfold C.add; apply sint_id; unwrap; lia).
  rewrite Hend.
  assert (Hstart : C.sub (ramp_count tm + time)%Z (ramp_down_sp tm)
                   = ramp_count tm + time - ramp_down_sp tm)
    by (unfold C.sub; apply sint_id; unwrap; lia).
  rewrite Hstart. cbn [ramp count down start set_ramp_down_start
    set_ramp_down_end set_ramp_up_end on_ramp on_down on_up with_start
    with_end with_ramp with_down with_up].
  cbn.
  destruct (Z.geb_spec (ramp_count tm) (ramp_count tm + time - ramp_down_sp tm));
    [| lia].
  match goal with
  | |- context [update_motor_speed_or_power ?p ?T] =>
      destruct (update_motor_touches p T) as (q & z & Hu);
      destruct (update_motor_speed_or_power p T) as [u c];
      cbn [fst] in Hu; subst u
  end.
  eexists _, _. split; [reflexivity |]. cbn. repeat split; lia.
Qed.

Lemma braking_starts_within_distance_witness :
  ramp_down_time approaching_motor = 50
  /\ ramp_down_distance approaching_motor = 15
  /\ exists t calls,
       state_ramp_const approaching_motor = (t, calls, true)
       /\ state t = TM_STATE_POSITION_RAMP_DOWN
       /\ ramp_up_end t = ramp_count approaching_motor
       /\ ramp_down_end t
          = ramp_count approaching_motor + ramp_down_time approaching_motor
       /\ 0 <= ramp_down_time approaching_motor
            <= ramp_down_sp approaching_motor.
Proof.
  split; [reflexivity |]. split; [reflexivity |].
  apply (braking_starts_within_distance approaching_motor); vm_compute;
    first [reflexivity | discriminate | (split; discriminate)].
Defined.
